(** * VSR: the SuperResolution model framework and the Espcn architecture

    A shallow embedding of [VSR/Framework/SuperResolution.py] and
    [VSR/Models/Espcn.py].  The Python objects live in a heap indexed by
    references, the TensorFlow default graph is a growing list of nodes
    (a tensor handle is the index of its node), and every method is a
    computation in a state-and-exception monad over that world. *)

From Stdlib Require Import ZArith QArith Qcanon Lia.
From stdpp Require Import base option list gmap strings numbers.

Local Open Scope string_scope.
Local Open Scope list_scope.
Local Open Scope Z_scope.

(** ** Python values, exceptions and results *)

Inductive pyerror :=
| NotImplementedError (msg : string)
| ValueError (msg : string)
| TypeError (msg : string)
| IndexError (msg : string)
| AttributeError (msg : string)
| KeyError (msg : string).

Inductive result (A : Type) :=
| Ok (a : A)
| Raise (e : pyerror).
Arguments Ok {A} a.
Arguments Raise {A} e.

(** Decimal literals of the source ([1e-4], [255.0]) are kept as exact
    rationals. *)
Definition pyfloat := Qc.
Definition decimal (num : Z) (den : positive) : pyfloat := Q2Qc (num # den).

(** The callables that the two source files hand around. *)
Inductive callable :=
| he_normal                     (* tf.keras.initializers.he_normal() *)
| regularizers_l1 (l : pyfloat) (* tf.keras.regularizers.l1(l) *)
| regularizers_l2 (l : pyfloat) (* tf.keras.regularizers.l2(l) *)
| nn_relu                       (* tf.nn.relu *)
| nn_tanh                       (* tf.nn.tanh *)
| user_callable (name : string) (* any other function of the caller *).

(** The values an option of [conv2d] can be bound to. *)
Inductive pyval :=
| PyNone
| PyStr (s : string)
| PyInt (z : Z)
| PyCallable (f : callable).

Global Instance pyfloat_eq_dec : EqDecision pyfloat := Qc_eq_dec.
Global Instance callable_eq_dec : EqDecision callable.
Proof. solve_decision. Defined.
Global Instance pyval_eq_dec : EqDecision pyval.
Proof. solve_decision. Defined.

Definition isinstance_str (v : pyval) : bool :=
  match v with PyStr _ => true | _ => false end.

Definition is_callable (v : pyval) : bool :=
  match v with PyCallable _ => true | _ => false end.

(** Python truth value: [None], the empty string and [0] are false. *)
Definition truthy (v : pyval) : bool :=
  match v with
  | PyNone => false
  | PyStr s => negb (String.eqb s "")
  | PyInt z => negb (Z.eqb z 0)
  | PyCallable _ => true
  end.

Definition float_truthy (q : pyfloat) : bool := bool_decide (q ≠ 0%Qc).

(** [a == b] on option values. *)
Definition py_eq (a b : pyval) : bool := bool_decide (a = b).

(** An argument that may be one object, a sequence of them, or [None]. *)
Inductive pyarg (A : Type) :=
| ArgNone
| ArgOne (x : A)
| ArgSeq (xs : list A).
Arguments ArgNone {A}.
Arguments ArgOne {A} x.
Arguments ArgSeq {A} xs.

(** Modelled from the spec: [to_list] of [VSR/Util/Utility.py] is not part
    of the sources at hand.  The specification says that a single scalar
    scale "is broadcast to both axes" and that the scale is normalised "to
    a 2-tuple", that "single arrays are normalized to single-element
    sequences", and that absent labels yield no label at all.  A sequence
    is therefore kept as it is, a single object is repeated [repeat]
    times, and [None] becomes the empty list. *)
Definition to_list {A : Type} (x : pyarg A) (repeat : nat) : list A :=
  match x with
  | ArgSeq xs => xs
  | ArgOne a => replicate repeat a
  | ArgNone => []
  end.

(** ** The TensorFlow graph *)

Abbreviation handle := nat.

Inductive dtype := tf_uint8 | tf_float32 | tf_bool.

Record conv_args := {
  ca_filters : Z;
  ca_kernel_size : Z;
  ca_strides : Z * Z;
  ca_padding : string;
  ca_data_format : string;
  ca_dilation_rate : Z * Z;
  ca_activation : pyval;
  ca_use_bias : bool;
  ca_kernel_initializer : pyval;
  ca_kernel_regularizer : pyval;
  ca_kwargs : list (string * pyval)
}.

(** One node per TensorFlow call of the sources; the operands are handles
    of earlier nodes.  [PixelShift] stands for [Utility.pixel_shift], the
    channel-to-space rearrangement of the last layer, which the sources at
    hand only call. *)
Inductive tfop :=
| Placeholder (dt : dtype) (shape : option (list (option Z)))
    (name : option string)
| GlobalVariable (init : Z) (trainable : bool) (name : string)
| Cast (x : handle) (dt : dtype) (name : option string)
| DivScalar (x : handle) (c : pyfloat)
| MulScalar (x : handle) (c : pyfloat)
| RgbToYuv (x : handle)
| SliceLast (x : handle) (lo hi : option Z)
| Conv2D (x : handle) (a : conv_args)
| RegularizationLoss (r : callable) (layer : handle)
| BatchNormalization (x : handle) (training : handle)
| Call (f : callable) (x : handle)
| PixelShift (x : handle) (scale : list Z) (channels : Z)
| MeanSquaredError (y_true y_pred : handle)
| TotalVariation (x : handle)
| ReduceMean (x : handle)
| AddN (xs : list handle)
| Add (x y : handle)
| AdamMinimize (lr loss : handle) (global_step : option handle)
| Psnr (a b : handle) (max_val : Z)
| Ssim (a b : handle) (max_val : Z)
| SummaryScalar (name : string) (x : handle)
| MergeSummary (xs : list handle).

(** The default graph: its nodes (each with the variable scope it was
    created in), the two collections the sources read back, and the stack
    of open variable scopes. *)
Record tfgraph := {
  nodes : list (list string * tfop);
  summaries : list handle;
  regularization_losses : list handle;
  scopes : list string
}.

Definition empty_graph : tfgraph :=
  {| nodes := []; summaries := []; regularization_losses := []; scopes := [] |}.

Definition op_of (g : tfgraph) (h : handle) : option tfop :=
  snd <$> nodes g !! h.

(** ** The model object *)

Abbreviation loc := nat.

Inductive klass := SuperResolutionClass | EspcnClass.

(** The attributes of a model.  [layers] and [name] are set by [Espcn]
    only. *)
Record SuperResolution := {
  cls : klass;
  layers : option Z;
  name : option string;
  scale : list Z;
  weight_decay : pyfloat;
  rgba : bool;
  trainable_weights : list handle;
  bias : list handle;
  inputs : list handle;
  inputs_preproc : list handle;
  label : list handle;
  outputs : list handle;
  loss : list handle;
  metrics : list (string * handle);
  global_steps : option handle;
  summary_op : option handle;
  summary_writer : option handle;
  compiled : bool;
  unknown_args : list (string * pyval);
  training_phase : handle;
  learning_rate : handle
}.

Definition set_inputs (f : list handle → list handle) (m : SuperResolution) :=
  {| cls := cls m; layers := layers m; name := name m; scale := scale m;
     weight_decay := weight_decay m; rgba := rgba m;
     trainable_weights := trainable_weights m; bias := bias m;
     inputs := f (inputs m); inputs_preproc := inputs_preproc m;
     label := label m; outputs := outputs m; loss := loss m;
     metrics := metrics m; global_steps := global_steps m;
     summary_op := summary_op m; summary_writer := summary_writer m;
     compiled := compiled m; unknown_args := unknown_args m;
     training_phase := training_phase m; learning_rate := learning_rate m |}.

Definition set_inputs_preproc (f : list handle → list handle) (m : SuperResolution) :=
  {| cls := cls m; layers := layers m; name := name m; scale := scale m;
     weight_decay := weight_decay m; rgba := rgba m;
     trainable_weights := trainable_weights m; bias := bias m;
     inputs := inputs m; inputs_preproc := f (inputs_preproc m);
     label := label m; outputs := outputs m; loss := loss m;
     metrics := metrics m; global_steps := global_steps m;
     summary_op := summary_op m; summary_writer := summary_writer m;
     compiled := compiled m; unknown_args := unknown_args m;
     training_phase := training_phase m; learning_rate := learning_rate m |}.

Definition set_label (f : list handle → list handle) (m : SuperResolution) :=
  {| cls := cls m; layers := layers m; name := name m; scale := scale m;
     weight_decay := weight_decay m; rgba := rgba m;
     trainable_weights := trainable_weights m; bias := bias m;
     inputs := inputs m; inputs_preproc := inputs_preproc m;
     label := f (label m); outputs := outputs m; loss := loss m;
     metrics := metrics m; global_steps := global_steps m;
     summary_op := summary_op m; summary_writer := summary_writer m;
     compiled := compiled m; unknown_args := unknown_args m;
     training_phase := training_phase m; learning_rate := learning_rate m |}.

Definition set_outputs (f : list handle → list handle) (m : SuperResolution) :=
  {| cls := cls m; layers := layers m; name := name m; scale := scale m;
     weight_decay := weight_decay m; rgba := rgba m;
     trainable_weights := trainable_weights m; bias := bias m;
     inputs := inputs m; inputs_preproc := inputs_preproc m;
     label := label m; outputs := f (outputs m); loss := loss m;
     metrics := metrics m; global_steps := global_steps m;
     summary_op := summary_op m; summary_writer := summary_writer m;
     compiled := compiled m; unknown_args := unknown_args m;
     training_phase := training_phase m; learning_rate := learning_rate m |}.

Definition set_loss (f : list handle → list handle) (m : SuperResolution) :=
  {| cls := cls m; layers := layers m; name := name m; scale := scale m;
     weight_decay := weight_decay m; rgba := rgba m;
     trainable_weights := trainable_weights m; bias := bias m;
     inputs := inputs m; inputs_preproc := inputs_preproc m;
     label := label m; outputs := outputs m; loss := f (loss m);
     metrics := metrics m; global_steps := global_steps m;
     summary_op := summary_op m; summary_writer := summary_writer m;
     compiled := compiled m; unknown_args := unknown_args m;
     training_phase := training_phase m; learning_rate := learning_rate m |}.

Definition set_metrics (f : list (string * handle) → list (string * handle))
    (m : SuperResolution) :=
  {| cls := cls m; layers := layers m; name := name m; scale := scale m;
     weight_decay := weight_decay m; rgba := rgba m;
     trainable_weights := trainable_weights m; bias := bias m;
     inputs := inputs m; inputs_preproc := inputs_preproc m;
     label := label m; outputs := outputs m; loss := loss m;
     metrics := f (metrics m); global_steps := global_steps m;
     summary_op := summary_op m; summary_writer := summary_writer m;
     compiled := compiled m; unknown_args := unknown_args m;
     training_phase := training_phase m; learning_rate := learning_rate m |}.

Definition set_summary_op (v : option handle) (m : SuperResolution) :=
  {| cls := cls m; layers := layers m; name := name m; scale := scale m;
     weight_decay := weight_decay m; rgba := rgba m;
     trainable_weights := trainable_weights m; bias := bias m;
     inputs := inputs m; inputs_preproc := inputs_preproc m;
     label := label m; outputs := outputs m; loss := loss m;
     metrics := metrics m; global_steps := global_steps m;
     summary_op := v; summary_writer := summary_writer m;
     compiled := compiled m; unknown_args := unknown_args m;
     training_phase := training_phase m; learning_rate := learning_rate m |}.

Definition set_compiled (v : bool) (m : SuperResolution) :=
  {| cls := cls m; layers := layers m; name := name m; scale := scale m;
     weight_decay := weight_decay m; rgba := rgba m;
     trainable_weights := trainable_weights m; bias := bias m;
     inputs := inputs m; inputs_preproc := inputs_preproc m;
     label := label m; outputs := outputs m; loss := loss m;
     metrics := metrics m; global_steps := global_steps m;
     summary_op := summary_op m; summary_writer := summary_writer m;
     compiled := v; unknown_args := unknown_args m;
     training_phase := training_phase m; learning_rate := learning_rate m |}.

Definition set_weight_decay (v : pyfloat) (m : SuperResolution) :=
  {| cls := cls m; layers := layers m; name := name m; scale := scale m;
     weight_decay := v; rgba := rgba m;
     trainable_weights := trainable_weights m; bias := bias m;
     inputs := inputs m; inputs_preproc := inputs_preproc m;
     label := label m; outputs := outputs m; loss := loss m;
     metrics := metrics m; global_steps := global_steps m;
     summary_op := summary_op m; summary_writer := summary_writer m;
     compiled := compiled m; unknown_args := unknown_args m;
     training_phase := training_phase m; learning_rate := learning_rate m |}.

(** A Python [dict] keeps one entry per key, in insertion order:
    [d[k] = v] replaces the value of an existing key in place and appends a
    new key at the end. *)
Fixpoint dict_set {V : Type} (k : string) (v : V) (d : list (string * V))
    : list (string * V) :=
  match d with
  | [] => [(k, v)]
  | (k', v') :: d' =>
      if String.eqb k k' then (k, v) :: d' else (k', v') :: dict_set k v d'
  end.

Definition dict_keys {V : Type} (d : list (string * V)) : list string := d.*1.
Definition dict_values {V : Type} (d : list (string * V)) : list V := d.*2.

Fixpoint dict_get {V : Type} (k : string) (d : list (string * V)) : option V :=
  match d with
  | [] => None
  | (k', v) :: d' => if String.eqb k k' then Some v else dict_get k d'
  end.

(** ** The execution engine

    The session is owned by TensorFlow.  All that the framework relies on
    is that [run] hands back one value per fetched handle. *)

Inductive feedval (A : Type) :=
| FeedBool (b : bool)
| FeedFloat (q : pyfloat)
| FeedArray (a : A).
Arguments FeedBool {A} b.
Arguments FeedFloat {A} q.
Arguments FeedArray {A} a.

Class TFRuntime := {
  ndarray : Type;
  session : Type;
  session_run :
    session → tfgraph → list handle → gmap handle (feedval ndarray) →
    list ndarray * session;
  session_run_length : ∀ s g fetches fd,
    length (session_run s g fetches fd).1 = length fetches
}.

(** The feed dictionary of a run, keyed by placeholder. *)
Abbreviation feed_dict := (gmap handle (feedval ndarray)).

Section framework.
Context `{RT : TFRuntime}.

(** ** The world and the monad of the methods *)

Record world := {
  heap : gmap loc SuperResolution;
  graph : tfgraph;
  default_session : option session
}.


(** A Python exception leaves the side effects made so far in place. *)
Definition M (A : Type) : Type := world → result A * world.

Global Instance M_ret : MRet M := λ A a w, (Ok a, w).
Global Instance M_bind : MBind M := λ A B f c w,
  match c w with
  | (Ok a, w') => f a w'
  | (Raise e, w') => (Raise e, w')
  end.

Definition raise {A : Type} (e : pyerror) : M A := λ w, (Raise e, w).

(** [self.field] *)
Definition get_attr {A : Type} (self : loc) (field : SuperResolution → A)
    : M A := λ w,
  match heap w !! self with
  | Some m => (Ok (field m), w)
  | None => (Raise (AttributeError "no such object"), w)
  end.

Definition modify_self (self : loc) (f : SuperResolution → SuperResolution)
    : M unit := λ w,
  match heap w !! self with
  | Some m =>
      (Ok (), {| heap := <[self := f m]> (heap w); graph := graph w;
                 default_session := default_session w |})
  | None => (Raise (AttributeError "no such object"), w)
  end.

(** A new object gets a reference that is not in use. *)
Definition alloc (m : SuperResolution) : M loc := λ w,
  let self : loc := fresh (dom (heap w) : gset loc) in
  (Ok self, {| heap := <[self := m]> (heap w); graph := graph w;
               default_session := default_session w |}).

Definition with_graph (f : tfgraph → tfgraph) (w : world) : world :=
  {| heap := heap w; graph := f (graph w);
     default_session := default_session w |}.

(** Every TensorFlow call adds one node and returns its handle. *)
Definition add_node (op : tfop) (g : tfgraph) : tfgraph :=
  {| nodes := nodes g ++ [(scopes g, op)]; summaries := summaries g;
     regularization_losses := regularization_losses g; scopes := scopes g |}.

Definition emit (op : tfop) : M handle := λ w,
  (Ok (length (nodes (graph w))), with_graph (add_node op) w).

Definition add_summary (h : handle) (g : tfgraph) : tfgraph :=
  {| nodes := nodes g; summaries := summaries g ++ [h];
     regularization_losses := regularization_losses g; scopes := scopes g |}.

Definition add_regularization_loss (h : handle) (g : tfgraph) : tfgraph :=
  {| nodes := nodes g; summaries := summaries g;
     regularization_losses := regularization_losses g ++ [h];
     scopes := scopes g |}.

Definition set_scopes (s : list string) (g : tfgraph) : tfgraph :=
  {| nodes := nodes g; summaries := summaries g;
     regularization_losses := regularization_losses g; scopes := s |}.

(** [with tf.variable_scope(name): body]; the scope is left again when the
    body raises. *)
Definition variable_scope {A : Type} (name : string) (body : M A) : M A := λ w,
  let outer := scopes (graph w) in
  let '(r, w') := body (with_graph (set_scopes (outer ++ [name])) w) in
  (r, with_graph (set_scopes outer) w').

(** [l[i]] and [l[-1]]. *)
Definition index {A : Type} (l : list A) (i : nat) : M A :=
  match l !! i with
  | Some x => mret x
  | None => raise (IndexError "list index out of range")
  end.

Definition index_last {A : Type} (l : list A) : M A :=
  match list.last l with
  | Some x => mret x
  | None => raise (IndexError "list index out of range")
  end.

(** [f(x)] for a Python value [f]. *)
Definition call (f : pyval) (x : handle) : M handle :=
  match f with
  | PyCallable c => emit (Call c x)
  | PyNone => raise (TypeError "'NoneType' object is not callable")
  | PyStr _ => raise (TypeError "'str' object is not callable")
  | PyInt _ => raise (TypeError "'int' object is not callable")
  end.

(** [tf.layers.conv2d]: the layer node and, when a regularizer is given,
    its penalty in the collection of regularization losses. *)
Definition tf_layers_conv2d (x : handle) (a : conv_args) : M handle :=
  y ← emit (Conv2D x a);
  match ca_kernel_regularizer a with
  | PyCallable r =>
      p ← emit (RegularizationLoss r y);
      _ ← (λ w, (Ok (), with_graph (add_regularization_loss p) w)) : M unit;
      mret y
  | _ => mret y
  end.

Definition tf_summary_scalar (name : string) (x : handle) : M handle :=
  s ← emit (SummaryScalar name x);
  _ ← (λ w, (Ok (), with_graph (add_summary s) w)) : M unit;
  mret s.

(** [tf.summary.merge_all()] is [None] when no summary was collected. *)
Definition tf_summary_merge_all : M (option handle) := λ w,
  match summaries (graph w) with
  | [] => (Ok None, w)
  | ss => let '(r, w') := emit (MergeSummary ss) w in
          (match r with Ok h => Ok (Some h) | Raise e => Raise e end, w')
  end.

Definition tf_losses_get_regularization_losses : M (list handle) := λ w,
  (Ok (regularization_losses (graph w)), w).

(** [tf.add_n] refuses an empty list. *)
Definition tf_add_n (xs : list handle) : M handle :=
  match xs with
  | [] => raise (ValueError "inputs must be a list of at least one Tensor")
  | _ => emit (AddN xs)
  end.

(** ** [SuperResolution] *)

Definition default_weight_decay : pyfloat := decimal 1 10000.

(** [__init__]: the attribute values, then the global step and the two
    control placeholders. *)
Definition SuperResolution_init (c : klass) (lay : option Z)
    (nm : option string) (scale_arg : pyarg Z) (wd : pyfloat)
    (rgb_input : bool) (kwargs : list (string * pyval)) : M loc :=
  gs ← emit (GlobalVariable 0 false "global_step");
  tp ← emit (Placeholder tf_bool None (Some "is_training"));
  lr ← emit (Placeholder tf_float32 None (Some "learning_rate"));
  alloc {| cls := c; layers := lay; name := nm;
           scale := to_list scale_arg 2;
           weight_decay := wd; rgba := rgb_input;
           trainable_weights := []; bias := [];
           inputs := []; inputs_preproc := []; label := [];
           outputs := []; loss := []; metrics := [];
           global_steps := Some gs; summary_op := None;
           summary_writer := None; compiled := false;
           unknown_args := kwargs;
           training_phase := tp; learning_rate := lr |}.

Definition new_SuperResolution := SuperResolution_init SuperResolutionClass None None.

Definition build_graph (self : loc) : M unit :=
  rgb ← get_attr self rgba;
  if negb rgb then
    x ← emit (Placeholder tf_uint8 (Some [None; None; None; Some 1])
                (Some "input/lr/gray"));
    _ ← modify_self self (set_inputs (λ l, l ++ [x]));
    xs ← get_attr self inputs;
    x ← index_last xs;
    y ← emit (Cast x tf_float32 (Some "cast/lr/gray_float"));
    modify_self self (set_inputs_preproc (λ l, l ++ [y]))
  else
    x ← emit (Placeholder tf_uint8 (Some [None; None; None; Some 4])
                (Some "input/lr/rgba"));
    _ ← modify_self self (set_inputs (λ l, l ++ [x]));
    xs ← get_attr self inputs;
    x ← index_last xs;
    yuv ← emit (Cast x tf_float32 None);
    yuv ← emit (DivScalar yuv (decimal 255 1));
    rgb ← emit (SliceLast yuv None (Some (-1)));
    yuv ← emit (RgbToYuv rgb);
    uv ← emit (SliceLast yuv (Some 1) None);
    _ ← modify_self self (set_inputs_preproc (λ l, l ++ [uv]));
    y ← emit (SliceLast yuv (Some 0) (Some 1));
    y ← emit (MulScalar y (decimal 255 1));
    modify_self self (set_inputs_preproc (λ l, l ++ [y])).

Definition not_implemented_message : string :=
  "DO NOT use base SuperResolution directly! Use inheritive models instead.".

Definition build_loss (self : loc) : M unit :=
  raise (NotImplementedError not_implemented_message).

Definition build_summary (self : loc) : M unit :=
  raise (NotImplementedError not_implemented_message).

(** *** [conv2d] *)

Record conv2d_options := {
  strides : Z * Z;
  padding : string;
  data_format : string;
  dilation_rate : Z * Z;
  activation : pyval;
  use_bias : bool;
  use_batchnorm : bool;
  kernel_initializer : pyval;
  kernel_regularizer : pyval;
  kwargs : list (string * pyval)
}.

Definition conv2d (self : loc) (x : handle) (filters kernel_size : Z)
    (o : conv2d_options) : M handle :=
  let ki := PyNone in
  ki ← (if isinstance_str (kernel_initializer o) then
          if py_eq (kernel_initializer o) (PyStr "he_normal")
          then mret (PyCallable he_normal)
          else mret ki
        else if is_callable (kernel_initializer o) then
          mret (kernel_initializer o)
        else if truthy (kernel_initializer o) then
          raise (ValueError "invalid kernel initializer!")
        else mret ki);
  let kr := PyNone in
  kr ← (if isinstance_str (kernel_regularizer o) then
          if py_eq (kernel_regularizer o) (PyStr "l1") then
            wd ← get_attr self weight_decay;
            if float_truthy wd then
              wd ← get_attr self weight_decay;
              mret (PyCallable (regularizers_l1 wd))
            else mret PyNone
          else if py_eq (kernel_regularizer o) (PyStr "l2") then
            wd ← get_attr self weight_decay;
            if float_truthy wd then
              wd ← get_attr self weight_decay;
              mret (PyCallable (regularizers_l2 wd))
            else mret PyNone
          else mret kr
        else if is_callable (kernel_regularizer o) then
          mret (kernel_regularizer o)
        else if truthy (kernel_regularizer o) then
          raise (ValueError "invalid kernel regularizer!")
        else mret kr);
  x ← tf_layers_conv2d x
        {| ca_filters := filters; ca_kernel_size := kernel_size;
           ca_strides := strides o; ca_padding := padding o;
           ca_data_format := data_format o;
           ca_dilation_rate := dilation_rate o;
           ca_activation := PyNone; ca_use_bias := use_bias o;
           ca_kernel_initializer := ki; ca_kernel_regularizer := kr;
           ca_kwargs := kwargs o |};
  x ← (if use_batchnorm o then
         tp ← get_attr self training_phase;
         emit (BatchNormalization x tp)
       else mret x);
  let activator := PyNone in
  if truthy (activation o) then
    activator ← (if isinstance_str (activation o) then
                   if py_eq (activation o) (PyStr "relu") then
                     mret (PyCallable nn_relu)
                   else if py_eq activator (PyStr "tanh") then
                     mret (PyCallable nn_tanh)
                   else mret activator
                 else if is_callable (activation o) then
                   mret (activation o)
                 else raise (ValueError "invalid activation!"));
    call activator x
  else mret x.

(** [conv2d] called with the three selection options and the defaults for
    everything else. *)
Definition conv2d_select (act ki kr : pyval) : conv2d_options :=
  {| strides := (1, 1); padding := "same"; data_format := "channels_last";
     dilation_rate := (1, 1); activation := act; use_bias := true;
     use_batchnorm := false; kernel_initializer := ki;
     kernel_regularizer := kr; kwargs := [] |}.

(** The defaults of the keyword arguments of [conv2d]. *)
Definition conv2d_defaults : conv2d_options :=
  {| strides := (1, 1); padding := "same"; data_format := "channels_last";
     dilation_rate := (1, 1); activation := PyNone; use_bias := true;
     use_batchnorm := false; kernel_initializer := PyNone;
     kernel_regularizer := PyNone; kwargs := [] |}.

(** *** Loops *)

(** The truth value of a list: non-empty. *)
Definition list_truthy {A : Type} (l : list A) : bool :=
  match l with [] => false | _ :: _ => true end.


Fixpoint for_each {A S : Type} (l : list A) (body : A → S → M S) (s : S)
    : M S :=
  match l with
  | [] => mret s
  | a :: l' => s' ← body a s; for_each l' body s'
  end.

(** [range(a, b)] *)
Definition py_range (a b : Z) : list Z :=
  (λ i : nat, a + Z.of_nat i) <$> seq 0 (Z.to_nat (b - a)).

(** ** [Espcn] *)

Definition Espcn_init (scale_arg : pyarg Z) (lay : Z) (nm : string)
    (wd : pyfloat) (rgb_input : bool) (kw : list (string * pyval)) : M loc :=
  SuperResolution_init EspcnClass (Some lay) (Some nm) scale_arg wd rgb_input kw.

(** An attribute that only a subclass sets. *)
Definition attribute {A : Type} (what : string) (o : option A) : M A :=
  match o with
  | Some a => mret a
  | None => raise (TypeError what)
  end.

(** The keyword arguments that [Espcn] passes to [tf.layers.conv2d]. *)
Definition espcn_conv (filters kernel_size : Z) (act : pyval)
    (l2_decay : pyfloat) : conv_args :=
  {| ca_filters := filters; ca_kernel_size := kernel_size;
     ca_strides := (1, 1); ca_padding := "same";
     ca_data_format := "channels_last"; ca_dilation_rate := (1, 1);
     ca_activation := act; ca_use_bias := true;
     ca_kernel_initializer := PyCallable he_normal;
     ca_kernel_regularizer := PyCallable (regularizers_l2 l2_decay);
     ca_kwargs := [] |}.

Definition Espcn_build_graph (self : loc) : M unit :=
  nm ← get_attr self name;
  nm ← attribute "name" nm;
  variable_scope nm (
    _ ← build_graph self;
    let l2_decay := decimal 1 10000 in
    xs ← get_attr self inputs_preproc;
    x ← index_last xs;
    x ← tf_layers_conv2d x (espcn_conv 64 5 (PyCallable nn_tanh) l2_decay);
    lay ← get_attr self layers;
    lay ← attribute "layers" lay;
    x ← for_each (py_range 1 (lay - 1))
          (λ _ x, tf_layers_conv2d x
                    (espcn_conv 32 3 (PyCallable nn_tanh) l2_decay)) x;
    sc ← get_attr self scale;
    s0 ← index sc 0;
    sc ← get_attr self scale;
    s1 ← index sc 1;
    x ← tf_layers_conv2d x (espcn_conv (s0 * s1) 3 PyNone l2_decay);
    sc ← get_attr self scale;
    x ← emit (PixelShift x sc 1);
    modify_self self (set_outputs (λ l, l ++ [x]))).

Definition dict_item {V : Type} (k : string) (d : list (string * V)) : M V :=
  match dict_get k d with
  | Some v => mret v
  | None => raise (KeyError k)
  end.

Definition Espcn_build_loss (self : loc) : M unit :=
  variable_scope "loss" (
    l ← emit (Placeholder tf_uint8 (Some [None; None; None; Some 1]) None);
    _ ← modify_self self (set_label (λ ls, ls ++ [l]));
    ls ← get_attr self label;
    l ← index_last ls;
    y_true ← emit (Cast l tf_float32 None);
    outs ← get_attr self outputs;
    y_pred ← index_last outs;
    mse ← emit (MeanSquaredError y_true y_pred);
    let tv_decay := decimal 1 10000 in
    tv ← emit (TotalVariation y_pred);
    tv ← emit (ReduceMean tv);
    tv_loss ← emit (MulScalar tv tv_decay);
    regs ← tf_losses_get_regularization_losses;
    reg ← tf_add_n regs;
    regular_loss ← emit (Add reg tv_loss);
    total ← emit (Add mse regular_loss);
    lr ← get_attr self learning_rate;
    gs ← get_attr self global_steps;
    step ← emit (AdamMinimize lr total gs);
    _ ← modify_self self (set_loss (λ ls, ls ++ [step]));
    _ ← modify_self self (set_metrics (dict_set "mse" mse));
    _ ← modify_self self (set_metrics (dict_set "regularization" regular_loss));
    psnr ← emit (Psnr y_true y_pred 255);
    _ ← modify_self self (set_metrics (dict_set "psnr" psnr));
    ssim ← emit (Ssim y_true y_pred 255);
    modify_self self (set_metrics (dict_set "ssim" ssim))).

Definition Espcn_build_summary (self : loc) : M unit :=
  ms ← get_attr self metrics;
  mse ← dict_item "mse" ms;
  _ ← tf_summary_scalar "loss/mse" mse;
  ms ← get_attr self metrics;
  reg ← dict_item "regularization" ms;
  _ ← tf_summary_scalar "loss/regularization" reg;
  ms ← get_attr self metrics;
  psnr ← dict_item "psnr" ms;
  psnr ← emit (ReduceMean psnr);
  _ ← tf_summary_scalar "psnr" psnr;
  ms ← get_attr self metrics;
  ssim ← dict_item "ssim" ms;
  ssim ← emit (ReduceMean ssim);
  _ ← tf_summary_scalar "ssim" ssim;
  mret ().

(** ** [compile] and method dispatch *)

Record class_def := {
  cd_build_graph : loc → M unit;
  cd_build_loss : loc → M unit;
  cd_build_summary : loc → M unit
}.

Definition methods (k : klass) : class_def :=
  match k with
  | SuperResolutionClass =>
      {| cd_build_graph := build_graph; cd_build_loss := build_loss;
         cd_build_summary := build_summary |}
  | EspcnClass =>
      {| cd_build_graph := Espcn_build_graph;
         cd_build_loss := Espcn_build_loss;
         cd_build_summary := Espcn_build_summary |}
  end.

(** [compile] of an object whose class provides the three build steps
    [c]. *)
Definition compile_with (c : class_def) (self : loc) : M loc :=
  _ ← cd_build_graph c self;
  _ ← cd_build_loss c self;
  _ ← cd_build_summary c self;
  s ← tf_summary_merge_all;
  _ ← modify_self self (set_summary_op s);
  _ ← modify_self self (set_compiled true);
  mret self.

Definition compile (self : loc) : M loc :=
  k ← get_attr self cls;
  compile_with (methods k) self.

(** ** Batched execution *)

(** [tf.get_default_session().run(fetches, feed_dict=feed_dict)].  With a
    session the engine is taken to hand back its values; an error raised
    inside the engine's own run is not part of this model. *)
Definition run (fetches : list handle) (fd : feed_dict) : M (list ndarray) := λ w,
  match default_session w with
  | None =>
      (Raise (AttributeError "'NoneType' object has no attribute 'run'"), w)
  | Some s =>
      let '(vals, s') := session_run s (graph w) fetches fd in
      (Ok vals, {| heap := heap w; graph := graph w;
                   default_session := Some s' |})
  end.

(** [tf.get_default_session().run], the method looked up on the default
    session: Python evaluates it before the arguments of the call, so
    without a session the [AttributeError] comes before any complaint
    about the fetches. *)
Definition session_run_method : M unit := λ w,
  match default_session w with
  | None =>
      (Raise (AttributeError "'NoneType' object has no attribute 'run'"), w)
  | Some _ => (Ok (), w)
  end.

(** [for i in range(len(field)): feed_dict[field[i]] = arrays[i]], with
    the field read from the object at every iteration. *)
Definition feed_arrays (self : loc) (field : SuperResolution → list handle)
    (arrays : list ndarray) (fd : feed_dict) : M feed_dict :=
  phs ← get_attr self field;
  for_each (seq 0 (length phs))
    (λ i fd,
       a ← index arrays i;
       phs ← get_attr self field;
       ph ← index phs i;
       mret (<[ph := FeedArray a]> fd)) fd.

(** [ret = {}; for k, v in zip(keys, vals): ret[k] = v] *)
Definition dict_of_zip {V : Type} (keys : list string) (vals : list V)
    : list (string * V) :=
  foldl (λ d kv, dict_set kv.1 kv.2 d) [] (zip keys vals).

Definition train_batch (self : loc) (feature label_arg : pyarg ndarray)
    (lr : pyfloat) : M (list (string * ndarray)) :=
  let feature := to_list feature 1 in
  let label_arg := to_list label_arg 1 in
  tp ← get_attr self training_phase;
  lr_ph ← get_attr self learning_rate;
  let fd : feed_dict :=
    <[lr_ph := FeedFloat lr]> (<[tp := FeedBool true]> ∅) in
  fd ← feed_arrays self inputs feature fd;
  fd ← feed_arrays self label label_arg fd;
  ms ← get_attr self metrics;
  ls ← get_attr self loss;
  vals ← run (dict_values ms ++ ls) fd;
  ms ← get_attr self metrics;
  mret (dict_of_zip (dict_keys ms) vals).

Definition validate_batch (self : loc) (feature label_arg : pyarg ndarray)
    : M (list (string * ndarray) * ndarray) :=
  let feature := to_list feature 1 in
  let label_arg := to_list label_arg 1 in
  tp ← get_attr self training_phase;
  let fd : feed_dict := <[tp := FeedBool false]> ∅ in
  fd ← feed_arrays self inputs feature fd;
  fd ← feed_arrays self label label_arg fd;
  _ ← session_run_method;
  ms ← get_attr self metrics;
  so ← get_attr self summary_op;
  so ← attribute "Fetch argument None has invalid type" so;
  vals ← run (dict_values ms ++ [so]) fd;
  ms ← get_attr self metrics;
  let ret := dict_of_zip (dict_keys ms) (take (length vals - 1) vals) in
  s ← index_last vals;
  mret (ret, s).

Definition test_batch (self : loc) (inputs_arg label_arg : pyarg ndarray)
    : M (list ndarray) :=
  let feature := to_list inputs_arg 1 in
  let label_arg := to_list label_arg 1 in
  tp ← get_attr self training_phase;
  let fd : feed_dict := <[tp := FeedBool false]> ∅ in
  fd ← feed_arrays self inputs feature fd;
  if list_truthy label_arg then
    fd ← feed_arrays self label label_arg fd;
    outs ← get_attr self outputs;
    ms ← get_attr self metrics;
    run (outs ++ dict_values ms) fd
  else
    outs ← get_attr self outputs;
    run outs fd.

End framework.

(** ** The value of the preprocessing at one pixel

    The nodes that [build_graph] creates act on each pixel separately.
    Their effect on the channel values of one pixel is computed over exact
    rationals; the conversion matrix is the kernel of TensorFlow's
    [tf.image.rgb_to_yuv] ([_rgb_to_yuv_kernel] of [image_ops_impl.py]),
    applied by a tensor product over the channel axis. *)

Abbreviation pixel := (list Qc).

Definition rgb_to_yuv_kernel : list (list pyfloat) :=
  [ [ decimal 299 1000; decimal (-14714119) 100000000;
      decimal 61497538 100000000 ];
    [ decimal 587 1000; decimal (-28886916) 100000000;
      decimal (-51496512) 100000000 ];
    [ decimal 114 1000; decimal 43601035 100000000;
      decimal (-10001026) 100000000 ] ].

(** [out[j] = sum over i of px[i] * kernel[i][j]] *)
Definition tensordot_last (px : pixel) (kernel : list (list pyfloat)) : pixel :=
  foldl (λ acc xr, zip_with Qcplus acc ((λ k, Qcmult xr.1 k) <$> xr.2))
        (replicate 3 0%Qc) (zip px kernel).

(** [l[lo:hi]], with Python's treatment of negative and missing bounds. *)
Definition slice_bound (n : nat) (default : nat) (b : option Z) : nat :=
  match b with
  | None => default
  | Some z => if z <? 0 then Z.to_nat (Z.max 0 (z + Z.of_nat n))
              else Nat.min (Z.to_nat z) n
  end.

Definition py_slice {A : Type} (lo hi : option Z) (l : list A) : list A :=
  let n := length l in
  let a := slice_bound n 0 lo in
  let b := slice_bound n n hi in
  take (b - a) (drop a l).

Definition value_of (vals : list (option pixel)) (x : handle) : option pixel :=
  match vals !! x with
  | Some (Some px) => Some px
  | _ => None
  end.

Definition node_value (vals : list (option pixel)) (feed : gmap handle pixel)
    (h : handle) (op : tfop) : option pixel :=
  match op with
  | Placeholder _ _ _ => feed !! h
  | Cast x _ _ => value_of vals x
  | DivScalar x c => fmap (M:=list) (λ v, Qcdiv v c) <$> value_of vals x
  | MulScalar x c => fmap (M:=list) (λ v, Qcmult v c) <$> value_of vals x
  | RgbToYuv x =>
      px ← value_of vals x;
      if Nat.eqb (length px) 3
      then Some (tensordot_last px rgb_to_yuv_kernel) else None
  | SliceLast x lo hi => py_slice lo hi <$> value_of vals x
  | _ => None
  end.

(** The nodes are evaluated in the order of their creation, so the
    operands of a node have their values when it is reached. *)
Definition pixel_values (g : tfgraph) (feed : gmap handle pixel)
    : list (option pixel) :=
  foldl (λ vals nd, vals ++ [node_value vals feed (length vals) nd.2])
        [] (nodes g).

Definition pixel_at (g : tfgraph) (feed : gmap handle pixel) (h : handle)
    : option pixel :=
  value_of (pixel_values g feed) h.

(** *** Any arithmetic

    TensorFlow computes these nodes in [float32]: each result is a
    rational, but a rounded one.  Here the division and the multiplication
    by a scalar and the colour conversion are left open; the exact ones
    above are one instance.  The cast of an unsigned byte to [float32] and
    the slices are exact in any case. *)

Record pixel_arith := {
  pa_div : Qc → pyfloat → Qc;
  pa_mul : Qc → pyfloat → Qc;
  pa_rgb_to_yuv : pixel → pixel
}.

Definition exact_arith : pixel_arith :=
  {| pa_div := Qcdiv; pa_mul := Qcmult;
     pa_rgb_to_yuv := λ px, tensordot_last px rgb_to_yuv_kernel |}.

Definition node_value_in (A : pixel_arith) (vals : list (option pixel))
    (feed : gmap handle pixel) (h : handle) (op : tfop) : option pixel :=
  match op with
  | Placeholder _ _ _ => feed !! h
  | Cast x _ _ => value_of vals x
  | DivScalar x c => fmap (M:=list) (λ v, pa_div A v c) <$> value_of vals x
  | MulScalar x c => fmap (M:=list) (λ v, pa_mul A v c) <$> value_of vals x
  | RgbToYuv x =>
      px ← value_of vals x;
      if Nat.eqb (length px) 3 then Some (pa_rgb_to_yuv A px) else None
  | SliceLast x lo hi => py_slice lo hi <$> value_of vals x
  | _ => None
  end.

Definition pixel_values_in (A : pixel_arith) (g : tfgraph)
    (feed : gmap handle pixel) : list (option pixel) :=
  foldl (λ vals nd, vals ++ [node_value_in A vals feed (length vals) nd.2])
        [] (nodes g).

Definition pixel_at_in (A : pixel_arith) (g : tfgraph)
    (feed : gmap handle pixel) (h : handle) : option pixel :=
  value_of (pixel_values_in A g feed) h.

(** ** A runtime to compute with

    Each fetch evaluates to its handle and the number of runs made before;
    every run advances the counter. *)
Definition counting_run (s : nat) (g : tfgraph) (fetches : list handle)
    (fd : gmap handle (feedval (list Z))) : list (list Z) * nat :=
  ((λ h : handle, [Z.of_nat h; Z.of_nat s]) <$> fetches, S s).

Definition counting_runtime : TFRuntime :=
  {| ndarray := list Z; session := nat; session_run := counting_run;
     session_run_length := λ s g fetches fd, length_fmap _ fetches |}.

Definition initial_world `{RT : TFRuntime} (s : option session) : world :=
  {| heap := ∅; graph := empty_graph; default_session := s |}.

(** ** The vocabulary of the statements *)

Section vocabulary.
Context `{RT : TFRuntime}.
Implicit Types (w : world) (self : loc) (m : SuperResolution).

(** The world in which the object at [self] is [m]. *)
Definition set_obj self m w : world :=
  {| heap := <[self := m]> (heap w); graph := graph w;
     default_session := default_session w |}.

(** Every run of [c] ends in a world related to the one it started in. *)
Definition steps (R : relation world) {A : Type} (c : M A) : Prop :=
  ∀ w, R w (c w).2.

(** Neither the heap nor the graph has changed. *)
Definition same_model : relation world :=
  λ w w', heap w' = heap w ∧ graph w' = graph w.

(** The heap has not changed. *)
Definition same_heap : relation world := λ w w', heap w' = heap w.

(** The compiled flag of every object is as it was. *)
Definition keeps_compiled : relation world := λ w w',
  ∀ l, compiled <$> heap w' !! l = compiled <$> heap w !! l.

(** From [w] to [w'] the graph only grew, by nodes that satisfy [P]. *)
Definition adds (P : tfop → Prop) : relation world := λ w w',
  ∃ added, nodes (graph w') = nodes (graph w) ++ added ∧
           Forall (λ n, P n.2) added.

(** The graph with the nodes [ops] added in order. *)
Definition add_nodes (ops : list tfop) (g : tfgraph) : tfgraph :=
  foldl (λ g op, add_node op g) g ops.

(** Any node but an application of [tf.nn.tanh]. *)
Definition not_tanh_call (op : tfop) : Prop := ∀ y, op ≠ Call nn_tanh y.

(** The two input placeholders of [build_graph]. *)
Definition gray_placeholder : tfop :=
  Placeholder tf_uint8 (Some [None; None; None; Some 1]) (Some "input/lr/gray").
Definition rgba_placeholder : tfop :=
  Placeholder tf_uint8 (Some [None; None; None; Some 4]) (Some "input/lr/rgba").

(** The eight nodes of the RGBA branch, for a placeholder at handle [n]. *)
Definition rgba_nodes (n : handle) : list tfop :=
  [ rgba_placeholder;
    Cast n tf_float32 None;
    DivScalar (1 + n)%nat (decimal 255 1);
    SliceLast (2 + n)%nat None (Some (-1));
    RgbToYuv (3 + n)%nat;
    SliceLast (4 + n)%nat (Some 1) None;
    SliceLast (4 + n)%nat (Some 0) (Some 1);
    MulScalar (6 + n)%nat (decimal 255 1) ].

(** The feed dictionary after binding the arrays to the placeholders, in
    order. *)
Definition feed_all (phs : list handle) (arrays : list ndarray)
    (fd : feed_dict) : feed_dict :=
  foldl (λ fd pa, <[pa.1 := FeedArray pa.2]> fd) fd (zip phs arrays).

(** The world with the weight decay of every model replaced by [q]. *)
Definition reweigh (q : pyfloat) (w : world) : world :=
  {| heap := set_weight_decay q <$> heap w; graph := graph w;
     default_session := default_session w |}.

(** [c] runs in the same way whatever the weight decay of the models. *)
Definition ignores_weight_decay {A : Type} (c : M A) : Prop :=
  ∀ q w, c (reweigh q w) = ((c w).1, reweigh q (c w).2).

(** [Espcn(scale, layers, name, weight_decay=wd, rgb_input=rgb).compile()] *)
Definition Espcn_compiled (scale_arg : pyarg Z) (lay : Z) (nm : string)
    (wd : pyfloat) (rgb_input : bool) (kw : list (string * pyval)) : M loc :=
  self ← Espcn_init scale_arg lay nm wd rgb_input kw;
  compile self.

(** The two literals [1e-4] of [Espcn]. *)
Definition l2_decay_literal : pyfloat := decimal 1 10000.
Definition tv_decay_literal : pyfloat := decimal 1 10000.

(** A convolution layer carries the L2 regularizer with the fixed decay,
    and so does its penalty. *)
Definition l2_regularized (op : tfop) : Prop :=
  match op with
  | Conv2D _ a =>
      ca_kernel_regularizer a = PyCallable (regularizers_l2 l2_decay_literal)
  | RegularizationLoss r _ => r = regularizers_l2 l2_decay_literal
  | _ => True
  end.

(** A multiplication by a scalar uses the fixed total-variation decay. *)
Definition tv_scaled (op : tfop) : Prop :=
  match op with
  | MulScalar _ c => c = tv_decay_literal
  | _ => True
  end.

(** The twelve nodes of [Espcn.build_loss], the first at handle [n]. *)
Definition Espcn_loss_ops (n y_pred lr : handle) (gs : option handle)
    (regs : list handle) : list tfop :=
  [ Placeholder tf_uint8 (Some [None; None; None; Some 1]) None;
    Cast n tf_float32 None;
    MeanSquaredError (1 + n)%nat y_pred;
    TotalVariation y_pred;
    ReduceMean (3 + n)%nat;
    MulScalar (4 + n)%nat tv_decay_literal;
    AddN regs;
    Add (6 + n)%nat (5 + n)%nat;
    Add (2 + n)%nat (7 + n)%nat;
    AdamMinimize lr (8 + n)%nat gs;
    Psnr (1 + n)%nat y_pred 255;
    Ssim (1 + n)%nat y_pred 255 ].

(** A base-class model in RGBA mode after [build_graph]. *)
Definition rgba_model : M loc :=
  self ← new_SuperResolution (ArgOne 2) default_weight_decay true [];
  _ ← build_graph self;
  mret self.

(** The pixel of full red, as unsigned 8-bit RGBA. *)
Definition red_pixel : pixel := [Q2Qc 255; Q2Qc 0; Q2Qc 0; Q2Qc 255].

End vocabulary.

(** ** Further vocabulary *)

Section more_vocabulary.
Context `{RT : TFRuntime}.
Implicit Types (w : world) (self : loc) (m : SuperResolution).

(** The arguments that [conv2d] hands to [tf.layers.conv2d] once the
    initializer [ki] and the regularizer [kr] are resolved. *)
Definition conv2d_layer_args (filters kernel_size : Z) (o : conv2d_options)
    (ki kr : pyval) : conv_args :=
  {| ca_filters := filters; ca_kernel_size := kernel_size;
     ca_strides := strides o; ca_padding := padding o;
     ca_data_format := data_format o; ca_dilation_rate := dilation_rate o;
     ca_activation := PyNone; ca_use_bias := use_bias o;
     ca_kernel_initializer := ki; ca_kernel_regularizer := kr;
     ca_kwargs := kwargs o |}.

(** [__getattr__]: the fallback for a name that is not an attribute of the
    object, [self.unknown_args.get(item)]. *)
Definition getattr_fallback (self : loc) (item : string) : M (option pyval) :=
  kw ← get_attr self unknown_args;
  mret (dict_get item kw).

(** The world after one [tf.layers.conv2d] with the regularizer [r]. *)
Definition conv_layer (x : handle) (a : conv_args) (r : callable) w : world :=
  let n := length (nodes (graph w)) in
  with_graph (add_regularization_loss (S n))
    (with_graph (add_node (RegularizationLoss r n))
       (with_graph (add_node (Conv2D x a)) w)).

(** The last handle and the world after [k] such layers in a row, the
    first on [x], each on the one before. *)
Fixpoint conv_stack (k : nat) (a : conv_args) (r : callable) (x : handle) w
    : handle * world :=
  match k with
  | O => (x, w)
  | S k' => conv_stack k' a r (length (nodes (graph w))) (conv_layer x a r w)
  end.

(** [w'] has the session and the summaries of [w], and its graph has the
    nodes of [w] followed by [k] more, and the regularization losses of
    [w] followed by [r] more. *)
Definition extends (k r : nat) w w' : Prop :=
  default_session w' = default_session w ∧
  summaries (graph w') = summaries (graph w) ∧
  (∃ added, nodes (graph w') = nodes (graph w) ++ added ∧ length added = k) ∧
  (∃ rl, regularization_losses (graph w')
           = regularization_losses (graph w) ++ rl ∧ length rl = r).

(** The number of convolution layers of an [Espcn] with [lay] layers. *)
Definition espcn_conv_layers (lay : Z) : nat := (2 + Z.to_nat (lay - 2))%nat.

(** The world after [Espcn.build_summary], when the four metrics are
    [mse], [reg], [psnr] and [ssim]: six nodes, four of them summaries. *)
Definition summary_world (mse reg psnr ssim : handle) w : world :=
  let n := length (nodes (graph w)) in
  with_graph (add_summary (5 + n))
    (with_graph (add_node (SummaryScalar "ssim" (4 + n)))
       (with_graph (add_node (ReduceMean ssim))
          (with_graph (add_summary (3 + n))
             (with_graph (add_node (SummaryScalar "psnr" (2 + n)))
                (with_graph (add_node (ReduceMean psnr))
                   (with_graph (add_summary (1 + n))
                      (with_graph
                         (add_node (SummaryScalar "loss/regularization" reg))
                         (with_graph (add_summary n)
                            (with_graph
                               (add_node (SummaryScalar "loss/mse" mse))
                               w)))))))))%nat.

(** The object that the constructor creates when the graph has [n] nodes:
    the global step, the training-phase placeholder and the learning-rate
    placeholder become the nodes [n], [n + 1] and [n + 2]. *)
Definition constructed_object (c : klass) (lay : option Z)
    (nm : option string) (sc : list Z) (wd : pyfloat) (rgb_input : bool)
    (kw : list (string * pyval)) (n : handle) : SuperResolution :=
  {| cls := c; layers := lay; name := nm; scale := sc;
     weight_decay := wd; rgba := rgb_input;
     trainable_weights := []; bias := []; inputs := [];
     inputs_preproc := []; label := []; outputs := []; loss := [];
     metrics := []; global_steps := Some n; summary_op := None;
     summary_writer := None; compiled := false; unknown_args := kw;
     training_phase := S n; learning_rate := S (S n) |}.

(** The four metric names of [Espcn], in the order [build_loss] sets them. *)
Definition espcn_metric_names : list string :=
  ["mse"; "regularization"; "psnr"; "ssim"].

End more_vocabulary.

(** ** Concrete models

    An [Espcn] of scale 3 with three layers on grayscale input, and a model
    of the base class, both in the world of the counting runtime. *)

Definition new_world : @world counting_runtime :=
  @initial_world counting_runtime (Some 0%nat).

Definition espcn_constructed_world : @world counting_runtime :=
  (@Espcn_init counting_runtime (ArgOne 3) 3 "espcn" default_weight_decay
     false [] new_world).2.

Definition espcn_constructed : SuperResolution :=
  {| cls := EspcnClass; layers := Some 3; name := Some "espcn";
     scale := [3; 3]; weight_decay := default_weight_decay; rgba := false;
     trainable_weights := []; bias := []; inputs := [];
     inputs_preproc := []; label := []; outputs := []; loss := [];
     metrics := []; global_steps := Some 0%nat; summary_op := None;
     summary_writer := None; compiled := false; unknown_args := [];
     training_phase := 1%nat; learning_rate := 2%nat |}.

Definition object_at `{RT : TFRuntime} (self : loc) (w : world)
    : SuperResolution :=
  default espcn_constructed (heap w !! self).

Definition espcn_graph_world : @world counting_runtime :=
  (@Espcn_build_graph counting_runtime 0%nat espcn_constructed_world).2.

Definition espcn_world : @world counting_runtime :=
  (@compile counting_runtime 0%nat espcn_constructed_world).2.

Definition base_world : @world counting_runtime :=
  (@new_SuperResolution counting_runtime (ArgOne 2) default_weight_decay
     false [] new_world).2.

(** [conv2d] called with batch normalization and an activation, the
    defaults for everything else. *)
Definition conv2d_batchnorm (act : pyval) : conv2d_options :=
  {| strides := (1, 1); padding := "same"; data_format := "channels_last";
     dilation_rate := (1, 1); activation := act; use_bias := true;
     use_batchnorm := true; kernel_initializer := PyNone;
     kernel_regularizer := PyNone; kwargs := [] |}.



(** A model of the base class in RGBA mode, before [build_graph]. *)
Definition rgba_world : @world counting_runtime :=
  (@new_SuperResolution counting_runtime (ArgOne 2) default_weight_decay
     true [] new_world).2.

(** * Properties *)

Section proofs.
Context `{RT : TFRuntime}.
Implicit Types (w : world) (self : loc) (m : SuperResolution) (g : tfgraph).

(** ** Running a computation step by step *)

Lemma bind_ok {A B : Type} (c : M A) (f : A → M B) w a w' :
  c w = (Ok a, w') → (c ≫= f) w = f a w'.
Proof. intros E. unfold mbind, M_bind. by rewrite E. Qed.

Lemma bind_raise {A B : Type} (c : M A) (f : A → M B) w e w' :
  c w = (Raise e, w') → (c ≫= f) w = (Raise e, w').
Proof. intros E. unfold mbind, M_bind. by rewrite E. Qed.

Lemma bind_inv_ok {A B : Type} (c : M A) (f : A → M B) w b w' :
  (c ≫= f) w = (Ok b, w') →
  ∃ a w1, c w = (Ok a, w1) ∧ f a w1 = (Ok b, w').
Proof.
  unfold mbind, M_bind. destruct (c w) as [[a|e] w1]; [eauto | discriminate].
Qed.

Lemma get_attr_eq {A : Type} self (field : SuperResolution → A) w m :
  heap w !! self = Some m → get_attr self field w = (Ok (field m), w).
Proof. intros E. unfold get_attr. by rewrite E. Qed.

Lemma modify_self_eq self f w m :
  heap w !! self = Some m →
  modify_self self f w = (Ok (), set_obj self (f m) w).
Proof. intros E. unfold modify_self. by rewrite E. Qed.

Lemma heap_set_obj self m w : heap (set_obj self m w) !! self = Some m.
Proof. apply lookup_insert_eq. Qed.

Lemma set_obj_twice self m1 m2 w :
  set_obj self m2 (set_obj self m1 w) = set_obj self m2 w.
Proof. unfold set_obj. simpl. by rewrite insert_insert_eq. Qed.

Lemma index_ok {A : Type} (l : list A) i x w :
  l !! i = Some x → index l i w = (Ok x, w).
Proof. intros E. unfold index. by rewrite E. Qed.

Lemma index_last_ok {A : Type} (l : list A) x w :
  list.last l = Some x → index_last l w = (Ok x, w).
Proof. intros E. unfold index_last. by rewrite E. Qed.

Lemma last_snoc_ok {A : Type} (l : list A) (x : A) w :
  index_last (l ++ [x]) w = (Ok x, w).
Proof. unfold index_last. by rewrite last_snoc. Qed.

(** ** Effects that stay within a preorder of worlds *)

Section steps.
Context (R : relation world) `{!PreOrder R}.

Lemma steps_ret {A : Type} (a : A) : steps R (mret a).
Proof. intros w. reflexivity. Qed.

Lemma steps_raise {A : Type} e : steps R (raise e : M A).
Proof. intros w. reflexivity. Qed.

Lemma steps_bind {A B : Type} (c : M A) (f : A → M B) :
  steps R c → (∀ a, steps R (f a)) → steps R (c ≫= f).
Proof.
  intros Hc Hf w. unfold mbind, M_bind. specialize (Hc w).
  destruct (c w) as [[a|e] w1]; simpl in *; [|done].
  by etrans; [|apply Hf].
Qed.

Lemma steps_get_attr {A : Type} self (field : SuperResolution → A) :
  steps R (get_attr self field).
Proof. intros w. unfold get_attr. by destruct (heap w !! self). Qed.

Lemma steps_index {A : Type} (l : list A) i : steps R (index l i).
Proof. intros w. unfold index. by destruct (l !! i). Qed.

Lemma steps_index_last {A : Type} (l : list A) : steps R (index_last l).
Proof. intros w. unfold index_last. by destruct (list.last l). Qed.

Lemma steps_attribute {A : Type} what (o : option A) :
  steps R (attribute what o).
Proof. intros w. by destruct o. Qed.

Lemma steps_dict_item {V : Type} k (d : list (string * V)) :
  steps R (dict_item k d).
Proof. intros w. unfold dict_item. by destruct (dict_get k d). Qed.

Lemma steps_regularization_losses :
  steps R tf_losses_get_regularization_losses.
Proof. intros w. reflexivity. Qed.

Lemma steps_for_each {A S : Type} (l : list A) (body : A → S → M S) s :
  (∀ a s, steps R (body a s)) → steps R (for_each l body s).
Proof.
  intros Hb. revert s. induction l as [|a l IH]; intros s; simpl.
  - apply steps_ret.
  - apply steps_bind; [apply Hb | apply IH].
Qed.
End steps.

Ltac steps_primitive :=
  first
    [ apply steps_ret | apply steps_raise | apply steps_get_attr
    | apply steps_index | apply steps_index_last | apply steps_attribute
    | apply steps_dict_item | apply steps_regularization_losses ].

Ltac steps_go tac :=
  repeat first
    [ progress intros
    | match goal with |- PreOrder _ => apply _ end
    | steps_primitive
    | tac
    | apply steps_bind
    | apply steps_for_each
    | match goal with
      | |- steps _ (if ?b then _ else _) => destruct b
      | |- steps _ (match ?x with _ => _ end) => destruct x
      end ].

(** ** The batched methods leave the model alone *)

Global Instance same_model_preorder : PreOrder same_model.
Proof.
  split.
  - by intros w.
  - intros w1 w2 w3 [H1 G1] [H2 G2]. split; congruence.
Qed.

Lemma run_same_model fetches fd : steps same_model (run fetches fd).
Proof.
  intros w. unfold run. destruct (default_session w) as [s|]; [|done].
  by destruct (session_run s (graph w) fetches fd).
Qed.

Lemma session_run_method_same_model : steps same_model session_run_method.
Proof.
  intros w. unfold session_run_method. by destruct (default_session w).
Qed.

Lemma feed_arrays_same_model self field arrays fd :
  steps same_model (feed_arrays self field arrays fd).
Proof. unfold feed_arrays. steps_go fail. Qed.

Lemma train_batch_same_model self feature label_arg lr :
  steps same_model (train_batch self feature label_arg lr).
Proof.
  unfold train_batch.
  steps_go ltac:(first [apply run_same_model | apply feed_arrays_same_model]).
Qed.

Lemma validate_batch_same_model self feature label_arg :
  steps same_model (validate_batch self feature label_arg).
Proof.
  unfold validate_batch.
  steps_go ltac:(first [ apply run_same_model | apply feed_arrays_same_model
                       | apply session_run_method_same_model ]).
Qed.

Lemma test_batch_same_model self inputs_arg label_arg :
  steps same_model (test_batch self inputs_arg label_arg).
Proof.
  unfold test_batch.
  steps_go ltac:(first [apply run_same_model | apply feed_arrays_same_model]).
Qed.

(** C10: [train_batch], [validate_batch] and [test_batch] leave every
    object of the heap, hence every attribute of the model ([inputs],
    [inputs_preproc], [label], [outputs], [loss], [metrics], [compiled],
    [scale], [weight_decay] and the others), and the graph as they were,
    whether the call returns or raises; only the session moves on. *)
Theorem batch_methods_leave_model_unchanged
    self (feature label_arg : pyarg ndarray) lr w :
  (heap (train_batch self feature label_arg lr w).2 = heap w ∧
   graph (train_batch self feature label_arg lr w).2 = graph w) ∧
  (heap (validate_batch self feature label_arg w).2 = heap w ∧
   graph (validate_batch self feature label_arg w).2 = graph w) ∧
  (heap (test_batch self feature label_arg w).2 = heap w ∧
   graph (test_batch self feature label_arg w).2 = graph w).
Proof.
  split; [|split].
  - apply train_batch_same_model.
  - apply validate_batch_same_model.
  - apply test_batch_same_model.
Qed.

(** ** What a method adds to the graph *)

Global Instance adds_preorder P : PreOrder (adds P).
Proof.
  split.
  - intros w. exists []. by rewrite app_nil_r.
  - intros w1 w2 w3 (a1 & E1 & F1) (a2 & E2 & F2). exists (a1 ++ a2).
    split; [by rewrite E2, E1, app_assoc | by apply Forall_app].
Qed.

Lemma adds_same_graph P w w' : graph w' = graph w → adds P w w'.
Proof. intros E. exists []. by rewrite E, app_nil_r. Qed.

Lemma emit_adds (P : tfop → Prop) op : P op → steps (adds P) (emit op).
Proof.
  intros HP w. exists [(scopes (graph w), op)]. split; [done|].
  by apply Forall_singleton.
Qed.

Lemma modify_self_adds P self f : steps (adds P) (modify_self self f).
Proof.
  intros w. unfold modify_self.
  by destruct (heap w !! self); apply adds_same_graph.
Qed.

Lemma tf_layers_conv2d_adds (P : tfop → Prop) x a :
  P (Conv2D x a) → (∀ r y, P (RegularizationLoss r y)) →
  steps (adds P) (tf_layers_conv2d x a).
Proof.
  intros H1 H2. unfold tf_layers_conv2d.
  steps_go ltac:(first [by apply emit_adds | by apply adds_same_graph]).
Qed.

Lemma variable_scope_adds {A : Type} P nm (body : M A) :
  steps (adds P) body → steps (adds P) (variable_scope nm body).
Proof.
  intros Hb w. unfold variable_scope.
  specialize (Hb (with_graph (set_scopes (scopes (graph w) ++ [nm])) w)).
  destruct (body _) as [r w1]. exact Hb.
Qed.

(** ** [conv2d] *)

Lemma py_eq_str s t : py_eq (PyStr s) (PyStr t) = String.eqb s t.
Proof.
  unfold py_eq. destruct (String.eqb_spec s t) as [->|Hne].
  - by rewrite bool_decide_eq_true_2.
  - rewrite bool_decide_eq_false_2; [done|]. intros [=]. done.
Qed.

Lemma bind_fails {A B : Type} (c : M A) (f : A → M B) :
  (∀ a w, ∃ e, (f a w).1 = Raise e) → ∀ w, ∃ e, ((c ≫= f) w).1 = Raise e.
Proof.
  intros Hf w. unfold mbind, M_bind.
  destruct (c w) as [[a|e] w1]; [apply Hf | by exists e].
Qed.

(** C2: when [activation] is the string ['tanh'], the comparison that
    guards the tanh branch looks at [activator], which is still [None];
    the branch is not taken, [tf.nn.tanh] is neither selected nor added
    to the graph, and the call ends in an exception (calling [None] when
    the earlier options were accepted). *)
Theorem conv2d_tanh_branch_unreachable self x filters kernel_size o w :
  activation o = PyStr "tanh" →
  (∃ e, (conv2d self x filters kernel_size o w).1 = Raise e) ∧
  adds not_tanh_call w (conv2d self x filters kernel_size o w).2 ∧
  (kernel_initializer o = PyNone → kernel_regularizer o = PyNone →
   use_batchnorm o = false →
   (conv2d self x filters kernel_size o w).1 =
     Raise (TypeError "'NoneType' object is not callable")).
Proof.
  intros Hact. split; [|split].
  - revert w. unfold conv2d. rewrite Hact. simpl truthy. cbv iota.
    simpl isinstance_str. cbv iota. rewrite py_eq_str. simpl String.eqb.
    cbv iota.
    replace (py_eq PyNone (PyStr "tanh")) with false by done. cbv iota.
    do 4 (apply bind_fails; intros ? ?).
    by eexists.
  - revert w. change (steps (adds not_tanh_call)
                        (conv2d self x filters kernel_size o)).
    unfold conv2d. rewrite Hact. simpl truthy. cbv iota.
    simpl isinstance_str. cbv iota. rewrite py_eq_str. simpl String.eqb.
    cbv iota.
    replace (py_eq PyNone (PyStr "tanh")) with false by done. cbv iota.
    steps_go ltac:(first
      [ apply modify_self_adds
      | apply tf_layers_conv2d_adds; [by intros ? | by intros ? ? ?]
      | apply emit_adds; by intros ? ]).
  - intros Hki Hkr Hbn. unfold conv2d. rewrite Hact, Hki, Hkr, Hbn.
    reflexivity.
Qed.

(** C1 (the code departs from the claim): an unrecognized string is not
    refused.  With ['glorot_uniform'] as initializer or ['l3'] as
    regularizer the layer is built with no initializer, respectively no
    regularizer, and the call returns; with ['sigmoid'] as activation the
    layer is built first and the call then ends in a [TypeError], not in a
    validation error. *)
Theorem conv2d_unrecognized_strings self x w :
  conv2d self x 64 3 (conv2d_select PyNone (PyStr "glorot_uniform") PyNone) w
    = (Ok (length (nodes (graph w))),
       with_graph (add_node (Conv2D x
         {| ca_filters := 64; ca_kernel_size := 3; ca_strides := (1, 1);
            ca_padding := "same"; ca_data_format := "channels_last";
            ca_dilation_rate := (1, 1); ca_activation := PyNone;
            ca_use_bias := true; ca_kernel_initializer := PyNone;
            ca_kernel_regularizer := PyNone; ca_kwargs := [] |})) w) ∧
  conv2d self x 64 3 (conv2d_select PyNone PyNone (PyStr "l3")) w
    = (Ok (length (nodes (graph w))),
       with_graph (add_node (Conv2D x
         {| ca_filters := 64; ca_kernel_size := 3; ca_strides := (1, 1);
            ca_padding := "same"; ca_data_format := "channels_last";
            ca_dilation_rate := (1, 1); ca_activation := PyNone;
            ca_use_bias := true; ca_kernel_initializer := PyNone;
            ca_kernel_regularizer := PyNone; ca_kwargs := [] |})) w) ∧
  conv2d self x 64 3 (conv2d_select (PyStr "sigmoid") PyNone PyNone) w
    = (Raise (TypeError "'NoneType' object is not callable"),
       with_graph (add_node (Conv2D x
         {| ca_filters := 64; ca_kernel_size := 3; ca_strides := (1, 1);
            ca_padding := "same"; ca_data_format := "channels_last";
            ca_dilation_rate := (1, 1); ca_activation := PyNone;
            ca_use_bias := true; ca_kernel_initializer := PyNone;
            ca_kernel_regularizer := PyNone; ca_kwargs := [] |})) w).
Proof. repeat split. Qed.

(** ** The constructor *)

Lemma SuperResolution_init_eq c lay nm scale_arg wd rgb_input kw w :
  ∃ self m w',
    SuperResolution_init c lay nm scale_arg wd rgb_input kw w = (Ok self, w') ∧
    heap w !! self = None ∧
    heap w' = <[self := m]> (heap w) ∧
    cls m = c ∧ scale m = to_list scale_arg 2 ∧ weight_decay m = wd ∧
    rgba m = rgb_input ∧ compiled m = false ∧
    inputs m = [] ∧ inputs_preproc m = [] ∧ label m = [] ∧
    outputs m = [] ∧ loss m = [] ∧ metrics m = [].
Proof.
  eexists _, _, _. split; [reflexivity|]. split.
  - simpl. apply (not_elem_of_dom (D := gset loc)), is_fresh.
  - simpl. repeat split.
Qed.

(** C5: a scale given as the single integer [s] is stored as [[s; s]], and
    a scale given as two integers is stored as it is. *)
Theorem scale_is_normalised c lay nm wd rgb_input kw w :
  (∀ s : Z, ∃ self w',
     SuperResolution_init c lay nm (ArgOne s) wd rgb_input kw w
       = (Ok self, w') ∧
     scale <$> heap w' !! self = Some [s; s]) ∧
  (∀ a b : Z, ∃ self w',
     SuperResolution_init c lay nm (ArgSeq [a; b]) wd rgb_input kw w
       = (Ok self, w') ∧
     scale <$> heap w' !! self = Some [a; b]).
Proof.
  split; intros.
  - destruct (SuperResolution_init_eq c lay nm (ArgOne s) wd rgb_input kw w)
      as (self & m & w' & E & _ & Hh & _ & Hs & _).
    exists self, w'. split; [done|].
    rewrite Hh, lookup_insert_eq. simpl. by rewrite Hs.
  - destruct (SuperResolution_init_eq c lay nm (ArgSeq [a; b]) wd rgb_input
                kw w) as (self & m & w' & E & _ & Hh & _ & Hs & _).
    exists self, w'. split; [done|].
    rewrite Hh, lookup_insert_eq. simpl. by rewrite Hs.
Qed.

(** ** [build_graph] of the base class *)

Lemma world_eq w1 w2 :
  heap w1 = heap w2 → graph w1 = graph w2 →
  default_session w1 = default_session w2 → w1 = w2.
Proof. destruct w1, w2. simpl. by intros -> -> ->. Qed.

Lemma ops_add_node op g : (nodes (add_node op g)).*2 = (nodes g).*2 ++ [op].
Proof. cbn [nodes add_node]. by rewrite fmap_app. Qed.

Lemma nodes_set_scopes sc g : nodes (set_scopes sc g) = nodes g.
Proof. done. Qed.

Ltac world_fields := cbn [heap graph default_session with_graph set_obj].

Lemma emit_eq op w h :
  length (nodes (graph w)) = h →
  emit op w = (Ok h, with_graph (add_node op) w).
Proof. by intros <-. Qed.

Lemma count_add_node op w :
  length (nodes (graph (with_graph (add_node op) w)))
    = S (length (nodes (graph w))).
Proof. cbn. rewrite length_app. cbn. lia. Qed.

(** The number of nodes of a world built from [w] step by step. *)
Ltac node_count w :=
  lazymatch w with
  | with_graph (add_node _) ?w' =>
      let n := node_count w' in constr:(S n)
  | with_graph _ ?w' => node_count w'
  | set_obj _ _ ?w' => node_count w'
  | _ => constr:(length (nodes (graph w)))
  end.

Ltac count_nodes :=
  repeat first
    [ rewrite count_add_node
    | progress change (length (nodes (graph (set_obj ?s ?m ?w))))
        with (length (nodes (graph w)))
    | progress change (length (nodes (graph (with_graph (set_scopes ?s) ?w))))
        with (length (nodes (graph w)))
    | progress change
        (length (nodes (graph (with_graph (add_regularization_loss ?s) ?w))))
        with (length (nodes (graph w)))
    | progress change (length (nodes (graph (with_graph (add_summary ?s) ?w))))
        with (length (nodes (graph w))) ];
  reflexivity.

Ltac heap_lookup :=
  cbn [heap with_graph set_obj];
  first [ eassumption | apply lookup_insert_eq ].

Ltac exec_step :=
  match goal with
  | |- context [ mbind ?k (get_attr ?self ?f) ?w ] =>
      let H := fresh in
      eassert (heap w !! self = Some _) as H by heap_lookup;
      lazymatch type of H with
      | _ = Some ?m =>
          let v := eval cbn in (f m) in
          rewrite (bind_ok (get_attr self f) k w v w)
            by exact (get_attr_eq self f w m H)
      end; clear H
  | |- context [ mbind ?k (modify_self ?self ?f) ?w ] =>
      erewrite (bind_ok (modify_self self f) k w)
        by (apply modify_self_eq; heap_lookup)
  | |- context [ mbind ?k (emit ?op) ?w ] =>
      let h := node_count w in
      rewrite (bind_ok (emit op) k w h (with_graph (add_node op) w))
        by (apply emit_eq; count_nodes)
  | |- context [ mbind ?k (index_last ?l) ?w ] =>
      erewrite (bind_ok (index_last l) k w)
        by first [ apply last_snoc_ok | apply index_last_ok; eassumption ]
  | |- context [ mbind ?k tf_losses_get_regularization_losses ?w ] =>
      let v := eval cbn in (regularization_losses (graph w)) in
      rewrite (bind_ok tf_losses_get_regularization_losses k w v w)
        by reflexivity
  end; cbv beta.

Lemma build_graph_gray self w m :
  heap w !! self = Some m → rgba m = false →
  let n := length (nodes (graph w)) in
  build_graph self w =
    (Ok (),
     set_obj self
       (set_inputs_preproc (λ l, l ++ [S n]) (set_inputs (λ l, l ++ [n]) m))
       (with_graph
          (λ g, add_node (Cast n tf_float32 (Some "cast/lr/gray_float"))
                  (add_node gray_placeholder g)) w)).
Proof.
  intros Hm Hrgb n. unfold build_graph.
  exec_step. rewrite Hrgb. cbn [negb]. cbv iota.
  repeat exec_step.
  erewrite modify_self_eq by heap_lookup.
  f_equal. apply world_eq; world_fields; [|done..].
  by rewrite insert_insert_eq.
Qed.

Lemma build_graph_rgba self w m :
  heap w !! self = Some m → rgba m = true →
  let n := length (nodes (graph w)) in
  build_graph self w =
    (Ok (),
     set_obj self
       (set_inputs_preproc (λ l, l ++ [7 + n]%nat)
          (set_inputs_preproc (λ l, l ++ [5 + n]%nat)
             (set_inputs (λ l, l ++ [n]) m)))
       (with_graph (add_nodes (rgba_nodes n)) w)).
Proof.
  intros Hm Hrgb n. unfold build_graph.
  exec_step. rewrite Hrgb. cbn [negb]. cbv iota.
  repeat exec_step.
  erewrite modify_self_eq by heap_lookup.
  f_equal. apply world_eq; world_fields; [|done..].
  by rewrite !insert_insert_eq.
Qed.

Lemma build_graph_ok self w m :
  heap w !! self = Some m →
  ∃ m' g', build_graph self w =
             (Ok (), {| heap := <[self := m']> (heap w); graph := g';
                        default_session := default_session w |}) ∧
           cls m' = cls m ∧ compiled m' = compiled m ∧
           summary_op m' = summary_op m.
Proof.
  intros Hm. destruct (rgba m) eqn:Hrgb.
  - rewrite (build_graph_rgba _ _ _ Hm Hrgb). by eexists _, _.
  - rewrite (build_graph_gray _ _ _ Hm Hrgb). by eexists _, _.
Qed.

(** ** Steps that touch the graph only, or keep the compiled flag *)

Global Instance same_heap_preorder : PreOrder same_heap.
Proof. split; [by intros w | intros w1 w2 w3 H1 H2; unfold same_heap in *; congruence]. Qed.

Global Instance keeps_compiled_preorder : PreOrder keeps_compiled.
Proof.
  split; [by intros w l|].
  intros w1 w2 w3 H1 H2 l. by rewrite H2, H1.
Qed.

Lemma steps_mono {A : Type} (R R' : relation world) (c : M A) :
  (∀ w w', R w w' → R' w w') → steps R c → steps R' c.
Proof. intros HR Hc w. apply HR, Hc. Qed.

Lemma same_heap_keeps_compiled w w' : same_heap w w' → keeps_compiled w w'.
Proof. intros E l. by rewrite E. Qed.

Lemma emit_same_heap op : steps same_heap (emit op).
Proof. by intros w. Qed.

Lemma tf_layers_conv2d_same_heap x a : steps same_heap (tf_layers_conv2d x a).
Proof.
  unfold tf_layers_conv2d.
  steps_go ltac:(first [apply emit_same_heap | by intros w]).
Qed.

Lemma tf_summary_scalar_same_heap nm x : steps same_heap (tf_summary_scalar nm x).
Proof.
  unfold tf_summary_scalar.
  steps_go ltac:(first [apply emit_same_heap | by intros w]).
Qed.

Lemma tf_add_n_same_heap xs : steps same_heap (tf_add_n xs).
Proof. unfold tf_add_n. steps_go ltac:(apply emit_same_heap). Qed.

Lemma tf_summary_merge_all_same_heap : steps same_heap tf_summary_merge_all.
Proof. intros w. unfold tf_summary_merge_all. by destruct (summaries (graph w)). Qed.

Lemma modify_self_keeps_compiled self f :
  (∀ m, compiled (f m) = compiled m) →
  steps keeps_compiled (modify_self self f).
Proof.
  intros Hf w l. unfold modify_self.
  destruct (heap w !! self) as [m|] eqn:E; [|done]. simpl.
  destruct (decide (self = l)) as [<-|Hne].
  - rewrite lookup_insert_eq, E. simpl. by rewrite Hf.
  - by rewrite lookup_insert_ne.
Qed.

Lemma variable_scope_keeps_compiled {A : Type} nm (body : M A) :
  steps keeps_compiled body → steps keeps_compiled (variable_scope nm body).
Proof.
  intros Hb w. unfold variable_scope.
  specialize (Hb (with_graph (set_scopes (scopes (graph w) ++ [nm])) w)).
  destruct (body _) as [r w1]. exact Hb.
Qed.

Ltac graph_only :=
  apply (steps_mono same_heap _ _ same_heap_keeps_compiled);
  first [ apply emit_same_heap | apply tf_layers_conv2d_same_heap
        | apply tf_summary_scalar_same_heap | apply tf_add_n_same_heap
        | apply tf_summary_merge_all_same_heap ].

Ltac keeps_compiled_go :=
  steps_go ltac:(first
    [ graph_only
    | apply modify_self_keeps_compiled; by intros ?
    | apply variable_scope_keeps_compiled ]).

Lemma build_graph_keeps_compiled self : steps keeps_compiled (build_graph self).
Proof. unfold build_graph. keeps_compiled_go. Qed.

Lemma Espcn_build_graph_keeps_compiled self :
  steps keeps_compiled (Espcn_build_graph self).
Proof.
  unfold Espcn_build_graph.
  steps_go ltac:(first
    [ apply build_graph_keeps_compiled
    | graph_only
    | apply modify_self_keeps_compiled; by intros ?
    | apply variable_scope_keeps_compiled ]).
Qed.

Lemma Espcn_build_loss_keeps_compiled self :
  steps keeps_compiled (Espcn_build_loss self).
Proof. unfold Espcn_build_loss. keeps_compiled_go. Qed.

Lemma Espcn_build_summary_keeps_compiled self :
  steps keeps_compiled (Espcn_build_summary self).
Proof. unfold Espcn_build_summary. keeps_compiled_go. Qed.

Lemma build_steps_keep_compiled k self :
  steps keeps_compiled (cd_build_graph (methods k) self) ∧
  steps keeps_compiled (cd_build_loss (methods k) self) ∧
  steps keeps_compiled (cd_build_summary (methods k) self).
Proof.
  destruct k; simpl; repeat split;
    first [ apply build_graph_keeps_compiled
          | apply Espcn_build_graph_keeps_compiled
          | apply Espcn_build_loss_keeps_compiled
          | apply Espcn_build_summary_keeps_compiled
          | apply steps_raise; apply _ ].
Qed.

(** ** The abstract build steps *)

(** C7: on the base class [build_loss] and [build_summary] always raise
    [NotImplementedError] and change nothing; whatever follows the call is
    skipped, and [compile] of a base-class object passes the error on,
    with the compiled flag and the summary handle as they were. *)
Theorem abstract_build_steps_raise self w :
  build_loss self w = (Raise (NotImplementedError not_implemented_message), w) ∧
  build_summary self w
    = (Raise (NotImplementedError not_implemented_message), w) ∧
  (∀ (B : Type) (k : () → M B),
     (build_loss self ≫= k) w
       = (Raise (NotImplementedError not_implemented_message), w) ∧
     (build_summary self ≫= k) w
       = (Raise (NotImplementedError not_implemented_message), w)) ∧
  (∀ m, heap w !! self = Some m → cls m = SuperResolutionClass →
     ∃ w', compile self w
             = (Raise (NotImplementedError not_implemented_message), w') ∧
           compiled <$> heap w' !! self = Some (compiled m) ∧
           summary_op <$> heap w' !! self = Some (summary_op m)).
Proof.
  split; [done|]. split; [done|]. split; [done|].
  intros m Hm Hcls.
  destruct (build_graph_ok self w m Hm) as (m' & g' & E & _ & Hc & Hs).
  eexists. split.
  - unfold compile. erewrite bind_ok by (by apply get_attr_eq).
    rewrite Hcls. unfold compile_with. cbn [methods cd_build_graph].
    erewrite bind_ok by exact E. reflexivity.
  - cbn [heap]. rewrite lookup_insert_eq. simpl. by rewrite Hc, Hs.
Qed.

(** ** [compile] *)

Lemma compile_with_inv (c : class_def) self w r w' :
  compile_with c self w = (Ok r, w') →
  r = self ∧
  ∃ w1 w2 w3 m s w4,
    cd_build_graph c self w = (Ok (), w1) ∧
    cd_build_loss c self w1 = (Ok (), w2) ∧
    cd_build_summary c self w2 = (Ok (), w3) ∧
    heap w3 !! self = Some m ∧
    tf_summary_merge_all w3 = (Ok s, w4) ∧
    w' = set_obj self (set_compiled true (set_summary_op s m)) w4.
Proof.
  unfold compile_with. intros H.
  apply bind_inv_ok in H as ([] & w1 & E1 & H).
  apply bind_inv_ok in H as ([] & w2 & E2 & H).
  apply bind_inv_ok in H as ([] & w3 & E3 & H).
  apply bind_inv_ok in H as (s & w4 & E4 & H).
  apply bind_inv_ok in H as ([] & w5 & E5 & H).
  apply bind_inv_ok in H as ([] & w6 & E6 & H).
  injection H as <- <-.
  split; [done|].
  assert (heap w4 = heap w3) as Hh.
  { pose proof (tf_summary_merge_all_same_heap w3) as Hs.
    by rewrite E4 in Hs. }
  unfold modify_self in E5.
  destruct (heap w4 !! self) as [m|] eqn:Hm; [|discriminate].
  injection E5 as <-.
  unfold modify_self in E6. cbn [heap] in E6.
  rewrite lookup_insert_eq in E6. injection E6 as <-.
  exists w1, w2, w3, m, s, w4. repeat split; try done.
  - by rewrite <- Hh.
  - unfold set_obj. cbn. by rewrite insert_insert_eq.
Qed.

Lemma compile_with_ok (c : class_def) self w w1 w2 w3 m s w4 :
  cd_build_graph c self w = (Ok (), w1) →
  cd_build_loss c self w1 = (Ok (), w2) →
  cd_build_summary c self w2 = (Ok (), w3) →
  heap w3 !! self = Some m →
  tf_summary_merge_all w3 = (Ok s, w4) →
  compile_with c self w
    = (Ok self, set_obj self (set_compiled true (set_summary_op s m)) w4).
Proof.
  intros E1 E2 E3 Hm E4. unfold compile_with.
  erewrite bind_ok by exact E1. erewrite bind_ok by exact E2.
  erewrite bind_ok by exact E3. erewrite bind_ok by exact E4.
  assert (heap w4 = heap w3) as Hh.
  { pose proof (tf_summary_merge_all_same_heap w3) as Hs.
    by rewrite E4 in Hs. }
  erewrite bind_ok by (apply modify_self_eq; by rewrite Hh).
  erewrite bind_ok by (apply modify_self_eq, heap_set_obj).
  by rewrite set_obj_twice.
Qed.

Lemma merge_all_result w s w4 :
  tf_summary_merge_all w = (Ok s, w4) →
  (s = None ∧ summaries (graph w) = [] ∧ w4 = w) ∨
  (∃ h, s = Some h ∧
        op_of (graph w4) h = Some (MergeSummary (summaries (graph w))) ∧
        nodes (graph w4) =
          nodes (graph w) ++
            [(scopes (graph w), MergeSummary (summaries (graph w)))]).
Proof.
  unfold tf_summary_merge_all.
  destruct (summaries (graph w)) as [|x xs] eqn:E.
  - intros [= <- <-]. by left.
  - intros [= <- <-]. right. eexists. split; [done|]. split; [|done].
    unfold op_of. cbn. rewrite lookup_app_r by done.
    by rewrite Nat.sub_diag.
Qed.

Lemma compile_with_tail self w3 m3 s w4 :
  heap w3 !! self = Some m3 → tf_summary_merge_all w3 = (Ok s, w4) →
  (s ← tf_summary_merge_all;
   _ ← modify_self self (set_summary_op s);
   _ ← modify_self self (set_compiled true);
   mret self) w3
  = (Ok self, set_obj self (set_compiled true (set_summary_op s m3)) w4).
Proof.
  intros Hm E4. erewrite bind_ok by exact E4.
  assert (heap w4 = heap w3) as Hh.
  { pose proof (tf_summary_merge_all_same_heap w3) as Hs.
    by rewrite E4 in Hs. }
  erewrite bind_ok by (apply modify_self_eq; by rewrite Hh).
  erewrite bind_ok by (apply modify_self_eq, heap_set_obj).
  by rewrite set_obj_twice.
Qed.

Lemma merge_all_returns w :
  ∃ s w4, tf_summary_merge_all w = (Ok s, w4).
Proof.
  unfold tf_summary_merge_all. destruct (summaries (graph w)); by eexists _, _.
Qed.

(** C6: [compile] returns exactly when [build_graph], then [build_loss],
    then [build_summary] of the object's class return, each run from the
    world the previous one left; it then merges the collected summaries
    into one handle, stores it, sets the compiled flag and returns the
    object itself: afterwards the object reads [compiled = True] and
    [summary_op] is the merged handle.  The flag, false at construction,
    is still false after each of the three build steps, and it is set
    after them only: [compile] raises exactly when one of the build steps
    raises, with the error and the world of that step, the later steps
    not run, and the flag is then still false. *)
Theorem compile_builds_in_order self w m r e w' :
  heap w !! self = Some m → compiled m = false →
  (compile self w = (Ok r, w') ↔
   r = self ∧
   ∃ w1 w2 w3 m3 s w4,
     cd_build_graph (methods (cls m)) self w = (Ok (), w1) ∧
     cd_build_loss (methods (cls m)) self w1 = (Ok (), w2) ∧
     cd_build_summary (methods (cls m)) self w2 = (Ok (), w3) ∧
     compiled <$> heap w1 !! self = Some false ∧
     compiled <$> heap w2 !! self = Some false ∧
     heap w3 !! self = Some m3 ∧ compiled m3 = false ∧
     tf_summary_merge_all w3 = (Ok s, w4) ∧
     (match s with
      | None => summaries (graph w3) = []
      | Some h =>
          op_of (graph w4) h = Some (MergeSummary (summaries (graph w3)))
      end) ∧
     heap w' !! self = Some (set_compiled true (set_summary_op s m3)) ∧
     compiled <$> heap w' !! self = Some true ∧
     summary_op <$> heap w' !! self = Some s ∧
     w' = set_obj self (set_compiled true (set_summary_op s m3)) w4) ∧
  (compile self w = (Raise e, w') ↔
   cd_build_graph (methods (cls m)) self w = (Raise e, w') ∨
   (∃ w1, cd_build_graph (methods (cls m)) self w = (Ok (), w1) ∧
          cd_build_loss (methods (cls m)) self w1 = (Raise e, w')) ∨
   (∃ w1 w2, cd_build_graph (methods (cls m)) self w = (Ok (), w1) ∧
             cd_build_loss (methods (cls m)) self w1 = (Ok (), w2) ∧
             cd_build_summary (methods (cls m)) self w2 = (Raise e, w'))) ∧
  (compile self w = (Raise e, w') →
   compiled <$> heap w' !! self = Some false).
Proof.
  intros Hm Hc.
  assert (compile self w = compile_with (methods (cls m)) self w) as Ec.
  { unfold compile. by erewrite bind_ok by (by apply get_attr_eq). }
  assert (compiled <$> heap w !! self = Some false) as C0.
  { rewrite Hm. simpl. by rewrite Hc. }
  destruct (build_steps_keep_compiled (cls m) self) as (K1 & K2 & K3).
  set (c := methods (cls m)) in *.
  assert (compile self w = (Raise e, w') ↔
          cd_build_graph c self w = (Raise e, w') ∨
          (∃ w1, cd_build_graph c self w = (Ok (), w1) ∧
                 cd_build_loss c self w1 = (Raise e, w')) ∨
          (∃ w1 w2, cd_build_graph c self w = (Ok (), w1) ∧
                    cd_build_loss c self w1 = (Ok (), w2) ∧
                    cd_build_summary c self w2 = (Raise e, w'))) as Hraise.
  { rewrite Ec. unfold compile_with. split.
    - intros H.
      pose proof (K1 w self) as C1. rewrite C0 in C1.
      destruct (cd_build_graph c self w) as [[[]|e1] w1] eqn:E1;
        [|rewrite (bind_raise _ _ _ _ _ E1) in H; injection H as <- <-;
          by left].
      rewrite (bind_ok _ _ _ _ _ E1) in H. cbn [snd] in C1.
      pose proof (K2 w1 self) as C2. rewrite C1 in C2.
      destruct (cd_build_loss c self w1) as [[[]|e2] w2] eqn:E2;
        [|rewrite (bind_raise _ _ _ _ _ E2) in H; injection H as <- <-;
          right; left; by exists w1].
      rewrite (bind_ok _ _ _ _ _ E2) in H. cbn [snd] in C2.
      pose proof (K3 w2 self) as C3. rewrite C2 in C3.
      destruct (cd_build_summary c self w2) as [[[]|e3] w3] eqn:E3;
        [|rewrite (bind_raise _ _ _ _ _ E3) in H; injection H as <- <-;
          right; right; by exists w1, w2].
      rewrite (bind_ok _ _ _ _ _ E3) in H. cbn [snd] in C3.
      destruct (heap w3 !! self) as [m3|] eqn:Hm3; [|discriminate].
      destruct (merge_all_returns w3) as (s & w4 & E4).
      rewrite (compile_with_tail self w3 m3 s w4 Hm3 E4) in H.
      discriminate.
    - intros [E1|[(w1 & E1 & E2)|(w1 & w2 & E1 & E2 & E3)]].
      + by apply bind_raise.
      + rewrite (bind_ok _ _ _ _ _ E1). by apply bind_raise.
      + rewrite (bind_ok _ _ _ _ _ E1), (bind_ok _ _ _ _ _ E2).
        by apply bind_raise. }
  split; [|split; [exact Hraise|]].
  - split.
    + intros H. rewrite Ec in H.
      apply compile_with_inv in H
        as (-> & w1 & w2 & w3 & m3 & s & w4 & E1 & E2 & E3 & Hm3 & E4 & ->).
      split; [done|].
      pose proof (K1 w self) as C1. rewrite E1 in C1. cbn [snd] in C1.
      pose proof (K2 w1 self) as C2. rewrite E2 in C2. cbn [snd] in C2.
      pose proof (K3 w2 self) as C3. rewrite E3 in C3. cbn [snd] in C3.
      rewrite C0 in C1. rewrite C1 in C2. rewrite C2, Hm3 in C3.
      simpl in C3.
      exists w1, w2, w3, m3, s, w4. repeat split; try done.
      * congruence.
      * destruct (merge_all_result _ _ _ E4)
          as [(-> & ? & _)|(h & -> & ? & _)]; done.
      * apply heap_set_obj.
      * by rewrite heap_set_obj.
      * by rewrite heap_set_obj.
    + intros (-> & w1 & w2 & w3 & m3 & s & w4 & E1 & E2 & E3 & _ & _ & Hm3
              & _ & E4 & _ & _ & _ & _ & ->).
      rewrite Ec. by apply compile_with_ok with w1 w2 w3.
  - intros H. apply Hraise in H.
    destruct H as [E1|[(w1 & E1 & E2)|(w1 & w2 & E1 & E2 & E3)]].
    + pose proof (K1 w self) as C1. rewrite E1 in C1. cbn [snd] in C1.
      by rewrite C1.
    + pose proof (K1 w self) as C1. rewrite E1 in C1. cbn [snd] in C1.
      pose proof (K2 w1 self) as C2. rewrite E2 in C2. cbn [snd] in C2.
      by rewrite C2, C1.
    + pose proof (K1 w self) as C1. rewrite E1 in C1. cbn [snd] in C1.
      pose proof (K2 w1 self) as C2. rewrite E2 in C2. cbn [snd] in C2.
      pose proof (K3 w2 self) as C3. rewrite E3 in C3. cbn [snd] in C3.
      by rewrite C3, C2, C1.
Qed.

(** ** Feeding a batch *)

Lemma feed_loop self (field : SuperResolution → list handle)
    (arrays : list ndarray) w m :
  heap w !! self = Some m → (length (field m) ≤ length arrays)%nat →
  ∀ (j k : nat) (fd : feed_dict), (k + j)%nat = length (field m) →
    for_each (seq k j)
      (λ i fd,
         a ← index arrays i;
         phs ← get_attr self field;
         ph ← index phs i;
         mret (<[ph := FeedArray a]> fd)) fd w
    = (Ok (feed_all (drop k (field m)) (drop k arrays) fd), w).
Proof.
  intros Hm Hlen j. induction j as [|j IH]; intros k fd Hk.
  - simpl. rewrite drop_ge by lia. reflexivity.
  - destruct (lookup_lt_is_Some_2 (field m) k) as [ph Hph]; [lia|].
    destruct (lookup_lt_is_Some_2 arrays k) as [a Ha]; [lia|].
    cbn [seq for_each].
    erewrite bind_ok; [rewrite IH by lia|].
    + rewrite (drop_S _ _ _ Hph), (drop_S _ _ _ Ha). reflexivity.
    + erewrite bind_ok by (by apply index_ok).
      erewrite bind_ok by (by apply get_attr_eq).
      erewrite bind_ok by (by apply index_ok). reflexivity.
Qed.

Lemma feed_arrays_eq self (field : SuperResolution → list handle)
    (arrays : list ndarray) (fd : feed_dict) w m :
  heap w !! self = Some m → (length (field m) ≤ length arrays)%nat →
  feed_arrays self field arrays fd w
    = (Ok (feed_all (field m) arrays fd), w).
Proof.
  intros Hm Hlen. unfold feed_arrays.
  erewrite bind_ok by (by apply get_attr_eq).
  by rewrite (feed_loop self field arrays w m Hm Hlen _ 0 fd).
Qed.

Lemma feed_all_other (phs : list handle) (arrays : list ndarray)
    (fd : feed_dict) (h : handle) :
  h ∉ phs → feed_all phs arrays fd !! h = fd !! h.
Proof.
  revert arrays fd. induction phs as [|ph phs IH]; intros arrays fd Hh.
  - done.
  - destruct arrays as [|a arrays]; [done|].
    apply not_elem_of_cons in Hh as [Hne Hh].
    unfold feed_all. cbn [zip zip_with foldl]. 
    change (foldl _ ?x (zip phs arrays)) with (feed_all phs arrays x).
    rewrite IH by done. by rewrite lookup_insert_ne.
Qed.

Lemma feed_all_bound (phs : list handle) (arrays : list ndarray)
    (fd : feed_dict) (i : nat) (ph : handle) (a : ndarray) :
  NoDup phs → phs !! i = Some ph → arrays !! i = Some a →
  feed_all phs arrays fd !! ph = Some (FeedArray a).
Proof.
  revert arrays fd i. induction phs as [|p phs IH]; intros arrays fd i Hnd Hp Ha.
  - done.
  - destruct arrays as [|a0 arrays]; [done|].
    apply list.NoDup_cons in Hnd as [Hp0 Hnd].
    unfold feed_all. cbn [zip zip_with foldl].
    change (foldl _ ?x (zip phs arrays)) with (feed_all phs arrays x).
    destruct i as [|i]; simpl in *.
    + injection Hp as ->. injection Ha as ->.
      rewrite feed_all_other by done. apply lookup_insert_eq.
    + by apply IH with i.
Qed.

Lemma run_eq fetches fd w s :
  default_session w = Some s →
  run fetches fd w =
    (Ok (session_run s (graph w) fetches fd).1,
     {| heap := heap w; graph := graph w;
        default_session := Some (session_run s (graph w) fetches fd).2 |}).
Proof.
  intros E. unfold run. rewrite E.
  by destruct (session_run s (graph w) fetches fd).
Qed.

(** ** Dictionaries *)

Lemma dict_set_fresh {V : Type} k (v : V) d :
  k ∉ dict_keys d → dict_set k v d = d ++ [(k, v)].
Proof.
  unfold dict_keys. induction d as [|[k' v'] d IH]; intros Hk; [done|].
  simpl in *. apply not_elem_of_cons in Hk as [Hne Hk].
  destruct (String.eqb_spec k k'); [done|]. by rewrite IH.
Qed.

Lemma dict_set_keys {V : Type} k (v : V) d :
  dict_keys (dict_set k v d) =
    if bool_decide (k ∈ dict_keys d) then dict_keys d else dict_keys d ++ [k].
Proof.
  unfold dict_keys. induction d as [|[k' v'] d IH]; [done|].
  cbn [dict_set]. rewrite (fmap_cons fst (k', v') d). cbn [fst].
  destruct (String.eqb_spec k k') as [->|Hne].
  - rewrite bool_decide_eq_true_2 by apply list_elem_of_here.
    by rewrite fmap_cons.
  - rewrite fmap_cons, IH. cbn [fst].
    destruct (bool_decide_reflect (k ∈ d.*1)) as [Hin|Hnin].
    + rewrite bool_decide_eq_true_2 by (by apply list_elem_of_further). done.
    + rewrite bool_decide_eq_false_2; [done|].
      intros [?|?]%elem_of_cons; done.
Qed.

Lemma dict_set_NoDup {V : Type} k (v : V) d :
  NoDup (dict_keys d) → NoDup (dict_keys (dict_set k v d)).
Proof.
  intros Hnd. rewrite dict_set_keys. case_bool_decide as Hin; [done|].
  apply list.NoDup_app. split; [done|]. split; [|apply NoDup_singleton].
  intros x Hx ->%list_elem_of_singleton. done.
Qed.

Lemma dict_of_zip_acc {V : Type} keys (vals : list V) acc :
  NoDup (dict_keys acc ++ keys) →
  foldl (λ d kv, dict_set kv.1 kv.2 d) acc (zip keys vals)
    = acc ++ zip keys vals.
Proof.
  revert vals acc. induction keys as [|k keys IH]; intros vals acc Hnd.
  - by rewrite app_nil_r.
  - destruct vals as [|v vals]; [by rewrite app_nil_r|].
    cbn [zip zip_with foldl fst snd].
    rewrite dict_set_fresh.
    + rewrite IH.
      * by rewrite <- app_assoc.
      * unfold dict_keys in *. rewrite fmap_app, <- app_assoc. exact Hnd.
    + apply list.NoDup_app in Hnd as (_ & Hd & _). intros Hk.
      apply (Hd k Hk), list_elem_of_here.
Qed.

Lemma dict_of_zip_eq {V : Type} keys (vals : list V) :
  NoDup keys → dict_of_zip keys vals = zip keys vals.
Proof. intros Hnd. unfold dict_of_zip. by rewrite dict_of_zip_acc. Qed.

(** ** [train_batch] *)

(** C3: on a model whose placeholders are pairwise distinct and whose
    metrics form a dictionary, a call of [train_batch] with as many
    feature arrays as input placeholders and as many label arrays as label
    placeholders feeds [True] for the training phase, the given learning
    rate, the i-th feature array for the i-th input placeholder and the
    i-th label array for the i-th label placeholder; it makes one run that
    fetches the metrics followed by the loss operations, and returns the
    metric names, in their order, each with the value fetched for it.  The
    values fetched for the loss operations come after those and are not
    returned. *)
Theorem train_batch_feeds_and_returns_metrics
    self w m s (feature label_arg : pyarg ndarray) lr :
  heap w !! self = Some m →
  default_session w = Some s →
  NoDup (training_phase m :: learning_rate m :: inputs m ++ label m) →
  NoDup (dict_keys (metrics m)) →
  length (to_list feature 1) = length (inputs m) →
  length (to_list label_arg 1) = length (label m) →
  ∃ (fd : feed_dict) (vals : list ndarray) (s' : session)
    (ret : list (string * ndarray)),
    session_run s (graph w) (dict_values (metrics m) ++ loss m) fd
      = (vals, s') ∧
    train_batch self feature label_arg lr w
      = (Ok ret, {| heap := heap w; graph := graph w;
                    default_session := Some s' |}) ∧
    fd !! training_phase m = Some (FeedBool true) ∧
    fd !! learning_rate m = Some (FeedFloat lr) ∧
    (∀ i ph a, inputs m !! i = Some ph → to_list feature 1 !! i = Some a →
               fd !! ph = Some (FeedArray a)) ∧
    (∀ i ph a, label m !! i = Some ph → to_list label_arg 1 !! i = Some a →
               fd !! ph = Some (FeedArray a)) ∧
    dict_keys ret = dict_keys (metrics m) ∧
    length vals = (length (metrics m) + length (loss m))%nat ∧
    (∀ i k h, metrics m !! i = Some (k, h) →
              ∃ v, vals !! i = Some v ∧ ret !! i = Some (k, v)).
Proof.
  intros Hm Hs Hnd Hkeys Hf Hl.
  set (fd0 := <[learning_rate m := FeedFloat lr]>
                (<[training_phase m := FeedBool true]> (∅ : feed_dict))).
  set (fd := feed_all (label m) (to_list label_arg 1)
               (feed_all (inputs m) (to_list feature 1) fd0)).
  destruct (session_run s (graph w) (dict_values (metrics m) ++ loss m) fd)
    as [vals s'] eqn:Erun.
  assert (length vals = (length (metrics m) + length (loss m))%nat) as Hlen.
  { pose proof (session_run_length s (graph w)
                  (dict_values (metrics m) ++ loss m) fd) as H.
    rewrite Erun in H. simpl in H. rewrite H, length_app.
    unfold dict_values. by rewrite length_fmap. }
  apply list.NoDup_cons in Hnd as [Htp Hnd].
  apply list.NoDup_cons in Hnd as [Hlr Hnd].
  apply list.NoDup_app in Hnd as (Hin & Hdisj & Hlab).
  apply not_elem_of_cons in Htp as [Htplr Htp].
  apply not_elem_of_app in Htp as [Htpi Htpl].
  apply not_elem_of_app in Hlr as [Hlri Hlrl].
  exists fd, vals, s', (zip (dict_keys (metrics m)) vals).
  split; [done|]. split; [|repeat split].
  - unfold train_batch.
    erewrite bind_ok by (by apply get_attr_eq).
    erewrite bind_ok by (by apply get_attr_eq).
    erewrite bind_ok by (apply feed_arrays_eq; [done|lia]).
    erewrite bind_ok by (apply feed_arrays_eq; [done|lia]).
    erewrite bind_ok by (by apply get_attr_eq).
    erewrite bind_ok by (by apply get_attr_eq).
    erewrite bind_ok by (by apply run_eq).
    erewrite bind_ok by (by apply get_attr_eq).
    fold fd0. fold fd. rewrite Erun. cbn [fst snd].
    by rewrite dict_of_zip_eq.
  - unfold fd. rewrite !feed_all_other by done. unfold fd0.
    rewrite lookup_insert_ne by done. apply lookup_insert_eq.
  - unfold fd. rewrite !feed_all_other by done. apply lookup_insert_eq.
  - intros i ph a Hph Ha. unfold fd. rewrite feed_all_other.
    + by apply feed_all_bound with i.
    + apply Hdisj. by apply list_elem_of_lookup_2 with i.
  - intros i ph a Hph Ha. unfold fd. by apply feed_all_bound with i.
  - unfold dict_keys at 1. apply fst_zip. unfold dict_keys.
    rewrite length_fmap. lia.
  - done.
  - intros i k h Hi.
    destruct (lookup_lt_is_Some_2 vals i) as [v Hv].
    { apply lookup_lt_Some in Hi. lia. }
    exists v. split; [done|]. apply lookup_zip_with_Some.
    exists k, v. split; [done|]. split; [|done].
    unfold dict_keys. by rewrite list_lookup_fmap, Hi.
Qed.

(** ** [test_batch] *)

(** C8: [test_batch] feeds [False] for the training phase and the i-th
    input array for the i-th input placeholder.  With labels it also feeds
    the i-th label array for the i-th label placeholder and returns the
    values of one run that fetches the outputs followed by the metrics;
    without labels it returns the values of one run that fetches the
    outputs alone. *)
Theorem test_batch_with_and_without_labels
    self w m s (inputs_arg : pyarg ndarray) :
  heap w !! self = Some m →
  default_session w = Some s →
  NoDup (training_phase m :: inputs m ++ label m) →
  length (to_list inputs_arg 1) = length (inputs m) →
  (∀ label_arg : pyarg ndarray,
     to_list label_arg 1 ≠ [] →
     length (to_list label_arg 1) = length (label m) →
     ∃ (fd : feed_dict) (vals : list ndarray) (s' : session),
       session_run s (graph w) (outputs m ++ dict_values (metrics m)) fd
         = (vals, s') ∧
       test_batch self inputs_arg label_arg w
         = (Ok vals, {| heap := heap w; graph := graph w;
                        default_session := Some s' |}) ∧
       length vals = (length (outputs m) + length (metrics m))%nat ∧
       fd !! training_phase m = Some (FeedBool false) ∧
       (∀ i ph a, inputs m !! i = Some ph →
                  to_list inputs_arg 1 !! i = Some a →
                  fd !! ph = Some (FeedArray a)) ∧
       (∀ i ph a, label m !! i = Some ph →
                  to_list label_arg 1 !! i = Some a →
                  fd !! ph = Some (FeedArray a))) ∧
  (∃ (fd : feed_dict) (vals : list ndarray) (s' : session),
     session_run s (graph w) (outputs m) fd = (vals, s') ∧
     test_batch self inputs_arg ArgNone w
       = (Ok vals, {| heap := heap w; graph := graph w;
                      default_session := Some s' |}) ∧
     length vals = length (outputs m) ∧
     fd !! training_phase m = Some (FeedBool false) ∧
     (∀ i ph a, inputs m !! i = Some ph →
                to_list inputs_arg 1 !! i = Some a →
                fd !! ph = Some (FeedArray a)) ∧
     (∀ ph, ph ∈ label m → fd !! ph = None)).
Proof.
  intros Hm Hs Hnd Hf.
  apply list.NoDup_cons in Hnd as [Htp Hnd].
  apply list.NoDup_app in Hnd as (Hin & Hdisj & Hlab).
  apply not_elem_of_app in Htp as [Htpi Htpl].
  set (fd0 := <[training_phase m := FeedBool false]> (∅ : feed_dict)).
  set (fd1 := feed_all (inputs m) (to_list inputs_arg 1) fd0).
  split.
  - intros label_arg Hne Hl.
    set (fd := feed_all (label m) (to_list label_arg 1) fd1).
    destruct (session_run s (graph w) (outputs m ++ dict_values (metrics m))
                fd) as [vals s'] eqn:Erun.
    exists fd, vals, s'. split; [done|]. split; [|repeat split].
    + unfold test_batch.
      erewrite bind_ok by (by apply get_attr_eq).
      erewrite bind_ok by (apply feed_arrays_eq; [done|lia]).
      destruct (to_list label_arg 1) as [|a0 labels] eqn:El; [done|].
      cbn [list_truthy]. cbv iota.
      erewrite bind_ok by (apply feed_arrays_eq; [done|lia]).
      erewrite bind_ok by (by apply get_attr_eq).
      erewrite bind_ok by (by apply get_attr_eq).
      rewrite (run_eq _ _ _ _ Hs). fold fd0. fold fd1. fold fd.
      by rewrite Erun.
    + pose proof (session_run_length s (graph w)
                    (outputs m ++ dict_values (metrics m)) fd) as H.
      rewrite Erun in H. simpl in H. rewrite H, length_app.
      unfold dict_values. by rewrite length_fmap.
    + unfold fd, fd1. rewrite !feed_all_other by done. apply lookup_insert_eq.
    + intros i ph a Hph Ha. unfold fd. rewrite feed_all_other.
      * by apply feed_all_bound with i.
      * apply Hdisj. by apply list_elem_of_lookup_2 with i.
    + intros i ph a Hph Ha. unfold fd. by apply feed_all_bound with i.
  - destruct (session_run s (graph w) (outputs m) fd1) as [vals s'] eqn:Erun.
    exists fd1, vals, s'. split; [done|]. split; [|repeat split].
    + unfold test_batch.
      erewrite bind_ok by (by apply get_attr_eq).
      erewrite bind_ok by (apply feed_arrays_eq; [done|lia]).
      cbn [to_list list_truthy]. cbv iota.
      erewrite bind_ok by (by apply get_attr_eq).
      rewrite (run_eq _ _ _ _ Hs). fold fd0. fold fd1.
      by rewrite Erun.
    + pose proof (session_run_length s (graph w) (outputs m) fd1) as H.
      by rewrite Erun in H.
    + unfold fd1. rewrite !feed_all_other by done. apply lookup_insert_eq.
    + intros i ph a Hph Ha. by apply feed_all_bound with i.
    + intros ph Hph. unfold fd1. rewrite feed_all_other.
      * unfold fd0. rewrite lookup_insert_ne; [done|].
        intros E. apply Htpl. by rewrite E.
      * intros Hi. by apply (Hdisj ph).
Qed.

(** ** [Espcn] does not look at [weight_decay] *)

Lemma ignores_ret {A : Type} (a : A) : ignores_weight_decay (mret a).
Proof. by intros q w. Qed.

Lemma ignores_raise {A : Type} e : ignores_weight_decay (raise e : M A).
Proof. by intros q w. Qed.

Lemma ignores_bind {A B : Type} (c : M A) (f : A → M B) :
  ignores_weight_decay c → (∀ a, ignores_weight_decay (f a)) →
  ignores_weight_decay (c ≫= f).
Proof.
  intros Hc Hf q w. unfold mbind, M_bind. rewrite Hc.
  destruct (c w) as [[a|e] w1]; simpl; [apply Hf | done].
Qed.

Lemma ignores_get_attr {A : Type} self (field : SuperResolution → A) :
  (∀ q m, field (set_weight_decay q m) = field m) →
  ignores_weight_decay (get_attr self field).
Proof.
  intros Hf q w. unfold get_attr. cbn [heap reweigh].
  rewrite lookup_fmap. destruct (heap w !! self) as [m|]; simpl; [|done].
  by rewrite Hf.
Qed.

Lemma ignores_modify_self self f :
  (∀ q m, f (set_weight_decay q m) = set_weight_decay q (f m)) →
  ignores_weight_decay (modify_self self f).
Proof.
  intros Hf q w. unfold modify_self. cbn [heap reweigh].
  rewrite lookup_fmap. destruct (heap w !! self) as [m|]; simpl; [|done].
  unfold reweigh. cbn. by rewrite fmap_insert, Hf.
Qed.

Lemma ignores_emit op : ignores_weight_decay (emit op).
Proof. by intros q w. Qed.

Lemma ignores_pure {A : Type} (r : tfgraph → result A) (f : tfgraph → tfgraph) :
  ignores_weight_decay (λ w, (r (graph w), with_graph f w)).
Proof. by intros q w. Qed.

Lemma ignores_variable_scope {A : Type} nm (body : M A) :
  ignores_weight_decay body → ignores_weight_decay (variable_scope nm body).
Proof.
  intros Hb q w. unfold variable_scope. cbn [graph reweigh].
  change (with_graph ?f (reweigh q w)) with (reweigh q (with_graph f w)).
  rewrite Hb. by destruct (body _).
Qed.

Lemma ignores_for_each {A S : Type} (l : list A) (body : A → S → M S) s :
  (∀ a s, ignores_weight_decay (body a s)) →
  ignores_weight_decay (for_each l body s).
Proof.
  intros Hb. revert s. induction l as [|a l IH]; intros s; simpl.
  - apply ignores_ret.
  - apply ignores_bind; [apply Hb | apply IH].
Qed.

Ltac ignores_go tac :=
  repeat first
    [ progress intros
    | apply ignores_ret | apply ignores_raise | apply ignores_emit
    | apply ignores_get_attr; by intros ? ?
    | apply ignores_modify_self; by intros ? ?
    | tac
    | apply ignores_bind | apply ignores_for_each
    | apply ignores_variable_scope
    | match goal with
      | |- ignores_weight_decay (if ?b then _ else _) => destruct b
      | |- ignores_weight_decay (match ?x with _ => _ end) => destruct x
      end ].

Lemma ignores_index {A : Type} (l : list A) i : ignores_weight_decay (index l i).
Proof. unfold index. ignores_go fail. Qed.

Lemma ignores_index_last {A : Type} (l : list A) :
  ignores_weight_decay (index_last l).
Proof. unfold index_last. ignores_go fail. Qed.

Lemma ignores_attribute {A : Type} what (o : option A) :
  ignores_weight_decay (attribute what o).
Proof. unfold attribute. ignores_go fail. Qed.

Lemma ignores_dict_item {V : Type} k (d : list (string * V)) :
  ignores_weight_decay (dict_item k d).
Proof. unfold dict_item. ignores_go fail. Qed.

Lemma ignores_tf_layers_conv2d x a : ignores_weight_decay (tf_layers_conv2d x a).
Proof. unfold tf_layers_conv2d. ignores_go ltac:(by intros ? ?). Qed.

Lemma ignores_tf_summary_scalar nm x :
  ignores_weight_decay (tf_summary_scalar nm x).
Proof. unfold tf_summary_scalar. ignores_go ltac:(by intros ? ?). Qed.

Lemma ignores_tf_add_n xs : ignores_weight_decay (tf_add_n xs).
Proof. unfold tf_add_n. ignores_go fail. Qed.

Lemma ignores_merge_all : ignores_weight_decay tf_summary_merge_all.
Proof.
  intros q w. unfold tf_summary_merge_all. cbn [graph reweigh].
  by destruct (summaries (graph w)).
Qed.

Ltac ignores_all :=
  ignores_go ltac:(first
    [ apply ignores_index | apply ignores_index_last | apply ignores_attribute
    | apply ignores_dict_item | apply ignores_tf_layers_conv2d
    | apply ignores_tf_summary_scalar | apply ignores_tf_add_n
    | apply ignores_merge_all | by intros ? ? ]).

Lemma ignores_build_graph self : ignores_weight_decay (build_graph self).
Proof. unfold build_graph. ignores_all. Qed.

Lemma ignores_Espcn_build_graph self :
  ignores_weight_decay (Espcn_build_graph self).
Proof.
  unfold Espcn_build_graph.
  ignores_go ltac:(first
    [ apply ignores_build_graph
    | apply ignores_index | apply ignores_index_last | apply ignores_attribute
    | apply ignores_tf_layers_conv2d ]).
Qed.

Lemma ignores_Espcn_build_loss self :
  ignores_weight_decay (Espcn_build_loss self).
Proof. unfold Espcn_build_loss. ignores_all. Qed.

Lemma ignores_Espcn_build_summary self :
  ignores_weight_decay (Espcn_build_summary self).
Proof. unfold Espcn_build_summary. ignores_all. Qed.

Lemma ignores_compile_Espcn self :
  ignores_weight_decay (compile_with (methods EspcnClass) self).
Proof.
  unfold compile_with. cbn [methods cd_build_graph cd_build_loss cd_build_summary].
  ignores_go ltac:(first
    [ apply ignores_Espcn_build_graph | apply ignores_Espcn_build_loss
    | apply ignores_Espcn_build_summary | apply ignores_merge_all ]).
Qed.

Lemma ignores_compile self : ignores_weight_decay (compile self).
Proof.
  unfold compile. apply ignores_bind.
  - apply ignores_get_attr. by intros ? ?.
  - intros [|]; [|apply ignores_compile_Espcn].
    unfold compile_with.
    cbn [methods cd_build_graph cd_build_loss cd_build_summary].
    unfold build_loss, build_summary.
    ignores_go ltac:(first [apply ignores_build_graph | apply ignores_merge_all]).
Qed.

Lemma init_reweigh c lay nm scale_arg wd1 wd2 rgb_input kw w :
  ∃ self w1 w2,
    SuperResolution_init c lay nm scale_arg wd1 rgb_input kw w = (Ok self, w1) ∧
    SuperResolution_init c lay nm scale_arg wd2 rgb_input kw w = (Ok self, w2) ∧
    ∀ q, reweigh q w1 = reweigh q w2.
Proof.
  eexists _, _, _. split; [reflexivity|]. split; [reflexivity|].
  intros q. unfold reweigh. cbn. by rewrite !fmap_insert.
Qed.

Lemma Espcn_compiled_reweigh scale_arg lay nm wd1 wd2 rgb_input kw w q :
  (Espcn_compiled scale_arg lay nm wd1 rgb_input kw w).1
    = (Espcn_compiled scale_arg lay nm wd2 rgb_input kw w).1 ∧
  reweigh q (Espcn_compiled scale_arg lay nm wd1 rgb_input kw w).2
    = reweigh q (Espcn_compiled scale_arg lay nm wd2 rgb_input kw w).2.
Proof.
  unfold Espcn_compiled, Espcn_init.
  destruct (init_reweigh EspcnClass (Some lay) (Some nm) scale_arg wd1 wd2
              rgb_input kw w) as (self & w1 & w2 & E1 & E2 & Hq).
  erewrite (bind_ok _ _ _ _ _ E1), (bind_ok _ _ _ _ _ E2).
  pose proof (ignores_compile self q w1) as H1.
  pose proof (ignores_compile self q w2) as H2.
  rewrite Hq, H2 in H1.
  split; [exact (f_equal fst (eq_sym H1)) | exact (f_equal snd (eq_sym H1))].
Qed.

(** ** The constants of [Espcn] *)

Lemma build_graph_adds P self :
  (∀ dt sh nm, P (Placeholder dt sh nm)) → (∀ x dt nm, P (Cast x dt nm)) →
  (∀ x c, P (DivScalar x c)) → (∀ x c, P (MulScalar x c)) →
  (∀ x, P (RgbToYuv x)) → (∀ x lo hi, P (SliceLast x lo hi)) →
  steps (adds P) (build_graph self).
Proof.
  intros. unfold build_graph.
  steps_go ltac:(first [apply modify_self_adds | by apply emit_adds]).
Qed.

Lemma Espcn_build_graph_l2 self :
  steps (adds l2_regularized) (Espcn_build_graph self).
Proof.
  unfold Espcn_build_graph.
  steps_go ltac:(first
    [ apply build_graph_adds; by intros
    | apply variable_scope_adds
    | apply modify_self_adds
    | apply tf_layers_conv2d_adds; by intros
    | by apply emit_adds ]).
Qed.

Lemma Espcn_build_loss_tv self :
  steps (adds tv_scaled) (Espcn_build_loss self).
Proof.
  unfold Espcn_build_loss, tf_add_n.
  steps_go ltac:(first
    [ apply variable_scope_adds
    | apply modify_self_adds
    | by apply emit_adds ]).
Qed.

Lemma dict_get_set {V : Type} k k' (v : V) d :
  dict_get k' (dict_set k v d)
    = if String.eqb k' k then Some v else dict_get k' d.
Proof.
  induction d as [|[k0 v0] d IH].
  - cbn. by destruct (String.eqb k' k).
  - cbn [dict_set]. destruct (String.eqb_spec k k0) as [->|Hne].
    + cbn [dict_get]. by destruct (String.eqb k' k0).
    + cbn [dict_get]. rewrite IH.
      destruct (String.eqb_spec k' k0) as [->|Hne']; [|done].
      destruct (String.eqb_spec k0 k) as [->|?]; done.
Qed.

Lemma Espcn_build_loss_eq self w m y_pred r rs :
  heap w !! self = Some m →
  list.last (outputs m) = Some y_pred →
  regularization_losses (graph w) = r :: rs →
  let n := length (nodes (graph w)) in
  ∃ w' m',
    Espcn_build_loss self w = (Ok (), w') ∧
    (nodes (graph w')).*2 =
      (nodes (graph w)).*2 ++
        Espcn_loss_ops n y_pred (learning_rate m) (global_steps m) (r :: rs) ∧
    heap w' = <[self := m']> (heap w) ∧
    label m' = label m ++ [n] ∧
    loss m' = loss m ++ [(9 + n)%nat] ∧
    metrics m' =
      dict_set "ssim" (11 + n)%nat
        (dict_set "psnr" (10 + n)%nat
           (dict_set "regularization" (7 + n)%nat
              (dict_set "mse" (2 + n)%nat (metrics m)))).
Proof.
  intros Hm Hout Hregs n. unfold Espcn_build_loss, variable_scope.
  repeat exec_step. rewrite Hregs. cbn [tf_add_n].
  repeat exec_step.
  erewrite modify_self_eq by heap_lookup.
  eexists _, _. split; [reflexivity|]. world_fields.
  split; [|split].
  - rewrite nodes_set_scopes, !ops_add_node, nodes_set_scopes.
    by rewrite <- !app_assoc.
  - rewrite !insert_insert_eq. reflexivity.
  - repeat split.
Qed.

Lemma op_of_added g g' ops k op :
  (nodes g').*2 = (nodes g).*2 ++ ops → ops !! k = Some op →
  op_of g' (length (nodes g) + k) = Some op.
Proof.
  intros E Hk. unfold op_of. rewrite <- list_lookup_fmap, E.
  rewrite lookup_app_r by (rewrite length_fmap; lia).
  rewrite length_fmap. by replace (length (nodes g) + k - length (nodes g))%nat
    with k by lia.
Qed.

(** C9: the regularization of [Espcn] is fixed.  Whatever the model and the
    world, every convolution layer that [Espcn.build_graph] adds carries
    the L2 regularizer with decay [1e-4], and every scalar factor that
    [Espcn.build_loss] adds is [1e-4].  When there is an output and a
    regularization loss, [build_loss] returns and the penalty is applied:
    the total-variation term [1e-4 * reduce_mean(total_variation(y_pred))]
    is added to the sum of all collected regularization losses, that sum
    is the metric [regularization], it is added to the mean squared error,
    and this total is what the Adam step appended to [loss] minimises.
    Hence two [Espcn] models that differ in [weight_decay] only compile to
    the same result and the same graph, and their objects differ in the
    stored [weight_decay] at most. *)
Theorem Espcn_regularization_is_fixed
    self w scale_arg lay nm wd1 wd2 rgb_input kw :
  adds l2_regularized w (Espcn_build_graph self w).2 ∧
  adds tv_scaled w (Espcn_build_loss self w).2 ∧
  (∀ m y_pred r rs,
     heap w !! self = Some m → list.last (outputs m) = Some y_pred →
     regularization_losses (graph w) = r :: rs →
     let n := length (nodes (graph w)) in
     ∃ w' m', Espcn_build_loss self w = (Ok (), w') ∧
       heap w' !! self = Some m' ∧
       op_of (graph w') (n + 2) = Some (MeanSquaredError (1 + n) y_pred) ∧
       op_of (graph w') (n + 3) = Some (TotalVariation y_pred) ∧
       op_of (graph w') (n + 4) = Some (ReduceMean (3 + n)) ∧
       op_of (graph w') (n + 5)
         = Some (MulScalar (4 + n) (decimal 1 10000)) ∧
       op_of (graph w') (n + 6)
         = Some (AddN (regularization_losses (graph w))) ∧
       op_of (graph w') (n + 7) = Some (Add (6 + n) (5 + n)) ∧
       op_of (graph w') (n + 8) = Some (Add (2 + n) (7 + n)) ∧
       op_of (graph w') (n + 9)
         = Some (AdamMinimize (learning_rate m) (8 + n) (global_steps m)) ∧
       loss m' = loss m ++ [9 + n] ∧
       dict_get "regularization" (metrics m') = Some (7 + n))%nat ∧
  (Espcn_compiled scale_arg lay nm wd1 rgb_input kw w).1
    = (Espcn_compiled scale_arg lay nm wd2 rgb_input kw w).1 ∧
  graph (Espcn_compiled scale_arg lay nm wd1 rgb_input kw w).2
    = graph (Espcn_compiled scale_arg lay nm wd2 rgb_input kw w).2 ∧
  (∀ q, set_weight_decay q
          <$> heap (Espcn_compiled scale_arg lay nm wd1 rgb_input kw w).2
        = set_weight_decay q
          <$> heap (Espcn_compiled scale_arg lay nm wd2 rgb_input kw w).2).
Proof.
  split; [apply Espcn_build_graph_l2|].
  split; [apply Espcn_build_loss_tv|].
  split.
  - intros m y_pred r rs Hm Hout Hregs n.
    destruct (Espcn_build_loss_eq self w m y_pred r rs Hm Hout Hregs)
      as (w' & m' & E & Hn & Hh & _ & Hloss & Hmet).
    exists w', m'. split; [done|].
    split; [rewrite Hh; apply lookup_insert_eq|].
    rewrite Hregs.
    do 8 (split; [by apply (op_of_added _ _ _ _ _ Hn)|]).
    split; [done|].
    rewrite Hmet, !dict_get_set. reflexivity.
  - destruct (Espcn_compiled_reweigh scale_arg lay nm wd1 wd2 rgb_input kw w
                0%Qc) as [Hr Hw].
    split; [done|]. split.
    + exact (f_equal graph Hw).
    + intros q.
      destruct (Espcn_compiled_reweigh scale_arg lay nm wd1 wd2 rgb_input kw
                  w q) as [_ Hq].
      exact (f_equal heap Hq).
Qed.

(** ** The value range of the preprocessed channels *)

(** C4 (the code departs from the claim): in RGBA mode [build_graph]
    creates one 4-channel placeholder and two preprocessed tensors, UV
    first and Y second, but UV is not confined to [-0.5, 0.5]: for the
    valid pixel of full red the V channel is 0.61497538.  The Y channel
    of that pixel is 76.245, within [0, 255]. *)
Theorem build_graph_rgba_uv_exceeds_half :
  ∃ w self m x uv y (u v l : Qc),
    rgba_model (initial_world None) = (Ok self, w) ∧
    heap w !! self = Some m ∧
    inputs m = [x] ∧ inputs_preproc m = [uv; y] ∧
    op_of (graph w) x = Some rgba_placeholder ∧
    pixel_at (graph w) {[x := red_pixel]} uv = Some [u; v] ∧
    (u == -14714119 # 100000000)%Q ∧
    (v == 61497538 # 100000000)%Q ∧
    (1 # 2 < v)%Q ∧
    pixel_at (graph w) {[x := red_pixel]} y = Some [l] ∧
    (l == 76245 # 1000)%Q ∧ (0 <= l <= 255)%Q.
Proof.
  eexists _, _, _, _, _, _, _, _, _.
  split; [vm_compute; reflexivity|].
  split; [vm_compute; reflexivity|].
  split; [vm_compute; reflexivity|].
  split; [vm_compute; reflexivity|].
  split; [vm_compute; reflexivity|].
  split; [vm_compute; reflexivity|].
  split; [vm_compute; reflexivity|].
  split; [vm_compute; reflexivity|].
  split; [vm_compute; reflexivity|].
  split; [vm_compute; reflexivity|].
  split; [vm_compute; reflexivity|].
  split; vm_compute; discriminate.
Qed.

(** * Further properties *)

Lemma bind_ret {A B : Type} (a : A) (f : A → M B) w : (mret a ≫= f) w = f a w.
Proof. reflexivity. Qed.

Lemma bind_assoc {A B C : Type} (c : M A) (f : A → M B) (g : B → M C) w :
  ((c ≫= f) ≫= g) w = (c ≫= λ a, f a ≫= g) w.
Proof. unfold mbind, M_bind. by destruct (c w) as [[a|e] w1]. Qed.

(** ** [conv2d]: what the options select *)

Lemma tf_layers_conv2d_eq x a w r :
  ca_kernel_regularizer a = PyCallable r →
  let n := length (nodes (graph w)) in
  tf_layers_conv2d x a w =
    (Ok n,
     with_graph (add_regularization_loss (S n))
       (with_graph (add_node (RegularizationLoss r n))
          (with_graph (add_node (Conv2D x a)) w))).
Proof.
  intros E n. unfold tf_layers_conv2d. rewrite E.
  repeat exec_step. reflexivity.
Qed.

Lemma tf_layers_conv2d_plain x a w :
  is_callable (ca_kernel_regularizer a) = false →
  tf_layers_conv2d x a w =
    (Ok (length (nodes (graph w))), with_graph (add_node (Conv2D x a)) w).
Proof.
  intros E. unfold tf_layers_conv2d.
  by destruct (ca_kernel_regularizer a).
Qed.

(** X1: the initializer name ['he_normal'] selects the He-normal
    initializer, a callable initializer is passed through, and [None]
    leaves the layer without one; in each case the call returns the layer. *)
Theorem conv2d_initializer_selection self x filters kernel_size o w :
  kernel_regularizer o = PyNone → activation o = PyNone →
  use_batchnorm o = false →
  (kernel_initializer o = PyStr "he_normal" →
   conv2d self x filters kernel_size o w =
     (Ok (length (nodes (graph w))),
      with_graph (add_node (Conv2D x
        (conv2d_layer_args filters kernel_size o (PyCallable he_normal)
           PyNone))) w)) ∧
  (∀ f, kernel_initializer o = PyCallable f →
   conv2d self x filters kernel_size o w =
     (Ok (length (nodes (graph w))),
      with_graph (add_node (Conv2D x
        (conv2d_layer_args filters kernel_size o (PyCallable f) PyNone))) w)) ∧
  (kernel_initializer o = PyNone →
   conv2d self x filters kernel_size o w =
     (Ok (length (nodes (graph w))),
      with_graph (add_node (Conv2D x
        (conv2d_layer_args filters kernel_size o PyNone PyNone))) w)).
Proof.
  intros Hkr Hact Hbn. repeat split.
  - intros Hki. unfold conv2d. by rewrite Hki, Hkr, Hact, Hbn.
  - intros f Hki. unfold conv2d. by rewrite Hki, Hkr, Hact, Hbn.
  - intros Hki. unfold conv2d. by rewrite Hki, Hkr, Hact, Hbn.
Qed.

(** X2: the regularizer names ['l1'] and ['l2'] build the regularizer from
    the model's own [weight_decay]; the layer then also contributes a
    regularization loss.  When [weight_decay] is zero the name selects no
    regularizer at all and no loss is collected. *)
Theorem conv2d_named_regularizer self x filters kernel_size o w m :
  heap w !! self = Some m →
  kernel_initializer o = PyNone → activation o = PyNone →
  use_batchnorm o = false →
  let n := length (nodes (graph w)) in
  let built reg :=
    if bool_decide (weight_decay m ≠ 0%Qc) then
      (Ok n,
       with_graph (add_regularization_loss (S n))
         (with_graph (add_node (RegularizationLoss (reg (weight_decay m)) n))
            (with_graph (add_node (Conv2D x
               (conv2d_layer_args filters kernel_size o PyNone
                  (PyCallable (reg (weight_decay m)))))) w)))
    else
      (Ok n,
       with_graph (add_node (Conv2D x
         (conv2d_layer_args filters kernel_size o PyNone PyNone))) w) in
  (kernel_regularizer o = PyStr "l1" →
   conv2d self x filters kernel_size o w = built regularizers_l1) ∧
  (kernel_regularizer o = PyStr "l2" →
   conv2d self x filters kernel_size o w = built regularizers_l2).
Proof.
  intros Hm Hki Hact Hbn n built. unfold built, conv2d, float_truthy.
  split; intros Hkr; rewrite Hki, Hkr, Hact, Hbn;
    cbn [isinstance_str is_callable truthy];
    rewrite !py_eq_str; cbn [String.eqb Ascii.eqb Bool.eqb]; cbv iota;
    rewrite bind_ret, bind_assoc; exec_step;
    (case_bool_decide;
     [ rewrite bind_assoc; exec_step; rewrite bind_ret;
       erewrite bind_ok by (by apply tf_layers_conv2d_eq); reflexivity
     | rewrite bind_ret;
       erewrite bind_ok by (by apply tf_layers_conv2d_plain); reflexivity ]).
Qed.

(** X3: a value that is neither a string, nor callable, nor false is
    refused with [ValueError]: at once and without touching the world
    for the initializer and the regularizer, but only after the layer has
    been added to the graph for the activation. *)
Theorem conv2d_rejects_other_values self x filters kernel_size o w z :
  z ≠ 0 →
  (kernel_initializer o = PyInt z →
   conv2d self x filters kernel_size o w =
     (Raise (ValueError "invalid kernel initializer!"), w)) ∧
  (kernel_initializer o = PyNone → kernel_regularizer o = PyInt z →
   conv2d self x filters kernel_size o w =
     (Raise (ValueError "invalid kernel regularizer!"), w)) ∧
  (kernel_initializer o = PyNone → kernel_regularizer o = PyNone →
   use_batchnorm o = false → activation o = PyInt z →
   conv2d self x filters kernel_size o w =
     (Raise (ValueError "invalid activation!"),
      with_graph (add_node (Conv2D x
        (conv2d_layer_args filters kernel_size o PyNone PyNone))) w)).
Proof.
  intros Hz. assert (Z.eqb z 0 = false) as Hz' by by apply Z.eqb_neq.
  repeat split.
  - intros Hki. unfold conv2d. rewrite Hki. cbn. by rewrite Hz'.
  - intros Hki Hkr. unfold conv2d. rewrite Hki, Hkr. cbn. by rewrite Hz'.
  - intros Hki Hkr Hbn Hact. unfold conv2d.
    rewrite Hki, Hkr, Hbn, Hact. cbn. by rewrite Hz'.
Qed.

(** X4: with batch normalization and an activation, [conv2d] adds the layer,
    then the batch normalization on the layer, gated by the model's
    training-phase placeholder, then the activation on the normalized
    tensor, and returns the activated tensor. *)
Theorem conv2d_layer_batchnorm_activation
    self x filters kernel_size o w m act :
  heap w !! self = Some m →
  kernel_initializer o = PyNone → kernel_regularizer o = PyNone →
  use_batchnorm o = true →
  (activation o = PyStr "relu" ∧ act = nn_relu ∨
   activation o = PyCallable act) →
  let n := length (nodes (graph w)) in
  conv2d self x filters kernel_size o w =
    (Ok (S (S n)),
     with_graph (add_node (Call act (S n)))
       (with_graph (add_node (BatchNormalization n (training_phase m)))
          (with_graph (add_node (Conv2D x
             (conv2d_layer_args filters kernel_size o PyNone PyNone))) w))).
Proof.
  intros Hm Hki Hkr Hbn Hact n. unfold conv2d.
  rewrite Hki, Hkr, Hbn.
  destruct Hact as [[Hact ->]|Hact]; rewrite Hact;
    cbn [isinstance_str is_callable truthy]; rewrite ?py_eq_str;
    cbn [String.eqb Ascii.eqb Bool.eqb negb]; cbv iota;
    rewrite !bind_ret;
    (erewrite bind_ok by (by apply tf_layers_conv2d_plain));
    rewrite bind_assoc; repeat exec_step; rewrite ?bind_ret;
    cbn [call]; (erewrite emit_eq by count_nodes); reflexivity.
Qed.

(** X5: without an activation ([None] or the empty string) and without
    batch normalization the result of [conv2d] is the layer itself; the
    model is not consulted. *)
Theorem conv2d_without_activation self x filters kernel_size o w :
  kernel_initializer o = PyNone → kernel_regularizer o = PyNone →
  use_batchnorm o = false →
  activation o = PyNone ∨ activation o = PyStr "" →
  conv2d self x filters kernel_size o w =
    tf_layers_conv2d x
      (conv2d_layer_args filters kernel_size o PyNone PyNone) w.
Proof.
  intros Hki Hkr Hbn [Hact|Hact]; unfold conv2d;
    by rewrite Hki, Hkr, Hbn, Hact.
Qed.

(** ** Batches that do not fit, and runs without a session *)

Lemma feed_loop_short self (field : SuperResolution → list handle)
    (arrays : list ndarray) w m :
  heap w !! self = Some m →
  ∀ (j k : nat) (fd : feed_dict),
    (k ≤ length arrays)%nat → (length arrays < k + j)%nat →
    (k + j ≤ length (field m))%nat →
    for_each (seq k j)
      (λ i fd,
         a ← index arrays i;
         phs ← get_attr self field;
         ph ← index phs i;
         mret (<[ph := FeedArray a]> fd)) fd w
    = (Raise (IndexError "list index out of range"), w).
Proof.
  intros Hm j. induction j as [|j IH]; intros k fd Hk Hlt Hle; [lia|].
  cbn [seq for_each].
  destruct (decide (k = length arrays)) as [->|Hne].
  - apply bind_raise. apply bind_raise. unfold index.
    by rewrite lookup_ge_None_2.
  - destruct (lookup_lt_is_Some_2 (field m) k) as [ph Hph]; [lia|].
    destruct (lookup_lt_is_Some_2 arrays k) as [a Ha]; [lia|].
    erewrite bind_ok; [apply IH; lia|].
    erewrite bind_ok by (by apply index_ok).
    erewrite bind_ok by (by apply get_attr_eq).
    erewrite bind_ok by (by apply index_ok). reflexivity.
Qed.

Lemma feed_arrays_short self (field : SuperResolution → list handle)
    (arrays : list ndarray) (fd : feed_dict) w m :
  heap w !! self = Some m → (length arrays < length (field m))%nat →
  feed_arrays self field arrays fd w
    = (Raise (IndexError "list index out of range"), w).
Proof.
  intros Hm Hlt. unfold feed_arrays.
  erewrite bind_ok by (by apply get_attr_eq).
  apply (feed_loop_short self field arrays w m Hm); lia.
Qed.

Lemma feed_all_extra (phs : list handle) (arrays extra : list ndarray)
    (fd : feed_dict) :
  (length phs ≤ length arrays)%nat →
  feed_all phs (arrays ++ extra) fd = feed_all phs arrays fd.
Proof.
  intros Hle. unfold feed_all. f_equal.
  revert arrays Hle. induction phs as [|p phs IH]; intros arrays Hle; [done|].
  destruct arrays as [|a arrays]; simpl in *; [lia|].
  f_equal. apply IH. lia.
Qed.

(** X6: [train_batch] with fewer feature arrays than input placeholders, or
    with enough features but fewer label arrays than label placeholders,
    raises [IndexError] before anything is run: the world, session
    included, is as it was.  Arrays beyond the number of placeholders are
    ignored. *)
Theorem train_batch_mismatched_counts self w m
    (feature label_arg : pyarg ndarray) lr :
  heap w !! self = Some m →
  ((length (to_list feature 1) < length (inputs m))%nat →
   train_batch self feature label_arg lr w
     = (Raise (IndexError "list index out of range"), w)) ∧
  ((length (inputs m) ≤ length (to_list feature 1))%nat →
   (length (to_list label_arg 1) < length (label m))%nat →
   train_batch self feature label_arg lr w
     = (Raise (IndexError "list index out of range"), w)) ∧
  (∀ fs ls extra_f extra_l,
     (length (inputs m) ≤ length fs)%nat →
     (length (label m) ≤ length ls)%nat →
     train_batch self (ArgSeq (fs ++ extra_f)) (ArgSeq (ls ++ extra_l)) lr w
       = train_batch self (ArgSeq fs) (ArgSeq ls) lr w).
Proof.
  intros Hm. split; [|split].
  - intros Hlt. unfold train_batch.
    erewrite bind_ok by (by apply get_attr_eq).
    erewrite bind_ok by (by apply get_attr_eq).
    apply bind_raise. by apply feed_arrays_short with m.
  - intros Hle Hlt. unfold train_batch.
    erewrite bind_ok by (by apply get_attr_eq).
    erewrite bind_ok by (by apply get_attr_eq).
    erewrite bind_ok by (by apply feed_arrays_eq).
    apply bind_raise. by apply feed_arrays_short with m.
  - intros fs ls ef el Hf Hl. unfold train_batch. cbn [to_list].
    erewrite !(bind_ok (get_attr _ _)) by (by apply get_attr_eq).
    erewrite bind_ok
      by (apply feed_arrays_eq; [done | rewrite length_app; lia]).
    erewrite bind_ok
      by (apply feed_arrays_eq; [done | rewrite length_app; lia]).
    symmetry.
    erewrite bind_ok by (by apply feed_arrays_eq).
    erewrite bind_ok by (by apply feed_arrays_eq).
    by rewrite !feed_all_extra.
Qed.


(** ** [__getattr__] *)

(** X9: the options that the constructor does not know are kept, and the
    attribute fallback finds each of them by name; for a name that was
    not given it yields [None] rather than raising.  The lookup changes
    nothing. *)
Theorem unknown_args_round_trip c lay nm scale_arg wd rgb_input kw w item :
  ∃ self w',
    SuperResolution_init c lay nm scale_arg wd rgb_input kw w = (Ok self, w') ∧
    getattr_fallback self item w' = (Ok (dict_get item kw), w') ∧
    (item ∉ dict_keys kw → getattr_fallback self item w' = (Ok None, w')) ∧
    (∀ v, NoDup (dict_keys kw) → (item, v) ∈ kw →
          getattr_fallback self item w' = (Ok (Some v), w')).
Proof.
  eexists _, _. split; [reflexivity|].
  assert (∀ d : list (string * pyval), item ∉ dict_keys d →
            dict_get item d = None) as Hnone.
  { unfold dict_keys. induction d as [|[k v] d IH]; [done|].
    rewrite fmap_cons. cbn [fst dict_get].
    intros [Hne Hd]%not_elem_of_cons.
    destruct (String.eqb_spec item k); [done|]. by apply IH. }
  assert (getattr_fallback
            (fresh (dom (heap w) : gset loc)) item
            (SuperResolution_init c lay nm scale_arg wd rgb_input kw w).2
          = (Ok (dict_get item kw),
             (SuperResolution_init c lay nm scale_arg wd rgb_input kw w).2))
    as Hget.
  { unfold getattr_fallback.
    erewrite bind_ok by (apply get_attr_eq; apply lookup_insert_eq).
    reflexivity. }
  split; [exact Hget|]. split.
  - intros Hni. rewrite <- (Hnone kw Hni). exact Hget.
  - intros v Hnd Hin. etrans; [exact Hget|]. do 2 f_equal.
    clear Hget. unfold dict_keys in Hnd.
    induction kw as [|[k v'] kw IH]; [by apply elem_of_nil in Hin|].
    rewrite fmap_cons in Hnd. apply list.NoDup_cons in Hnd as [Hk Hnd].
    cbn [dict_get fst]. apply elem_of_cons in Hin as [[= <- <-]|Hin].
    + by rewrite String.eqb_refl.
    + destruct (String.eqb_spec item k) as [->|Hne]; [|by apply IH].
      exfalso. apply Hk. apply list_elem_of_fmap. by exists (k, v).
Qed.

(** ** [validate_batch] *)

Lemma feed_all_is_Some (phs : list handle) (arrays : list ndarray)
    (fd : feed_dict) (h : handle) :
  length phs = length arrays →
  is_Some (feed_all phs arrays fd !! h) ↔ h ∈ phs ∨ is_Some (fd !! h).
Proof.
  revert arrays fd. induction phs as [|p phs IH]; intros arrays fd Hlen.
  - destruct arrays; [|done]. unfold feed_all. simpl.
    split; [by right | intros [Hin|?]; [by apply elem_of_nil in Hin | done]].
  - destruct arrays as [|a arrays]; [done|].
    unfold feed_all. cbn [zip zip_with foldl].
    change (foldl _ ?x (zip phs arrays)) with (feed_all phs arrays x).
    rewrite IH by (simpl in Hlen; lia). cbn [fst snd].
    rewrite elem_of_cons. destruct (decide (p = h)) as [->|Hne].
    + rewrite lookup_insert_eq. split; [by left; left | by right].
    + rewrite lookup_insert_ne by done. split.
      * intros [?|?]; [by left; right | by right].
      * intros [[->|?]|?]; [done | by left | by right].
Qed.

(** X8: on a model with distinct placeholders, a metrics dictionary and a
    merged summary, [validate_batch] with matching counts feeds [False] for
    the training phase, the i-th feature and label arrays for the i-th
    input and label placeholders and nothing else (no learning rate); it
    makes one run that fetches the metrics followed by the summary, and
    returns the metric names, in order, with their values, together with
    the value of the summary. *)
Theorem validate_batch_feeds_and_returns
    self w m s so (feature label_arg : pyarg ndarray) :
  heap w !! self = Some m →
  default_session w = Some s →
  summary_op m = Some so →
  NoDup (training_phase m :: inputs m ++ label m) →
  NoDup (dict_keys (metrics m)) →
  length (to_list feature 1) = length (inputs m) →
  length (to_list label_arg 1) = length (label m) →
  ∃ (fd : feed_dict) (vals : list ndarray) (s' : session)
    (ret : list (string * ndarray)) (summary_value : ndarray),
    session_run s (graph w) (dict_values (metrics m) ++ [so]) fd
      = (vals, s') ∧
    validate_batch self feature label_arg w
      = (Ok (ret, summary_value),
         {| heap := heap w; graph := graph w; default_session := Some s' |}) ∧
    fd !! training_phase m = Some (FeedBool false) ∧
    (∀ i ph a, inputs m !! i = Some ph → to_list feature 1 !! i = Some a →
               fd !! ph = Some (FeedArray a)) ∧
    (∀ i ph a, label m !! i = Some ph → to_list label_arg 1 !! i = Some a →
               fd !! ph = Some (FeedArray a)) ∧
    (∀ ph, is_Some (fd !! ph) ↔
           ph ∈ training_phase m :: inputs m ++ label m) ∧
    dict_keys ret = dict_keys (metrics m) ∧
    (∀ i k h, metrics m !! i = Some (k, h) →
              ∃ v, vals !! i = Some v ∧ ret !! i = Some (k, v)) ∧
    vals !! length (metrics m) = Some summary_value.
Proof.
  intros Hm Hs Hso Hnd Hkeys Hf Hl.
  set (fd0 := <[training_phase m := FeedBool false]> (∅ : feed_dict)).
  set (fd := feed_all (label m) (to_list label_arg 1)
               (feed_all (inputs m) (to_list feature 1) fd0)).
  destruct (session_run s (graph w) (dict_values (metrics m) ++ [so]) fd)
    as [vals s'] eqn:Erun.
  assert (length vals = S (length (metrics m))) as Hlen.
  { pose proof (session_run_length s (graph w)
                  (dict_values (metrics m) ++ [so]) fd) as H.
    rewrite Erun in H. simpl in H. rewrite H, length_app.
    unfold dict_values. rewrite length_fmap. simpl. lia. }
  destruct (lookup_lt_is_Some_2 vals (length (metrics m))) as [sv Hsv]; [lia|].
  assert (list.last vals = Some sv) as Hlast.
  { rewrite last_lookup, Hlen. exact Hsv. }
  apply list.NoDup_cons in Hnd as [Htp Hnd].
  apply list.NoDup_app in Hnd as (Hin & Hdisj & Hlab).
  apply not_elem_of_app in Htp as [Htpi Htpl].
  exists fd, vals, s', (zip (dict_keys (metrics m)) (take (length vals - 1) vals)), sv.
  split; [done|]. split; [|repeat split].
  - unfold validate_batch.
    erewrite bind_ok by (by apply get_attr_eq).
    erewrite bind_ok by (apply feed_arrays_eq; [done|lia]).
    erewrite bind_ok by (apply feed_arrays_eq; [done|lia]).
    erewrite (bind_ok session_run_method)
      by (unfold session_run_method; by rewrite Hs).
    erewrite !(bind_ok (get_attr _ _)) by (by apply get_attr_eq).
    rewrite Hso. cbn [attribute]. rewrite bind_ret.
    erewrite bind_ok by (by apply run_eq).
    erewrite bind_ok by (by apply get_attr_eq).
    fold fd0. fold fd. rewrite Erun. cbn [fst snd].
    erewrite bind_ok by (by apply index_last_ok).
    by rewrite dict_of_zip_eq.
  - unfold fd. rewrite !feed_all_other by done. apply lookup_insert_eq.
  - intros i ph a Hph Ha. unfold fd. rewrite feed_all_other.
    + by apply feed_all_bound with i.
    + apply Hdisj. by apply list_elem_of_lookup_2 with i.
  - intros i ph a Hph Ha. unfold fd. by apply feed_all_bound with i.
  - unfold fd. rewrite !feed_all_is_Some by done. unfold fd0.
    rewrite elem_of_cons, elem_of_app.
    destruct (decide (training_phase m = ph)) as [<-|Hne].
    + rewrite lookup_insert_eq. intros _. by left.
    + rewrite lookup_insert_ne, lookup_empty by done.
      intros [?|[?|[? [=]]]]; [right; by right | right; by left].
  - unfold fd. rewrite !feed_all_is_Some by done. unfold fd0.
    rewrite elem_of_cons, elem_of_app.
    intros [->|[?|?]]; [|right; by left|by left].
    right. right. by rewrite lookup_insert_eq.
  - unfold dict_keys at 1. apply fst_zip. unfold dict_keys.
    rewrite length_fmap, length_take. lia.
  - intros i k h Hi. apply lookup_lt_Some in Hi as Hlt.
    destruct (lookup_lt_is_Some_2 vals i) as [v Hv]; [lia|].
    exists v. split; [done|]. apply lookup_zip_with_Some.
    exists k, v. split; [done|]. split.
    + unfold dict_keys. by rewrite list_lookup_fmap, Hi.
    + rewrite lookup_take_lt by lia. done.
  - done.
Qed.

(** ** [Espcn.build_graph] *)

Lemma extends_refl w : extends 0 0 w w.
Proof.
  repeat split; try done; exists []; by rewrite app_nil_r.
Qed.

Lemma extends_trans k1 r1 k2 r2 w1 w2 w3 :
  extends k1 r1 w1 w2 → extends k2 r2 w2 w3 →
  extends (k1 + k2) (r1 + r2) w1 w3.
Proof.
  intros (S1 & U1 & (a1 & N1 & L1) & (l1 & R1 & M1))
         (S2 & U2 & (a2 & N2 & L2) & (l2 & R2 & M2)).
  repeat split; try congruence.
  - exists (a1 ++ a2). split; [by rewrite N2, N1, app_assoc|].
    rewrite length_app. lia.
  - exists (l1 ++ l2). split; [by rewrite R2, R1, app_assoc|].
    rewrite length_app. lia.
Qed.

Lemma extends_add_node op w : extends 1 0 w (with_graph (add_node op) w).
Proof.
  repeat split; try done.
  - by eexists [_].
  - exists []. by rewrite app_nil_r.
Qed.

Lemma extends_conv_layer x a r w : extends 2 1 w (conv_layer x a r w).
Proof.
  repeat split; try done.
  - eexists [_; _]. split; [|done]. cbn. by rewrite <- app_assoc.
  - by eexists [_].
Qed.

Lemma extends_set_obj self m w : extends 0 0 w (set_obj self m w).
Proof. repeat split; try done; exists []; by rewrite app_nil_r. Qed.

Lemma extends_set_scopes sc w : extends 0 0 w (with_graph (set_scopes sc) w).
Proof. repeat split; try done; exists []; by rewrite app_nil_r. Qed.

Lemma conv_stack_heap k a r x w :
  heap (conv_stack k a r x w).2 = heap w ∧
  scopes (graph (conv_stack k a r x w).2) = scopes (graph w).
Proof.
  revert x w. induction k as [|k IH]; intros x w; [done|].
  cbn [conv_stack]. by destruct (IH (length (nodes (graph w)))
                                   (conv_layer x a r w)) as [-> ->].
Qed.

Lemma extends_length k r w w' :
  extends k r w w' →
  length (nodes (graph w')) = (length (nodes (graph w)) + k)%nat ∧
  length (regularization_losses (graph w'))
    = (length (regularization_losses (graph w)) + r)%nat.
Proof.
  intros (_ & _ & (a & -> & <-) & (l & -> & <-)).
  by rewrite !length_app.
Qed.

Lemma extends_op_of k r w w' h op :
  extends k r w w' → op_of (graph w) h = Some op →
  op_of (graph w') h = Some op.
Proof.
  intros (_ & _ & (a & E & _) & _). unfold op_of. rewrite E.
  intros H. destruct (nodes (graph w) !! h) as [nd|] eqn:Hn; [|done].
  by rewrite (lookup_app_l_Some _ _ _ _ Hn).
Qed.

Lemma for_each_conv {A : Type} (l : list A) a r x w :
  ca_kernel_regularizer a = PyCallable r →
  for_each l (λ _ x, tf_layers_conv2d x a) x w
    = (Ok (conv_stack (length l) a r x w).1,
       (conv_stack (length l) a r x w).2).
Proof.
  intros Ha. revert x w. induction l as [|i l IH]; intros x w; [done|].
  cbn [for_each length conv_stack].
  erewrite bind_ok by (by apply tf_layers_conv2d_eq).
  apply IH.
Qed.

Lemma conv_stack_extends k a r x w :
  extends (2 * k) k w (conv_stack k a r x w).2.
Proof.
  revert x w. induction k as [|k IH]; intros x w.
  - apply extends_refl.
  - cbn [conv_stack].
    replace (2 * S k)%nat with (2 + 2 * k)%nat by lia.
    change (S k) with (1 + k)%nat.
    eapply extends_trans; [apply extends_conv_layer | apply IH].
Qed.

Lemma length_py_range a b : length (py_range a b) = Z.to_nat (b - a).
Proof. unfold py_range. by rewrite length_fmap, length_seq. Qed.

Lemma build_graph_facts self w m :
  heap w !! self = Some m →
  let n := length (nodes (graph w)) in
  ∃ wg k pre p,
    build_graph self w =
      (Ok (),
       set_obj self
         (set_inputs_preproc (λ _, inputs_preproc m ++ pre)
            (set_inputs (λ _, inputs m ++ [n]) m)) wg) ∧
    extends k 0 w wg ∧ (0 < k)%nat ∧
    heap wg = heap w ∧ scopes (graph wg) = scopes (graph w) ∧
    list.last pre = Some p ∧
    op_of (graph wg) n
      = Some (if rgba m then rgba_placeholder else gray_placeholder).
Proof.
  intros Hm n. destruct (rgba m) eqn:Hrgb.
  - rewrite (build_graph_rgba _ _ _ Hm Hrgb).
    exists (with_graph (add_nodes (rgba_nodes n)) w), 8%nat,
           [5 + n; 7 + n]%nat, (7 + n)%nat.
    split; [|repeat split; try done].
    + f_equal. f_equal. unfold set_inputs_preproc, set_inputs. cbn.
      by rewrite <- app_assoc.
    + eexists [_; _; _; _; _; _; _; _]. split; [|done]. cbn.
      by rewrite <- !app_assoc.
    + exists []. by rewrite app_nil_r.
    + lia.
    + unfold op_of. cbn. rewrite <- !app_assoc.
      rewrite lookup_app_r by done. by rewrite Nat.sub_diag.
  - rewrite (build_graph_gray _ _ _ Hm Hrgb).
    exists (with_graph (λ g, add_node (Cast n tf_float32
                                         (Some "cast/lr/gray_float"))
                               (add_node gray_placeholder g)) w),
           2%nat, [S n], (S n).
    split; [reflexivity|repeat split; try done].
    + eexists [_; _]. split; [|done]. cbn. by rewrite <- !app_assoc.
    + exists []. by rewrite app_nil_r.
    + lia.
    + unfold op_of. cbn. rewrite <- !app_assoc.
      rewrite lookup_app_r by done. by rewrite Nat.sub_diag.
Qed.

Lemma last_app_Some {A : Type} (l pre : list A) p :
  list.last pre = Some p → list.last (l ++ pre) = Some p.
Proof.
  intros H. destruct pre as [|a pre] using rev_ind; [done|].
  rewrite last_snoc in H. by rewrite app_assoc, last_snoc.
Qed.

Lemma Espcn_build_graph_facts self w m nm lay s0 s1 rest :
  heap w !! self = Some m → name m = Some nm → layers m = Some lay →
  scale m = s0 :: s1 :: rest →
  let n := length (nodes (graph w)) in
  ∃ wg K pre p h c x',
    Espcn_build_graph self w =
      (Ok (),
       set_obj self
         (set_outputs (λ _, outputs m ++ [h])
            (set_inputs_preproc (λ _, inputs_preproc m ++ pre)
               (set_inputs (λ _, inputs m ++ [n]) m))) wg) ∧
    extends K (espcn_conv_layers lay) w wg ∧
    heap wg = heap w ∧ scopes (graph wg) = scopes (graph w) ∧
    list.last pre = Some p ∧
    op_of (graph wg) n
      = Some (if rgba m then rgba_placeholder else gray_placeholder) ∧
    op_of (graph wg) h = Some (PixelShift c (scale m) 1) ∧
    op_of (graph wg) c
      = Some (Conv2D x' (espcn_conv (s0 * s1) 3 PyNone (decimal 1 10000))) ∧
    S h = length (nodes (graph wg)).
Proof.
  intros Hm Hnm Hlay Hsc n.
  set (r := regularizers_l2 (decimal 1 10000)).
  set (outer := scopes (graph w)).
  set (W0 := with_graph (set_scopes (outer ++ [nm])) w).
  assert (heap W0 !! self = Some m) as Hm0 by done.
  destruct (build_graph_facts self W0 m Hm0)
    as (wg1 & k & pre & p & E1 & X1 & Hk & Hh1 & Hs1 & Hp & Hop).
  set (m1 := set_inputs_preproc (λ _, inputs_preproc m ++ pre)
               (set_inputs (λ _, inputs m ++ [n]) m)) in *.
  set (W1 := set_obj self m1 wg1) in *.
  set (a1 := espcn_conv 64 5 (PyCallable nn_tanh) (decimal 1 10000)).
  set (a2 := espcn_conv 32 3 (PyCallable nn_tanh) (decimal 1 10000)).
  set (a3 := espcn_conv (s0 * s1) 3 PyNone (decimal 1 10000)).
  set (n1 := length (nodes (graph W1))).
  set (W2 := conv_layer p a1 r W1).
  set (kk := length (py_range 1 (lay - 1))).
  set (x2 := (conv_stack kk a2 r n1 W2).1).
  set (W3 := (conv_stack kk a2 r n1 W2).2).
  set (n3 := length (nodes (graph W3))).
  set (W4 := conv_layer x2 a3 r W3).
  set (h := length (nodes (graph W4))).
  set (W5 := with_graph (add_node (PixelShift n3 (scale m) 1)) W4).
  set (m2 := set_outputs (λ l, l ++ [h]) m1).
  assert (heap W1 !! self = Some m1) as Hm1 by apply heap_set_obj.
  assert (heap W3 = heap W1) as Hh3.
  { unfold W3. by destruct (conv_stack_heap kk a2 r n1 W2) as [-> _]. }
  assert (heap W3 !! self = Some m1) as Hm3 by by rewrite Hh3.
  assert (Espcn_build_graph self w
          = (Ok (), with_graph (set_scopes outer) (set_obj self m2 W5))) as E.
  { unfold Espcn_build_graph.
    erewrite bind_ok by (by apply get_attr_eq).
    rewrite Hnm. cbn [attribute]. rewrite bind_ret.
    unfold variable_scope. fold outer. fold W0.
    erewrite bind_ok by exact E1. fold W1.
    erewrite bind_ok by (by apply get_attr_eq).
    erewrite bind_ok
      by (apply index_last_ok; cbn; by apply last_app_Some).
    erewrite bind_ok by (by apply (tf_layers_conv2d_eq _ a1 _ r)).
    fold n1. change (with_graph _ (with_graph _ (with_graph _ W1)))
      with W2.
    erewrite bind_ok by (by apply get_attr_eq).
    cbn [layers set_inputs_preproc set_inputs m1]. rewrite Hlay.
    cbn [attribute]. rewrite bind_ret.
    erewrite bind_ok by (by apply (for_each_conv _ a2 r)).
    fold kk. fold x2. fold W3.
    erewrite bind_ok by (by apply get_attr_eq).
    cbn [scale set_inputs_preproc set_inputs m1]. rewrite Hsc.
    cbn [index lookup list_lookup]. rewrite bind_ret.
    erewrite bind_ok by (by apply get_attr_eq).
    cbn [scale set_inputs_preproc set_inputs m1]. rewrite Hsc.
    cbn [index lookup list_lookup]. rewrite bind_ret.
    erewrite bind_ok by (by apply (tf_layers_conv2d_eq _ a3 _ r)).
    fold n3. change (with_graph _ (with_graph _ (with_graph _ W3)))
      with W4.
    erewrite bind_ok by (by apply get_attr_eq).
    cbn [scale set_inputs_preproc set_inputs m1].
    erewrite bind_ok by (by apply emit_eq).
    fold h. fold W5.
    erewrite modify_self_eq by done.
    reflexivity. }
  set (wg := {| heap := heap w; graph := set_scopes outer (graph W5);
                default_session := default_session W5 |}).
  assert (extends 1 0 W4 wg) as X45.
  { repeat split; try done; [by eexists [_] | exists []; by rewrite app_nil_r]. }
  assert (extends 2 1 W3 W4) as X34 by apply extends_conv_layer.
  assert (extends (2 * kk) kk W2 W3) as X23 by apply conv_stack_extends.
  assert (extends 2 1 wg1 W2) as X12.
  { change 2%nat with (0 + 2)%nat. change 1%nat with (0 + 1)%nat.
    eapply extends_trans; [apply (extends_set_obj self m1)|].
    apply extends_conv_layer. }
  assert (extends k 0 w wg1) as X01.
  { change k with (0 + k)%nat. change 0%nat with (0 + 0)%nat at 2.
    eapply extends_trans; [apply (extends_set_scopes (outer ++ [nm]))|].
    exact X1. }
  pose proof (extends_trans _ _ _ _ _ _ _ X01
               (extends_trans _ _ _ _ _ _ _ X12
                 (extends_trans _ _ _ _ _ _ _ X23
                   (extends_trans _ _ _ _ _ _ _ X34 X45)))) as X.
  assert (kk = Z.to_nat (lay - 2)) as Hkk.
  { unfold kk. rewrite length_py_range. f_equal. lia. }
  replace (0 + (1 + (kk + (1 + 0))))%nat with (espcn_conv_layers lay) in X
    by (unfold espcn_conv_layers; lia).
  exists wg, (k + (2 + (2 * kk + (2 + 1))))%nat, pre, p, h, n3, x2.
  split; [|repeat split; try done].
  - rewrite E. f_equal. apply world_eq; cbn; [|done..].
    fold W1. rewrite Hh3. unfold W1. cbn.
    by rewrite insert_insert_eq, Hh1.
  - apply X.
  - apply X.
  - apply X.
  - apply X.
  - apply (extends_op_of _ _ wg1 wg n _
             (extends_trans _ _ _ _ _ _ _ X12
               (extends_trans _ _ _ _ _ _ _ X23
                 (extends_trans _ _ _ _ _ _ _ X34 X45))) Hop).
  - unfold op_of. cbn. rewrite lookup_app_r by done.
    fold h. by rewrite Nat.sub_diag.
  - apply (extends_op_of _ _ W4 wg n3 _ X45).
    unfold op_of, W4, conv_layer. cbn. fold n3.
    rewrite lookup_app_l by (rewrite length_app; simpl; lia).
    rewrite lookup_app_r by done. by rewrite Nat.sub_diag.
  - change (nodes (graph wg))
      with (nodes (graph W4)
              ++ [(scopes (graph W4), PixelShift n3 (scale m) 1)]).
    rewrite length_app. fold h. simpl. lia.
Qed.

(** ** [Espcn.build_summary] *)

Lemma dict_item_ok {V : Type} k (d : list (string * V)) v w :
  dict_get k d = Some v → dict_item k d w = (Ok v, w).
Proof. intros E. unfold dict_item. by rewrite E. Qed.

Lemma tf_summary_scalar_eq nm x w h :
  length (nodes (graph w)) = h →
  tf_summary_scalar nm x w =
    (Ok h, with_graph (add_summary h)
             (with_graph (add_node (SummaryScalar nm x)) w)).
Proof. by intros <-. Qed.

Lemma Espcn_build_summary_facts self w m :
  heap w !! self = Some m →
  (∀ mse reg psnr ssim,
     dict_get "mse" (metrics m) = Some mse →
     dict_get "regularization" (metrics m) = Some reg →
     dict_get "psnr" (metrics m) = Some psnr →
     dict_get "ssim" (metrics m) = Some ssim →
     let n := length (nodes (graph w)) in
     Espcn_build_summary self w = (Ok (), summary_world mse reg psnr ssim w) ∧
     summaries (graph (summary_world mse reg psnr ssim w))
       = summaries (graph w) ++ [n; 1 + n; 3 + n; 5 + n]%nat ∧
     heap (summary_world mse reg psnr ssim w) = heap w) ∧
  (dict_get "mse" (metrics m) = None →
   Espcn_build_summary self w = (Raise (KeyError "mse"), w)).
Proof.
  intros Hm. split.
  - intros mse reg psnr ssim H1 H2 H3 H4 n. split; [|split; [|done]].
    + unfold Espcn_build_summary, summary_world.
      exec_step. erewrite bind_ok by (by apply dict_item_ok).
      erewrite bind_ok by (by apply tf_summary_scalar_eq).
      exec_step. erewrite bind_ok by (by apply dict_item_ok).
      erewrite bind_ok by (apply tf_summary_scalar_eq; count_nodes).
      exec_step. erewrite bind_ok by (by apply dict_item_ok).
      exec_step.
      erewrite bind_ok by (apply tf_summary_scalar_eq; count_nodes).
      exec_step. erewrite bind_ok by (by apply dict_item_ok).
      exec_step.
      erewrite bind_ok by (apply tf_summary_scalar_eq; count_nodes).
      reflexivity.
    + unfold summary_world. cbn. by rewrite <- !app_assoc.
  - intros Hnone. unfold Espcn_build_summary.
    exec_step. apply bind_raise. unfold dict_item. by rewrite Hnone.
Qed.

(** ** [Espcn.build_loss] *)

Lemma nodes_add_node op g :
  nodes (add_node op g) = nodes g ++ [(scopes g, op)].
Proof. done. Qed.

Lemma Espcn_build_loss_facts self w m y_pred r rs :
  heap w !! self = Some m →
  list.last (outputs m) = Some y_pred →
  regularization_losses (graph w) = r :: rs →
  let n := length (nodes (graph w)) in
  ∃ w',
    Espcn_build_loss self w = (Ok (), w') ∧
    heap w' =
      <[self :=
          set_metrics
            (λ _, dict_set "ssim" (11 + n)%nat
                    (dict_set "psnr" (10 + n)%nat
                       (dict_set "regularization" (7 + n)%nat
                          (dict_set "mse" (2 + n)%nat (metrics m)))))
            (set_loss (λ _, loss m ++ [(9 + n)%nat])
               (set_label (λ _, label m ++ [n]) m))]> (heap w) ∧
    extends 12 0 w w' ∧
    scopes (graph w') = scopes (graph w).
Proof.
  intros Hm Hout Hregs n. unfold Espcn_build_loss, variable_scope.
  repeat exec_step. rewrite Hregs. cbn [tf_add_n].
  repeat exec_step.
  erewrite modify_self_eq by heap_lookup.
  eexists. split; [reflexivity|]. world_fields.
  split; [|split; [|done]].
  - rewrite !insert_insert_eq. reflexivity.
  - unfold extends. world_fields. repeat split; try done.
    + eexists. split; [|shelve]. world_fields.
      rewrite nodes_set_scopes, !nodes_add_node, nodes_set_scopes.
      rewrite <- !app_assoc. reflexivity.
      Unshelve. done.
    + exists []. by rewrite app_nil_r.
Qed.

(** X12: [Espcn.build_loss] on a model without outputs (no [build_graph]
    before) raises [IndexError], but only after it has created the label
    placeholder and appended it to [label]; the losses and the metrics are
    untouched and the variable scope is left again. *)
Theorem Espcn_build_loss_without_outputs self w m :
  heap w !! self = Some m → outputs m = [] →
  let n := length (nodes (graph w)) in
  ∃ w',
    Espcn_build_loss self w
      = (Raise (IndexError "list index out of range"), w') ∧
    heap w' = <[self := set_label (λ l, l ++ [n]) m]> (heap w) ∧
    extends 2 0 w w' ∧
    scopes (graph w') = scopes (graph w) ∧
    op_of (graph w') n
      = Some (Placeholder tf_uint8 (Some [None; None; None; Some 1]) None).
Proof.
  intros Hm Hout n. unfold Espcn_build_loss, variable_scope.
  repeat exec_step. rewrite Hout.
  eexists. split; [reflexivity|]. world_fields.
  split; [done|]. split; [|split; [done|]].
  - unfold extends. world_fields. repeat split; try done.
    + eexists. split; [|shelve]. world_fields.
      rewrite nodes_set_scopes, !nodes_add_node, nodes_set_scopes.
      rewrite <- !app_assoc. reflexivity.
      Unshelve. done.
    + exists []. by rewrite app_nil_r.
  - unfold op_of. rewrite nodes_set_scopes, !nodes_add_node, nodes_set_scopes.
    rewrite <- !app_assoc. rewrite lookup_app_r by done.
    by rewrite Nat.sub_diag.
Qed.

(** ** [compile] of an [Espcn] *)

Lemma op_of_lt g h op : op_of g h = Some op → (h < length (nodes g))%nat.
Proof.
  unfold op_of. intros H. apply (lookup_lt_is_Some_1 (nodes g) h).
  destruct (nodes g !! h); [by eexists | done].
Qed.

Lemma merge_all_nonempty w x xs :
  summaries (graph w) = x :: xs →
  tf_summary_merge_all w =
    (Ok (Some (length (nodes (graph w)))),
     with_graph (add_node (MergeSummary (x :: xs))) w).
Proof. intros E. unfold tf_summary_merge_all. by rewrite E. Qed.

Lemma extends_reg_nonempty k r w w' :
  extends k r w w' → (0 < r)%nat →
  ∃ x xs, regularization_losses (graph w') = x :: xs.
Proof.
  intros (_ & _ & _ & (rl & E & L)) Hr.
  destruct (regularization_losses (graph w')) as [|x xs] eqn:E'; [|eauto].
  symmetry in E. apply app_eq_nil in E as [_ ->]. simpl in L. lia.
Qed.

Lemma Espcn_compile_facts self w m nm lay s0 s1 rest :
  heap w !! self = Some m → cls m = EspcnClass →
  name m = Some nm → layers m = Some lay → scale m = s0 :: s1 :: rest →
  let n := length (nodes (graph w)) in
  ∃ w' pre l h t so v1 v2 v3 v4 ss,
    compile self w = (Ok self, w') ∧
    heap w' =
      <[self :=
          set_compiled true
            (set_summary_op (Some so)
               (set_metrics
                  (λ _, dict_set "ssim" v4
                          (dict_set "psnr" v3
                             (dict_set "regularization" v2
                                (dict_set "mse" v1 (metrics m)))))
                  (set_loss (λ _, loss m ++ [t])
                     (set_label (λ _, label m ++ [l])
                        (set_outputs (λ _, outputs m ++ [h])
                           (set_inputs_preproc
                              (λ _, inputs_preproc m ++ pre)
                              (set_inputs (λ _, inputs m ++ [n]) m)))))))]>
        (heap w) ∧
    pre ≠ [] ∧
    (n < l)%nat ∧ (l < length (nodes (graph w')))%nat ∧
    default_session w' = default_session w ∧
    scopes (graph w') = scopes (graph w) ∧
    length (regularization_losses (graph w'))
      = (length (regularization_losses (graph w)) + espcn_conv_layers lay)%nat ∧
    op_of (graph w') n
      = Some (if rgba m then rgba_placeholder else gray_placeholder) ∧
    op_of (graph w') l
      = Some (Placeholder tf_uint8 (Some [None; None; None; Some 1]) None) ∧
    op_of (graph w') so = Some (MergeSummary (summaries (graph w) ++ ss)) ∧
    length ss = 4%nat.
Proof.
  intros Hm Hcls Hnm Hlay Hsc n.
  destruct (Espcn_build_graph_facts self w m nm lay s0 s1 rest Hm Hnm Hlay Hsc)
    as (wgA & K & pre & p & h & c & x' & EA & XA & HhA & HsA & Hp & HopA & _).
  set (mA := set_outputs (λ _, outputs m ++ [h])
               (set_inputs_preproc (λ _, inputs_preproc m ++ pre)
                  (set_inputs (λ _, inputs m ++ [n]) m))) in *.
  set (WA := set_obj self mA wgA) in *.
  assert (heap WA !! self = Some mA) as HmA by apply heap_set_obj.
  destruct (extends_reg_nonempty _ _ _ _ XA) as (r & rs & Hreg).
  { unfold espcn_conv_layers. lia. }
  destruct (Espcn_build_loss_facts self WA mA h r rs HmA)
    as (WB & EB & HhB & XB & HsB); [apply last_snoc | exact Hreg |].
  set (nB := length (nodes (graph WA))) in *.
  set (mB := set_metrics _ _) in HhB.
  assert (heap WB !! self = Some mB) as HmB
    by (rewrite HhB; apply lookup_insert_eq).
  destruct (Espcn_build_summary_facts self WB mB HmB) as [HC _].
  destruct (HC (2 + nB) (7 + nB) (10 + nB) (11 + nB))%nat
    as (EC & HsumC & HhC);
    try (unfold mB; cbn [metrics set_metrics set_loss set_label];
         rewrite !dict_get_set; reflexivity).
  set (WC := summary_world _ _ _ _ WB) in *.
  set (nC := length (nodes (graph WB))) in *.
  assert (summaries (graph WB) = summaries (graph w)) as HsumB.
  { destruct XB as (_ & -> & _). cbn. by destruct XA as (_ & -> & _). }
  destruct (summaries (graph WC)) as [|sx sxs] eqn:HsC.
  { rewrite HsumC in HsC. by destruct (summaries (graph WB)). }
  pose proof (merge_all_nonempty WC sx sxs HsC) as ED.
  set (so := length (nodes (graph WC))) in *.
  set (WD := with_graph (add_node (MergeSummary (sx :: sxs))) WC) in *.
  assert (heap WC !! self = Some mB) as HmC by by rewrite HhC.
  assert (compile self w
          = (Ok self,
             set_obj self (set_compiled true (set_summary_op (Some so) mB))
               WD)) as E.
  { unfold compile. erewrite bind_ok by (by apply get_attr_eq).
    rewrite Hcls. by apply compile_with_ok with WA WB WC. }
  destruct (extends_length _ _ _ _ XA) as [LA RA].
  destruct (extends_length _ _ _ _ XB) as [LB RB].
  assert (length (nodes (graph WC)) = (length (nodes (graph WB)) + 6)%nat)
    as LC.
  { unfold WC, summary_world. cbn. rewrite !length_app. simpl. lia. }
  assert (0 < K)%nat as HK.
  { pose proof (op_of_lt _ _ _ HopA) as Hlt. rewrite LA in Hlt.
    unfold n in Hlt. lia. }
  set (Wend := set_obj self (set_compiled true (set_summary_op (Some so) mB))
                 WD).
  assert (∃ added, nodes (graph Wend) = nodes (graph WB) ++ added ∧
                   length added = 7%nat) as (added & ND & LD).
  { unfold Wend, WD, WC, summary_world. eexists. split; [|shelve].
    world_fields.
    rewrite !nodes_add_node. cbn [nodes add_summary].
    rewrite !nodes_add_node. cbn [nodes add_summary].
    rewrite !nodes_add_node. cbn [nodes add_summary].
    rewrite !nodes_add_node. cbn [nodes add_summary].
    rewrite !nodes_add_node.
    rewrite <- !app_assoc. reflexivity.
    Unshelve. done. }
  assert (∀ i op, op_of (graph WB) i = Some op →
                  op_of (graph Wend) i = Some op) as Hkeep.
  { intros i op. unfold op_of. rewrite ND. intros H.
    destruct (nodes (graph WB) !! i) as [nd|] eqn:Hn; [|done].
    by rewrite (lookup_app_l_Some _ _ _ _ Hn). }
  destruct (Espcn_build_loss_eq self WA mA h r rs HmA)
    as (WB' & mB' & EB' & HnB & _); [apply last_snoc | exact Hreg |].
  rewrite EB in EB'. injection EB' as <-.
  exists Wend, pre, nB, h, (9 + nB)%nat, so,
         (2 + nB)%nat, (7 + nB)%nat, (10 + nB)%nat, (11 + nB)%nat,
         [nC; 1 + nC; 3 + nC; 5 + nC]%nat.
  split; [exact E|]. split; [|repeat split].
  - unfold Wend, WD. world_fields. rewrite HhC, HhB. unfold WA. world_fields.
    by rewrite !insert_insert_eq, HhA.
  - intros ->. done.
  - unfold nB, WA. world_fields. rewrite LA. unfold n. lia.
  - rewrite ND, length_app, LD, LB. fold nB. lia.
  - unfold Wend, WD, WC, summary_world. world_fields.
    destruct XB as (-> & _). unfold WA.
    world_fields. by destruct XA as (-> & _).
  - unfold Wend, WD, WC, summary_world. world_fields.
    cbn [scopes add_node add_summary].
    rewrite HsB. unfold WA. world_fields. exact HsA.
  - unfold Wend, WD, WC, summary_world. world_fields.
    cbn [regularization_losses add_node add_summary].
    rewrite RB. unfold WA. world_fields. rewrite RA. lia.
  - apply Hkeep. by apply (extends_op_of _ _ WA _ _ _ XB).
  - apply Hkeep.
    replace nB with (length (nodes (graph WA)) + 0)%nat by (unfold nB; lia).
    by apply (op_of_added _ _ _ _ _ HnB).
  - unfold op_of, Wend, WD. world_fields. rewrite nodes_add_node.
    rewrite lookup_app_r by done. fold so. rewrite Nat.sub_diag.
    rewrite HsumC, HsumB. reflexivity.
Qed.

Lemma SuperResolution_init_facts c lay nm scale_arg wd rgb_input kw w :
  let n := length (nodes (graph w)) in
  let self := fresh (dom (heap w) : gset loc) in
  ∃ wg,
    SuperResolution_init c lay nm scale_arg wd rgb_input kw w =
      (Ok self,
       set_obj self
         (constructed_object c lay nm (to_list scale_arg 2) wd rgb_input kw n)
         wg) ∧
    heap w !! self = None ∧
    extends 3 0 w wg ∧ heap wg = heap w ∧
    scopes (graph wg) = scopes (graph w).
Proof.
  intros n self. unfold SuperResolution_init.
  repeat exec_step. eexists. split; [reflexivity|].
  split; [apply (not_elem_of_dom (D := gset loc)), is_fresh|].
  split; [|done]. unfold extends. world_fields. repeat split; try done.
  - eexists. split; [|shelve]. rewrite !nodes_add_node.
    rewrite <- !app_assoc. reflexivity.
    Unshelve. done.
  - exists []. by rewrite app_nil_r.
Qed.

Lemma dict_set_keys_mono {V : Type} k (v : V) d k' :
  k' ∈ dict_keys d → k' ∈ dict_keys (dict_set k v d).
Proof.
  intros H. rewrite dict_set_keys. case_bool_decide; [done|].
  apply elem_of_app. by left.
Qed.

Lemma dict_set_keys_same {V : Type} k (v : V) d :
  k ∈ dict_keys d → dict_keys (dict_set k v d) = dict_keys d.
Proof. intros H. rewrite dict_set_keys. by rewrite bool_decide_eq_true_2. Qed.

Lemma dict_set_keys_in {V : Type} k (v : V) d : k ∈ dict_keys (dict_set k v d).
Proof.
  rewrite dict_set_keys. case_bool_decide; [done|].
  apply elem_of_app. right. apply list_elem_of_here.
Qed.

(** X10: on an [Espcn] whose scale has two entries, [build_graph] returns.
    It creates the input placeholder of the base class and appends it to
    the inputs, adds [2 + max(0, layers - 2)] convolution layers, each
    with its regularization loss, the last with [scale[0] * scale[1]]
    filters and no activation, and appends the pixel shift of that last
    layer, the last node created, to the outputs.  The labels, losses and
    metrics, the other objects and the variable scope are as before. *)
Theorem Espcn_build_graph_ok self w m nm lay s0 s1 rest :
  heap w !! self = Some m → name m = Some nm → layers m = Some lay →
  scale m = s0 :: s1 :: rest →
  let n := length (nodes (graph w)) in
  ∃ w' m' h c x',
    Espcn_build_graph self w = (Ok (), w') ∧
    heap w' = <[self := m']> (heap w) ∧
    inputs m' = inputs m ++ [n] ∧ outputs m' = outputs m ++ [h] ∧
    label m' = label m ∧ loss m' = loss m ∧ metrics m' = metrics m ∧
    compiled m' = compiled m ∧
    op_of (graph w') n
      = Some (if rgba m then rgba_placeholder else gray_placeholder) ∧
    op_of (graph w') h = Some (PixelShift c (scale m) 1) ∧
    op_of (graph w') c
      = Some (Conv2D x' (espcn_conv (s0 * s1) 3 PyNone (decimal 1 10000))) ∧
    S h = length (nodes (graph w')) ∧
    length (regularization_losses (graph w'))
      = (length (regularization_losses (graph w))
         + 2 + Z.to_nat (lay - 2))%nat ∧
    scopes (graph w') = scopes (graph w).
Proof.
  intros Hm Hnm Hlay Hsc n.
  destruct (Espcn_build_graph_facts self w m nm lay s0 s1 rest
              Hm Hnm Hlay Hsc)
    as (wg & K & pre & p & h & c & x' & E & X & Hh & Hs & _ & O1 & O2 & O3
        & Hlast).
  destruct (extends_length _ _ _ _ X) as [_ R].
  eexists _, _, h, c, x'. split; [exact E|].
  world_fields. rewrite Hh. split; [reflexivity|].
  repeat split; try done.
  rewrite R. unfold espcn_conv_layers. lia.
Qed.

(** X11: [Espcn.build_summary] needs the four metrics of [build_loss].
    When [metrics] has them it creates six nodes, registers four of them
    as scalar summaries (the PSNR and the SSIM each through its mean) and
    leaves the heap alone; when ['mse'] is missing (no [build_loss]
    before) it raises [KeyError] and nothing is added. *)
Theorem Espcn_build_summary_needs_metrics self w m mse reg psnr ssim :
  heap w !! self = Some m →
  (dict_get "mse" (metrics m) = Some mse →
   dict_get "regularization" (metrics m) = Some reg →
   dict_get "psnr" (metrics m) = Some psnr →
   dict_get "ssim" (metrics m) = Some ssim →
   let n := length (nodes (graph w)) in
   ∃ w', Espcn_build_summary self w = (Ok (), w') ∧
         heap w' = heap w ∧
         summaries (graph w')
           = summaries (graph w) ++ [n; 1 + n; 3 + n; 5 + n]%nat ∧
         op_of (graph w') n = Some (SummaryScalar "loss/mse" mse) ∧
         op_of (graph w') (1 + n)
           = Some (SummaryScalar "loss/regularization" reg) ∧
         op_of (graph w') (2 + n) = Some (ReduceMean psnr) ∧
         op_of (graph w') (3 + n) = Some (SummaryScalar "psnr" (2 + n)) ∧
         op_of (graph w') (4 + n) = Some (ReduceMean ssim) ∧
         op_of (graph w') (5 + n) = Some (SummaryScalar "ssim" (4 + n)) ∧
         length (nodes (graph w')) = (6 + n)%nat)%nat ∧
  (dict_get "mse" (metrics m) = None →
   Espcn_build_summary self w = (Raise (KeyError "mse"), w)).
Proof.
  intros Hm. destruct (Espcn_build_summary_facts self w m Hm) as [Hok Hko].
  split; [|exact Hko].
  intros H1 H2 H3 H4 n.
  destruct (Hok mse reg psnr ssim H1 H2 H3 H4) as (E & Hs & Hh).
  exists (summary_world mse reg psnr ssim w).
  split; [exact E|]. split; [exact Hh|]. split; [exact Hs|].
  assert ((nodes (graph (summary_world mse reg psnr ssim w))).*2
          = (nodes (graph w)).*2 ++
            [ SummaryScalar "loss/mse" mse;
              SummaryScalar "loss/regularization" reg;
              ReduceMean psnr; SummaryScalar "psnr" (2 + n)%nat;
              ReduceMean ssim; SummaryScalar "ssim" (4 + n)%nat ]) as Hn.
  { unfold summary_world. cbn. rewrite !fmap_app. cbn.
    by rewrite <- !app_assoc. }
  assert (∀ k op,
            [ SummaryScalar "loss/mse" mse;
              SummaryScalar "loss/regularization" reg;
              ReduceMean psnr; SummaryScalar "psnr" (2 + n)%nat;
              ReduceMean ssim; SummaryScalar "ssim" (4 + n)%nat ] !! k
              = Some op →
            op_of (graph (summary_world mse reg psnr ssim w)) (k + n)
              = Some op) as Hop.
  { intros k op Hk. rewrite (Nat.add_comm k n).
    by apply (op_of_added _ _ _ _ _ Hn). }
  repeat split; try (by apply (Hop 0%nat)); try (by apply (Hop 1%nat));
    try (by apply (Hop 2%nat)); try (by apply (Hop 3%nat));
    try (by apply (Hop 4%nat)); try (by apply (Hop 5%nat)).
  rewrite <- (length_fmap snd), Hn, length_app, length_fmap. simpl.
  unfold n. lia.
Qed.

(** X13: [compile] of an [Espcn] whose scale has two entries returns the
    object itself, from any world.  The model gains one input, one label,
    one output and one training operation, its metrics have the names
    [mse], [regularization], [psnr] and [ssim], its summary handle is the
    merge of the summaries collected before and four new ones, and it is
    marked compiled.  The configuration of the model, the other objects,
    the session and the variable scope are as they were. *)
Theorem Espcn_compile_ok self w m nm lay s0 s1 rest :
  heap w !! self = Some m → cls m = EspcnClass →
  name m = Some nm → layers m = Some lay → scale m = s0 :: s1 :: rest →
  ∃ w' m' so ss,
    compile self w = (Ok self, w') ∧
    heap w' = <[self := m']> (heap w) ∧
    compiled m' = true ∧ summary_op m' = Some so ∧
    op_of (graph w') so = Some (MergeSummary (summaries (graph w) ++ ss)) ∧
    length ss = 4%nat ∧
    length (inputs m') = S (length (inputs m)) ∧
    length (label m') = S (length (label m)) ∧
    length (outputs m') = S (length (outputs m)) ∧
    length (loss m') = S (length (loss m)) ∧
    (∀ k, k ∈ espcn_metric_names → k ∈ dict_keys (metrics m')) ∧
    (metrics m = [] → dict_keys (metrics m') = espcn_metric_names) ∧
    scale m' = scale m ∧ weight_decay m' = weight_decay m ∧
    rgba m' = rgba m ∧ training_phase m' = training_phase m ∧
    learning_rate m' = learning_rate m ∧
    default_session w' = default_session w ∧
    scopes (graph w') = scopes (graph w).
Proof.
  intros Hm Hcls Hnm Hlay Hsc.
  destruct (Espcn_compile_facts self w m nm lay s0 s1 rest
              Hm Hcls Hnm Hlay Hsc)
    as (w' & pre & l & h & t & so & v1 & v2 & v3 & v4 & ss & E & Hh & _ & _
        & _ & Hses & Hscp & _ & _ & _ & Hso & Hss).
  eexists w', _, so, ss. split; [exact E|]. split; [exact Hh|].
  cbn [compiled summary_op inputs label outputs loss metrics scale
       weight_decay rgba training_phase learning_rate
       set_compiled set_summary_op set_metrics set_loss set_label
       set_outputs set_inputs_preproc set_inputs].
  rewrite !length_app. cbn [length].
  repeat split; try done; try lia.
  - intros k Hk. unfold espcn_metric_names in Hk.
    repeat (apply elem_of_cons in Hk as [->|Hk];
            [eauto 6 using @dict_set_keys_in, @dict_set_keys_mono|]).
    by apply elem_of_nil in Hk.
  - intros ->. reflexivity.
Qed.

Lemma Espcn_compiled_facts scale_arg lay nm wd rgb_input kw w s0 s1 rest :
  to_list scale_arg 2 = s0 :: s1 :: rest →
  let n := length (nodes (graph w)) in
  let self := fresh (dom (heap w) : gset loc) in
  ∃ w' pre l h t so v1 v2 v3 v4,
    Espcn_compiled scale_arg lay nm wd rgb_input kw w = (Ok self, w') ∧
    heap w !! self = None ∧
    heap w' =
      <[self :=
          set_compiled true
            (set_summary_op (Some so)
               (set_metrics
                  (λ _, dict_set "ssim" v4
                          (dict_set "psnr" v3
                             (dict_set "regularization" v2
                                (dict_set "mse" v1 []))))
                  (set_loss (λ _, [t])
                     (set_label (λ _, [l])
                        (set_outputs (λ _, [h])
                           (set_inputs_preproc (λ _, pre)
                              (set_inputs (λ _, [3 + n]%nat)
                                 (constructed_object EspcnClass (Some lay)
                                    (Some nm) (s0 :: s1 :: rest) wd
                                    rgb_input kw n))))))))]>
        (heap w) ∧
    (3 + n < l)%nat ∧
    default_session w' = default_session w ∧
    scopes (graph w') = scopes (graph w).
Proof.
  intros Hsc n self. unfold Espcn_compiled, Espcn_init.
  destruct (SuperResolution_init_facts EspcnClass (Some lay) (Some nm)
              scale_arg wd rgb_input kw w)
    as (wg & E0 & Hfresh & X0 & Hh0 & Hs0).
  fold n in E0. fold self in E0, Hfresh. rewrite Hsc in E0.
  set (m0 := constructed_object _ _ _ _ _ _ _ _) in E0.
  erewrite bind_ok by exact E0.
  destruct (Espcn_compile_facts self (set_obj self m0 wg) m0 nm lay s0 s1 rest)
    as (w' & pre & l & h & t & so & v1 & v2 & v3 & v4 & ss & E & Hh & _ & Hl
        & _ & Hses & Hscp & _); try done; [apply heap_set_obj|].
  destruct (extends_length _ _ _ _ X0) as [L0 _].
  exists w', pre, l, h, t, so, v1, v2, v3, v4.
  split; [exact E|]. split; [exact Hfresh|]. split; [|split; [|split]].
  - rewrite Hh. world_fields. rewrite insert_insert_eq, Hh0.
    assert (length (nodes (graph wg)) = (3 + n)%nat) as -> by (unfold n; lia).
    reflexivity.
  - revert Hl. world_fields. rewrite L0. unfold n. lia.
  - rewrite Hses. world_fields. by destruct X0 as (-> & _).
  - rewrite Hscp. world_fields. exact Hs0.
Qed.

(** X14: constructing an [Espcn] with an integer scale, or with a sequence
    of at least two, and compiling it always returns, in any world.  The
    new model is compiled, has one input, one label, one output and one
    training operation, metrics named [mse], [regularization], [psnr] and
    [ssim], and its training-phase, learning-rate, input and label
    placeholders are four different tensors. *)
Theorem fresh_Espcn_compiles scale_arg lay nm wd rgb_input kw w s0 s1 rest :
  to_list scale_arg 2 = s0 :: s1 :: rest →
  ∃ self w' m',
    Espcn_compiled scale_arg lay nm wd rgb_input kw w = (Ok self, w') ∧
    heap w !! self = None ∧
    heap w' = <[self := m']> (heap w) ∧
    compiled m' = true ∧ is_Some (summary_op m') ∧
    length (inputs m') = 1%nat ∧ length (label m') = 1%nat ∧
    length (outputs m') = 1%nat ∧ length (loss m') = 1%nat ∧
    dict_keys (metrics m') = espcn_metric_names ∧
    NoDup (training_phase m' :: learning_rate m' :: inputs m' ++ label m') ∧
    scale m' = s0 :: s1 :: rest ∧ weight_decay m' = wd ∧
    rgba m' = rgb_input ∧
    default_session w' = default_session w ∧
    scopes (graph w') = scopes (graph w).
Proof.
  intros Hsc.
  destruct (Espcn_compiled_facts scale_arg lay nm wd rgb_input kw w s0 s1
              rest Hsc)
    as (w' & pre & l & h & t & so & v1 & v2 & v3 & v4 & E & Hf & Hh & Hl
        & Hses & Hscp).
  eexists _, w', _. split; [exact E|]. split; [exact Hf|].
  split; [exact Hh|].
  cbn [compiled summary_op inputs label outputs loss metrics scale
       weight_decay rgba training_phase learning_rate constructed_object
       set_compiled set_summary_op set_metrics set_loss set_label
       set_outputs set_inputs_preproc set_inputs app].
  repeat split; try done.
  repeat (apply NoDup_cons_2;
          [rewrite ?not_elem_of_cons; repeat split; try lia;
           apply not_elem_of_nil|]).
  apply NoDup_nil_2.
Qed.

(** ** From construction to the first batch *)

(** X15: the first batches of an [Espcn] that has just been constructed
    (integer scale, or a sequence of at least two) and compiled, in any
    world.  With one feature array and one label array [train_batch]
    passes its two binding loops and asks the session for one run: the
    four metrics followed by the training operation are fetched, and
    exactly four different placeholders are fed, the training phase with
    [True], the learning rate, the input and the label.  With one input
    array and no label [test_batch] asks for the single output, feeding
    the training phase with [False] and the input.  What the run gives
    back, or whether it raises, is the session's part; [train_batch]
    names the values [mse], [regularization], [psnr] and [ssim]. *)
Theorem Espcn_first_batch_requests
    scale_arg lay nm wd rgb_input kw w (x y : ndarray) lr s0 s1 rest :
  to_list scale_arg 2 = s0 :: s1 :: rest →
  ∃ self w' m' i l,
    Espcn_compiled scale_arg lay nm wd rgb_input kw w = (Ok self, w') ∧
    heap w' !! self = Some m' ∧
    inputs m' = [i] ∧ label m' = [l] ∧
    NoDup [training_phase m'; learning_rate m'; i; l] ∧
    length (dict_values (metrics m') ++ loss m') = 5%nat ∧
    length (outputs m') = 1%nat ∧
    train_batch self (ArgOne x) (ArgOne y) lr w'
      = (vals ← run (dict_values (metrics m') ++ loss m')
                  (<[l := FeedArray y]>
                     (<[i := FeedArray x]>
                        (<[learning_rate m' := FeedFloat lr]>
                           (<[training_phase m' := FeedBool true]> ∅))));
         mret (dict_of_zip espcn_metric_names vals)) w' ∧
    test_batch self (ArgOne x) ArgNone w'
      = run (outputs m')
          (<[i := FeedArray x]> (<[training_phase m' := FeedBool false]> ∅))
          w'.
Proof.
  intros Hsc.
  destruct (Espcn_compiled_facts scale_arg lay nm wd rgb_input kw w s0 s1
              rest Hsc)
    as (w' & pre & l & h & t & so & v1 & v2 & v3 & v4 & E & _ & Hh & Hl & _).
  set (self := fresh (dom (heap w) : gset loc)) in *.
  set (n := length (nodes (graph w))) in *.
  set (m' := set_compiled _ _) in Hh.
  assert (heap w' !! self = Some m') as Hm'
    by (rewrite Hh; apply lookup_insert_eq).
  exists self, w', m', (3 + n)%nat, l.
  split; [exact E|]. split; [exact Hm'|].
  split; [reflexivity|]. split; [reflexivity|].
  split.
  { cbn [m' training_phase learning_rate constructed_object
         set_compiled set_summary_op set_metrics set_loss set_label
         set_outputs set_inputs_preproc set_inputs].
    repeat (apply NoDup_cons_2;
            [rewrite ?not_elem_of_cons; repeat split; try lia;
             apply not_elem_of_nil|]).
    apply NoDup_nil_2. }
  split; [reflexivity|]. split; [reflexivity|].
  split.
  - unfold train_batch.
    erewrite !(bind_ok (get_attr _ _)) by (by apply get_attr_eq).
    erewrite bind_ok by (by apply feed_arrays_eq).
    erewrite bind_ok by (by apply feed_arrays_eq).
    erewrite !(bind_ok (get_attr _ _)) by (by apply get_attr_eq).
    change (feed_all (label m') (to_list (ArgOne y) 1)
              (feed_all (inputs m') (to_list (ArgOne x) 1) ?fd))
      with (<[l := FeedArray y]> (<[(3 + n)%nat := FeedArray x]> fd)).
    match goal with |- (run ?f ?fd ≫= _) _ = _ =>
      pose proof (run_same_model f fd w') as [Hrh _];
      destruct (run f fd w') as [[vals|e] w''] eqn:Er
    end.
    + rewrite !(bind_ok _ _ _ _ _ Er). cbn [snd] in Hrh.
      erewrite bind_ok by (apply get_attr_eq; by rewrite Hrh).
      reflexivity.
    + by rewrite !(bind_raise _ _ _ _ _ Er).
  - unfold test_batch.
    erewrite bind_ok by (by apply get_attr_eq).
    erewrite bind_ok by (by apply feed_arrays_eq).
    cbn [to_list list_truthy]. cbv iota.
    erewrite bind_ok by (by apply get_attr_eq).
    reflexivity.
Qed.

(** X16: [compile] does not guard against a second call.  On an [Espcn]
    whose scale has two entries a second [compile] returns as well; the
    model then has two more inputs, labels, outputs and training
    operations than before the first, its metric names are those of the
    first [compile], and a batch with one feature array more than the
    model had inputs at the start is now refused with [IndexError]. *)
Theorem Espcn_compile_twice self w m nm lay s0 s1 rest :
  heap w !! self = Some m → cls m = EspcnClass →
  name m = Some nm → layers m = Some lay → scale m = s0 :: s1 :: rest →
  ∃ w1 m1 w2 m2,
    compile self w = (Ok self, w1) ∧ heap w1 = <[self := m1]> (heap w) ∧
    compile self w1 = (Ok self, w2) ∧ heap w2 = <[self := m2]> (heap w) ∧
    compiled m2 = true ∧
    length (inputs m2) = S (S (length (inputs m))) ∧
    length (label m2) = S (S (length (label m))) ∧
    length (outputs m2) = S (S (length (outputs m))) ∧
    length (loss m2) = S (S (length (loss m))) ∧
    dict_keys (metrics m2) = dict_keys (metrics m1) ∧
    (∀ (feature label_arg : pyarg ndarray) lr,
       length (to_list feature 1) = S (length (inputs m)) →
       train_batch self feature label_arg lr w2
         = (Raise (IndexError "list index out of range"), w2)).
Proof.
  intros Hm Hcls Hnm Hlay Hsc.
  destruct (Espcn_compile_facts self w m nm lay s0 s1 rest
              Hm Hcls Hnm Hlay Hsc)
    as (w1 & pre1 & l1 & h1 & t1 & so1 & a1 & a2 & a3 & a4 & ss1 & E1 & Hh1
        & _).
  set (m1 := set_compiled _ _) in Hh1.
  assert (heap w1 !! self = Some m1) as Hm1
    by (rewrite Hh1; apply lookup_insert_eq).
  destruct (Espcn_compile_facts self w1 m1 nm lay s0 s1 rest Hm1)
    as (w2 & pre2 & l2 & h2 & t2 & so2 & b1 & b2 & b3 & b4 & ss2 & E2 & Hh2
        & _); [try reflexivity; try assumption..|].
  set (m2 := set_compiled _ _) in Hh2.
  exists w1, m1, w2, m2.
  split; [exact E1|]. split; [exact Hh1|]. split; [exact E2|].
  split; [rewrite Hh2, Hh1, insert_insert_eq; reflexivity|].
  cbn [m2 m1 compiled inputs label outputs loss metrics
       set_compiled set_summary_op set_metrics set_loss set_label
       set_outputs set_inputs_preproc set_inputs].
  rewrite !length_app. cbn [length].
  repeat split; try lia.
  - set (d1 := dict_set "ssim" a4 _).
    assert (∀ k, k ∈ espcn_metric_names → k ∈ dict_keys d1) as Hin.
    { intros k Hk. unfold espcn_metric_names in Hk. unfold d1.
      repeat (apply elem_of_cons in Hk as [->|Hk];
              [eauto 6 using @dict_set_keys_in, @dict_set_keys_mono|]).
      by apply elem_of_nil in Hk. }
    clearbody d1.
    rewrite !dict_set_keys_same; [reflexivity|..];
      repeat apply dict_set_keys_mono; apply Hin;
      unfold espcn_metric_names; rewrite !elem_of_cons; tauto.
  - intros feature label_arg lr Hlen.
    assert (heap w2 !! self = Some m2) as Hm2
      by (rewrite Hh2; apply lookup_insert_eq).
    unfold train_batch.
    erewrite !(bind_ok (get_attr _ _)) by (by apply get_attr_eq).
    apply bind_raise. apply feed_arrays_short with m2; [done|].
    cbn [m2 m1 inputs set_compiled set_summary_op set_metrics set_loss
         set_label set_outputs set_inputs_preproc set_inputs].
    rewrite !length_app. cbn [length]. lia.
Qed.

(** ** The values of the pre-processed inputs *)

Lemma pixel_values_length g feed :
  length (pixel_values g feed) = length (nodes g).
Proof.
  unfold pixel_values. generalize (nodes g). intros ns.
  induction ns as [|nd ns IH] using rev_ind; [done|].
  rewrite foldl_app. cbn. rewrite !length_app, IH. done.
Qed.

Lemma pixel_values_step op g feed (V l : list (option pixel)) :
  pixel_values g feed = V ++ l →
  pixel_values (add_node op g) feed
  = V ++ l ++ [node_value (V ++ l) feed (length l + length V) op].
Proof.
  intros H. unfold pixel_values at 1. cbn [add_node nodes].
  rewrite foldl_app. cbn [foldl snd]. fold (pixel_values g feed).
  rewrite H, app_assoc. do 3 f_equal. rewrite length_app. lia.
Qed.

Lemma value_of_app (vals l : list (option pixel)) k :
  value_of (vals ++ l) (k + length vals) = value_of l k.
Proof.
  unfold value_of. rewrite lookup_app_r by lia.
  by replace (k + length vals - length vals)%nat with k by lia.
Qed.

Lemma value_of_app_0 (vals l : list (option pixel)) :
  value_of (vals ++ l) (length vals) = value_of l 0.
Proof. apply (value_of_app vals l 0). Qed.

Lemma py_slice_drop_last {A : Type} (x0 x1 x2 x3 : A) :
  py_slice None (Some (-1)) [x0; x1; x2; x3] = [x0; x1; x2].
Proof. reflexivity. Qed.

Lemma py_slice_from_1 {A : Type} (x0 x1 x2 : A) :
  py_slice (Some 1) None [x0; x1; x2] = [x1; x2].
Proof. reflexivity. Qed.

Lemma py_slice_first {A : Type} (x0 x1 x2 : A) :
  py_slice (Some 0) (Some 1) [x0; x1; x2] = [x0].
Proof. reflexivity. Qed.

Lemma gray_pixel_values g feed px :
  let n := length (nodes g) in
  feed !! n = Some px →
  pixel_values
    (add_node (Cast n tf_float32 (Some "cast/lr/gray_float"))
       (add_node gray_placeholder g)) feed
  = pixel_values g feed ++ [Some px; Some px].
Proof.
  intros n. subst n. rewrite <- (pixel_values_length g feed).
  set (V := pixel_values g feed). intros Hf.
  assert (pixel_values g feed = V ++ []) as H0 by by rewrite app_nil_r.
  pose proof (pixel_values_step gray_placeholder _ _ _ _ H0) as H1.
  cbn [app length node_value gray_placeholder Nat.add] in H1.
  rewrite Hf in H1.
  pose proof (pixel_values_step
                (Cast (length V) tf_float32 (Some "cast/lr/gray_float"))
                _ _ _ _ H1) as H2.
  cbn [app length node_value] in H2. rewrite value_of_app_0 in H2.
  exact H2.
Qed.

Lemma pixel_at_app g feed (V0 V : list (option pixel)) k n px :
  pixel_values g feed = V0 ++ V → length V0 = n →
  V !! k = Some (Some px) →
  pixel_at g feed (k + n) = Some px.
Proof.
  intros H <- Hk. unfold pixel_at. rewrite H, value_of_app.
  unfold value_of. by rewrite Hk.
Qed.

(** X17: in grayscale mode [build_graph] adds one input and one
    pre-processed input, the cast of that input to float.  The cast does
    not rescale: whatever pixel is fed to the new placeholder is the value
    of the pre-processed input, in any world. *)
Theorem build_graph_gray_keeps_pixel self w m feed px :
  heap w !! self = Some m → rgba m = false →
  let n := length (nodes (graph w)) in
  feed !! n = Some px →
  ∃ w' m' p,
    build_graph self w = (Ok (), w') ∧
    heap w' !! self = Some m' ∧
    inputs m' = inputs m ++ [n] ∧
    inputs_preproc m' = inputs_preproc m ++ [p] ∧
    op_of (graph w') n = Some gray_placeholder ∧
    pixel_at (graph w') feed p = Some px.
Proof.
  intros Hm Hrgb n Hf.
  eexists _, _, (S n). split; [exact (build_graph_gray self w m Hm Hrgb)|].
  split; [apply heap_set_obj|].
  split; [reflexivity|]. split; [reflexivity|]. split.
  - unfold op_of. cbn. rewrite <- app_assoc.
    rewrite lookup_app_r by done. fold n. by rewrite Nat.sub_diag.
  - cbn [graph set_obj with_graph].
    pose proof (gray_pixel_values (graph w) feed px Hf) as HV.
    exact (pixel_at_app _ _ _ _ 1 n px HV (pixel_values_length _ _)
             eq_refl).
Qed.

Lemma pixel_values_in_length A g feed :
  length (pixel_values_in A g feed) = length (nodes g).
Proof.
  unfold pixel_values_in. generalize (nodes g). intros ns.
  induction ns as [|nd ns IH] using rev_ind; [done|].
  rewrite foldl_app. cbn. rewrite !length_app, IH. done.
Qed.

Lemma pixel_values_in_step A op g feed (V l : list (option pixel)) :
  pixel_values_in A g feed = V ++ l →
  pixel_values_in A (add_node op g) feed
  = V ++ l ++ [node_value_in A (V ++ l) feed (length l + length V) op].
Proof.
  intros H. unfold pixel_values_in at 1. cbn [add_node nodes].
  rewrite foldl_app. cbn [foldl snd]. fold (pixel_values_in A g feed).
  rewrite H, app_assoc. do 3 f_equal. rewrite length_app. lia.
Qed.

Lemma pixel_at_in_app A g feed (V0 V : list (option pixel)) k n px :
  pixel_values_in A g feed = V0 ++ V → length V0 = n →
  V !! k = Some (Some px) →
  pixel_at_in A g feed (k + n) = Some px.
Proof.
  intros H <- Hk. unfold pixel_at_in. rewrite H, value_of_app.
  unfold value_of. by rewrite Hk.
Qed.

Lemma pixel_at_exact g feed h :
  pixel_at_in exact_arith g feed h = pixel_at g feed h.
Proof. reflexivity. Qed.

Lemma rgba_pixel_values_in A g feed (r gg b a y0 u v : Qc) :
  let n := length (nodes g) in
  feed !! n = Some [r; gg; b; a] →
  pa_rgb_to_yuv A [pa_div A r (decimal 255 1); pa_div A gg (decimal 255 1);
                   pa_div A b (decimal 255 1)] = [y0; u; v] →
  ∃ V,
    pixel_values_in A (add_nodes (rgba_nodes n) g) feed
      = pixel_values_in A g feed ++ V ∧
    V !! 5%nat = Some (Some [u; v]) ∧
    V !! 7%nat = Some (Some [pa_mul A y0 (decimal 255 1)]).
Proof.
  intros n. subst n. rewrite <- (pixel_values_in_length A g feed).
  set (V := pixel_values_in A g feed). intros Hf Hyuv.
  assert (pixel_values_in A g feed = V ++ []) as H0 by by rewrite app_nil_r.
  cbn [add_nodes rgba_nodes foldl].
  pose proof (pixel_values_in_step A rgba_placeholder _ _ _ _ H0) as H1.
  cbn [app length node_value_in rgba_placeholder Nat.add] in H1.
  rewrite Hf in H1.
  pose proof (pixel_values_in_step A (Cast (length V) tf_float32 None)
                _ _ _ _ H1) as H2.
  cbn [app length node_value_in] in H2. rewrite value_of_app_0 in H2.
  cbn [value_of lookup list_lookup] in H2.
  pose proof (pixel_values_in_step A
                (DivScalar (1 + length V) (decimal 255 1)) _ _ _ _ H2) as H3.
  cbn [app length node_value_in] in H3. rewrite value_of_app in H3.
  cbn [value_of lookup list_lookup fmap option_fmap option_map list_fmap]
    in H3.
  pose proof (pixel_values_in_step A
                (SliceLast (2 + length V) None (Some (-1))) _ _ _ _ H3)
    as H4.
  cbn [app length node_value_in] in H4. rewrite value_of_app in H4.
  cbn [value_of lookup list_lookup fmap option_fmap option_map] in H4.
  rewrite py_slice_drop_last in H4.
  pose proof (pixel_values_in_step A (RgbToYuv (3 + length V)) _ _ _ _ H4)
    as H5.
  cbn [app length node_value_in] in H5. rewrite value_of_app in H5.
  cbn [value_of lookup list_lookup mbind option_bind length Nat.eqb] in H5.
  rewrite Hyuv in H5.
  pose proof (pixel_values_in_step A (SliceLast (4 + length V) (Some 1) None)
                _ _ _ _ H5) as H6.
  cbn [app length node_value_in] in H6. rewrite value_of_app in H6.
  cbn [value_of lookup list_lookup fmap option_fmap option_map] in H6.
  rewrite py_slice_from_1 in H6.
  pose proof (pixel_values_in_step A
                (SliceLast (4 + length V) (Some 0) (Some 1)) _ _ _ _ H6)
    as H7.
  cbn [app length node_value_in] in H7. rewrite value_of_app in H7.
  cbn [value_of lookup list_lookup fmap option_fmap option_map] in H7.
  rewrite py_slice_first in H7.
  pose proof (pixel_values_in_step A
                (MulScalar (6 + length V) (decimal 255 1)) _ _ _ _ H7) as H8.
  cbn [app length node_value_in] in H8. rewrite value_of_app in H8.
  cbn [value_of lookup list_lookup fmap option_fmap option_map list_fmap]
    in H8.
  eexists. split; [exact H8|]. split; reflexivity.
Qed.

(** X18: in RGBA mode [build_graph] adds one input and two pre-processed
    inputs, the chroma pair and then the luma, and the alpha channel is
    discarded.  Whatever the arithmetic of the tensor operations (exact,
    or rounded as in [float32]), as long as the colour conversion keeps
    three channels: the three colour channels of the fed pixel are divided
    by 255 and converted, the chroma is the second and third channel of
    the result as they are, the luma is the first multiplied by 255, and
    two pixels that differ in alpha only give the same chroma and luma. *)
Theorem build_graph_rgba_discards_alpha
    self w m (A : pixel_arith) feed feed' (r gg b a a' : Qc) :
  heap w !! self = Some m → rgba m = true →
  (∀ px, length px = 3%nat → length (pa_rgb_to_yuv A px) = 3%nat) →
  let n := length (nodes (graph w)) in
  feed !! n = Some [r; gg; b; a] → feed' !! n = Some [r; gg; b; a'] →
  ∃ w' m' uv y (y0 u v : Qc),
    build_graph self w = (Ok (), w') ∧
    heap w' !! self = Some m' ∧
    inputs m' = inputs m ++ [n] ∧
    inputs_preproc m' = inputs_preproc m ++ [uv; y] ∧
    pa_rgb_to_yuv A [pa_div A r (decimal 255 1); pa_div A gg (decimal 255 1);
                     pa_div A b (decimal 255 1)] = [y0; u; v] ∧
    pixel_at_in A (graph w') feed uv = Some [u; v] ∧
    pixel_at_in A (graph w') feed' uv = Some [u; v] ∧
    pixel_at_in A (graph w') feed y = Some [pa_mul A y0 (decimal 255 1)] ∧
    pixel_at_in A (graph w') feed' y = Some [pa_mul A y0 (decimal 255 1)].
Proof.
  intros Hm Hrgb Hlen n Hf Hf'.
  pose proof (Hlen [pa_div A r (decimal 255 1); pa_div A gg (decimal 255 1);
                    pa_div A b (decimal 255 1)] eq_refl) as Hl3.
  destruct (pa_rgb_to_yuv A [pa_div A r (decimal 255 1);
                             pa_div A gg (decimal 255 1);
                             pa_div A b (decimal 255 1)])
    as [|y0 [|u [|v [|]]]] eqn:Hyuv; try discriminate.
  destruct (rgba_pixel_values_in A (graph w) feed r gg b a y0 u v Hf Hyuv)
    as (V & HV & Huv & Hy).
  destruct (rgba_pixel_values_in A (graph w) feed' r gg b a' y0 u v Hf' Hyuv)
    as (V' & HV' & Huv' & Hy').
  eexists _, _, (5 + n)%nat, (7 + n)%nat, y0, u, v.
  split; [exact (build_graph_rgba self w m Hm Hrgb)|].
  split; [apply heap_set_obj|].
  split; [reflexivity|].
  split; [cbn; by rewrite <- app_assoc|].
  split; [reflexivity|].
  cbn [graph set_obj with_graph]. fold n in HV, HV'.
  split; [exact (pixel_at_in_app A _ _ _ _ 5 n _ HV
                   (pixel_values_in_length _ _ _) Huv)|].
  split; [exact (pixel_at_in_app A _ _ _ _ 5 n _ HV'
                   (pixel_values_in_length _ _ _) Huv')|].
  split; [exact (pixel_at_in_app A _ _ _ _ 7 n _ HV
                   (pixel_values_in_length _ _ _) Hy)|].
  exact (pixel_at_in_app A _ _ _ _ 7 n _ HV'
           (pixel_values_in_length _ _ _) Hy').
Qed.

End proofs.

(** * The statements at the concrete models *)

Lemma conv2d_tanh_branch_unreachable_witness :
  (@conv2d counting_runtime 0%nat 0%nat 64 3
     (conv2d_select (PyStr "tanh") PyNone PyNone) new_world).1
  = Raise (TypeError "'NoneType' object is not callable").
Proof.
  exact (proj2 (proj2
    (@conv2d_tanh_branch_unreachable counting_runtime 0%nat 0%nat 64 3
       (conv2d_select (PyStr "tanh") PyNone PyNone) new_world eq_refl))
    eq_refl eq_refl eq_refl).
Defined.

Lemma train_batch_feeds_and_returns_metrics_witness :
  ∃ ret w',
    @train_batch counting_runtime 0%nat (ArgOne [1]) (ArgOne [2])
      default_weight_decay espcn_world = (Ok ret, w') ∧
    dict_keys ret = ["mse"; "regularization"; "psnr"; "ssim"].
Proof.
  destruct (@train_batch_feeds_and_returns_metrics counting_runtime 0%nat
              espcn_world (object_at 0%nat espcn_world) 0%nat
              (ArgOne [1]) (ArgOne [2]) default_weight_decay)
    as (fd & vals & s' & ret & _ & E & _ & _ & _ & _ & K & _).
  - vm_compute. reflexivity.
  - reflexivity.
  - refine (bool_decide_unpack _ _). vm_compute. exact I.
  - refine (bool_decide_unpack _ _). vm_compute. exact I.
  - reflexivity.
  - reflexivity.
  - eexists ret, _. split; [exact E|]. rewrite K. vm_compute. reflexivity.
Defined.

Lemma compile_builds_in_order_witness :
  ∃ w1, @Espcn_build_graph counting_runtime 0%nat espcn_constructed_world
        = (Ok (), w1) ∧
        compiled <$> heap w1 !! 0%nat = Some false ∧
        compiled <$> heap espcn_world !! 0%nat = Some true.
Proof.
  destruct (proj1 (proj1 (@compile_builds_in_order counting_runtime 0%nat
              espcn_constructed_world espcn_constructed 0%nat
              (NotImplementedError not_implemented_message) espcn_world
              ltac:(vm_compute; reflexivity) eq_refl))
              ltac:(vm_compute; reflexivity))
    as (_ & w1 & w2 & w3 & m3 & s & w4 & E1 & _ & _ & C1 & _ & _ & _ & _
        & _ & _ & C & _).
  exists w1. split; [exact E1|]. split; [exact C1 | exact C].
Defined.

Lemma abstract_build_steps_raise_witness :
  ∃ w', @compile counting_runtime 0%nat base_world
          = (Raise (NotImplementedError not_implemented_message), w') ∧
        compiled <$> heap w' !! 0%nat = Some false.
Proof.
  destruct (proj2 (proj2 (proj2
              (@abstract_build_steps_raise counting_runtime 0%nat base_world)))
              (object_at 0%nat base_world)
              ltac:(vm_compute; reflexivity) eq_refl)
    as (w' & E & C & _).
  exists w'. split; [exact E | exact C].
Defined.

Lemma test_batch_with_and_without_labels_witness :
  (∃ vals w', @test_batch counting_runtime 0%nat (ArgOne [1]) (ArgOne [2])
                espcn_world = (Ok vals, w') ∧ length vals = 5%nat) ∧
  (∃ vals w', @test_batch counting_runtime 0%nat (ArgOne [1]) ArgNone
                espcn_world = (Ok vals, w') ∧ length vals = 1%nat).
Proof.
  destruct (@test_batch_with_and_without_labels counting_runtime 0%nat
              espcn_world (object_at 0%nat espcn_world) 0%nat (ArgOne [1]))
    as [Hwith (fd & vals & s' & _ & E & L & _)].
  - vm_compute. reflexivity.
  - reflexivity.
  - refine (bool_decide_unpack _ _). vm_compute. exact I.
  - reflexivity.
  - split.
    + destruct (Hwith (ArgOne [2]) ltac:(discriminate) eq_refl)
        as (fd2 & vals2 & s2 & _ & E2 & L2 & _).
      eexists vals2, _. split; [exact E2 | exact L2].
    + eexists vals, _. split; [exact E | exact L].
Defined.

Lemma Espcn_regularization_is_fixed_witness :
  ∃ w', @Espcn_build_loss counting_runtime 0%nat espcn_graph_world
          = (Ok (), w') ∧
        op_of (graph w') 17 = Some (MulScalar 16 (decimal 1 10000)) ∧
        op_of (graph w') 19 = Some (Add 18 17) ∧
        op_of (graph w') 20 = Some (Add 14 19) ∧
        op_of (graph w') 21 = Some (AdamMinimize 2 20 (Some 0%nat)).
Proof.
  destruct (proj1 (proj2 (proj2
              (@Espcn_regularization_is_fixed counting_runtime 0%nat
                 espcn_graph_world (ArgOne 3) 3 "espcn" default_weight_decay
                 (decimal 1 100) false [])))
              (object_at 0%nat espcn_graph_world) 11%nat 6%nat [8; 10]%nat
              ltac:(vm_compute; reflexivity) ltac:(vm_compute; reflexivity)
              ltac:(vm_compute; reflexivity))
    as (w' & m' & E & _ & _ & _ & _ & T & _ & A1 & A2 & A3 & _).
  exists w'. split; [exact E|]. split; [exact T|].
  split; [exact A1|]. split; [exact A2 | exact A3].
Defined.

Lemma conv2d_initializer_selection_witness :
  @conv2d counting_runtime 0%nat 0%nat 64 3
    (conv2d_select PyNone (PyStr "he_normal") PyNone) new_world
  = (Ok 0%nat,
     with_graph (add_node (Conv2D 0%nat
       (conv2d_layer_args 64 3
          (conv2d_select PyNone (PyStr "he_normal") PyNone)
          (PyCallable he_normal) PyNone))) new_world).
Proof.
  exact (proj1
    (@conv2d_initializer_selection counting_runtime 0%nat 0%nat 64 3
       (conv2d_select PyNone (PyStr "he_normal") PyNone) new_world
       eq_refl eq_refl eq_refl) eq_refl).
Defined.

Lemma conv2d_named_regularizer_witness :
  (@conv2d counting_runtime 0%nat 0%nat 64 3
     (conv2d_select PyNone PyNone (PyStr "l2")) espcn_constructed_world).1
  = Ok 3%nat.
Proof.
  rewrite (proj2
    (@conv2d_named_regularizer counting_runtime 0%nat 0%nat 64 3
       (conv2d_select PyNone PyNone (PyStr "l2")) espcn_constructed_world
       espcn_constructed ltac:(vm_compute; reflexivity)
       eq_refl eq_refl eq_refl) eq_refl).
  case_bool_decide; reflexivity.
Defined.

Lemma conv2d_rejects_other_values_witness :
  @conv2d counting_runtime 0%nat 0%nat 64 3
    (conv2d_select PyNone (PyInt 1) PyNone) new_world
  = (Raise (ValueError "invalid kernel initializer!"), new_world).
Proof.
  exact (proj1
    (@conv2d_rejects_other_values counting_runtime 0%nat 0%nat 64 3
       (conv2d_select PyNone (PyInt 1) PyNone) new_world 1
       ltac:(discriminate)) eq_refl).
Defined.

Lemma conv2d_layer_batchnorm_activation_witness :
  (@conv2d counting_runtime 0%nat 0%nat 64 3
     (conv2d_batchnorm (PyStr "relu")) espcn_constructed_world).1
  = Ok 5%nat.
Proof.
  rewrite (@conv2d_layer_batchnorm_activation counting_runtime 0%nat 0%nat
             64 3 (conv2d_batchnorm (PyStr "relu")) espcn_constructed_world
             espcn_constructed nn_relu ltac:(vm_compute; reflexivity)
             eq_refl eq_refl eq_refl (or_introl (conj eq_refl eq_refl))).
  reflexivity.
Defined.

Lemma conv2d_without_activation_witness :
  @conv2d counting_runtime 0%nat 0%nat 64 3
    (conv2d_select (PyStr "") PyNone PyNone) new_world
  = tf_layers_conv2d 0%nat
      (conv2d_layer_args 64 3 (conv2d_select (PyStr "") PyNone PyNone)
         PyNone PyNone) new_world.
Proof.
  exact (@conv2d_without_activation counting_runtime 0%nat 0%nat 64 3
           (conv2d_select (PyStr "") PyNone PyNone) new_world
           eq_refl eq_refl eq_refl (or_intror eq_refl)).
Defined.

Lemma train_batch_mismatched_counts_witness :
  @train_batch counting_runtime 0%nat (ArgSeq []) (ArgOne [2])
    default_weight_decay espcn_world
  = (Raise (IndexError "list index out of range"), espcn_world).
Proof.
  apply (proj1
    (@train_batch_mismatched_counts counting_runtime 0%nat espcn_world
       (object_at 0%nat espcn_world) (ArgSeq []) (ArgOne [2])
       default_weight_decay ltac:(vm_compute; reflexivity))).
  vm_compute. lia.
Defined.


Lemma validate_batch_feeds_and_returns_witness :
  ∃ ret summary_value w',
    @validate_batch counting_runtime 0%nat (ArgOne [1]) (ArgOne [2])
      espcn_world = (Ok (ret, summary_value), w') ∧
    dict_keys ret = ["mse"; "regularization"; "psnr"; "ssim"].
Proof.
  destruct (@validate_batch_feeds_and_returns counting_runtime 0%nat
              espcn_world (object_at 0%nat espcn_world) 0%nat 30%nat
              (ArgOne [1]) (ArgOne [2]))
    as (fd & vals & s' & ret & sv & _ & E & _ & _ & _ & _ & K & _).
  - vm_compute. reflexivity.
  - reflexivity.
  - vm_compute. reflexivity.
  - refine (bool_decide_unpack _ _). vm_compute. exact I.
  - refine (bool_decide_unpack _ _). vm_compute. exact I.
  - reflexivity.
  - reflexivity.
  - eexists ret, sv, _. split; [exact E|]. rewrite K. vm_compute. reflexivity.
Defined.

Lemma unknown_args_round_trip_witness :
  ∃ self w',
    @SuperResolution_init counting_runtime EspcnClass (Some 3) (Some "espcn")
      (ArgOne 3) default_weight_decay false [("depth", PyInt 5)] new_world
      = (Ok self, w') ∧
    getattr_fallback self "depth" w' = (Ok (Some (PyInt 5)), w') ∧
    getattr_fallback self "width" w' = (Ok None, w').
Proof.
  destruct (@unknown_args_round_trip counting_runtime EspcnClass (Some 3)
              (Some "espcn") (ArgOne 3) default_weight_decay false
              [("depth", PyInt 5)] new_world "depth")
    as (self & w' & E & G & _).
  destruct (@unknown_args_round_trip counting_runtime EspcnClass (Some 3)
              (Some "espcn") (ArgOne 3) default_weight_decay false
              [("depth", PyInt 5)] new_world "width")
    as (self2 & w2 & E2 & G2 & _).
  rewrite E in E2. injection E2 as <- <-.
  exists self, w'. split; [exact E|]. split; [exact G | exact G2].
Defined.

Lemma Espcn_build_graph_ok_witness :
  ∃ w' h c,
    @Espcn_build_graph counting_runtime 0%nat espcn_constructed_world
      = (Ok (), w') ∧
    outputs <$> heap w' !! 0%nat = Some [h] ∧
    op_of (graph w') h = Some (PixelShift c [3; 3] 1).
Proof.
  destruct (@Espcn_build_graph_ok counting_runtime 0%nat
              espcn_constructed_world espcn_constructed "espcn" 3 3 3 []
              ltac:(vm_compute; reflexivity) eq_refl eq_refl eq_refl)
    as (w' & m' & h & c & x' & E & Hh & _ & Ho & _ & _ & _ & _ & _ & Hp & _).
  exists w', h, c. split; [exact E|]. split; [|exact Hp].
  rewrite Hh, lookup_insert_eq. cbn. by rewrite Ho.
Defined.

Lemma Espcn_build_summary_needs_metrics_witness :
  (∃ w', @Espcn_build_summary counting_runtime 0%nat espcn_world
           = (Ok (), w') ∧
         op_of (graph w') 31 = Some (SummaryScalar "loss/mse" 14)) ∧
  @Espcn_build_summary counting_runtime 0%nat espcn_graph_world
    = (Raise (KeyError "mse"), espcn_graph_world).
Proof.
  split.
  - destruct (proj1
      (@Espcn_build_summary_needs_metrics counting_runtime 0%nat espcn_world
         (object_at 0%nat espcn_world) 14%nat 19%nat 22%nat 23%nat
         ltac:(vm_compute; reflexivity))
      ltac:(vm_compute; reflexivity) ltac:(vm_compute; reflexivity)
      ltac:(vm_compute; reflexivity) ltac:(vm_compute; reflexivity))
      as (w' & E & _ & _ & T & _).
    exists w'. split; [exact E | exact T].
  - exact (proj2
      (@Espcn_build_summary_needs_metrics counting_runtime 0%nat
         espcn_graph_world (object_at 0%nat espcn_graph_world)
         0%nat 0%nat 0%nat 0%nat ltac:(vm_compute; reflexivity))
      ltac:(vm_compute; reflexivity)).
Defined.

Lemma Espcn_build_loss_without_outputs_witness :
  ∃ w', @Espcn_build_loss counting_runtime 0%nat espcn_constructed_world
          = (Raise (IndexError "list index out of range"), w') ∧
        label <$> heap w' !! 0%nat = Some [3%nat].
Proof.
  destruct (@Espcn_build_loss_without_outputs counting_runtime 0%nat
              espcn_constructed_world espcn_constructed
              ltac:(vm_compute; reflexivity) eq_refl)
    as (w' & E & Hh & _).
  exists w'. split; [exact E|]. rewrite Hh, lookup_insert_eq. reflexivity.
Defined.

Lemma Espcn_compile_ok_witness :
  ∃ w', @compile counting_runtime 0%nat espcn_constructed_world
          = (Ok 0%nat, w') ∧
        compiled <$> heap w' !! 0%nat = Some true.
Proof.
  destruct (@Espcn_compile_ok counting_runtime 0%nat espcn_constructed_world
              espcn_constructed "espcn" 3 3 3 []
              ltac:(vm_compute; reflexivity) eq_refl eq_refl eq_refl eq_refl)
    as (w' & m' & so & ss & E & Hh & C & _).
  exists w'. split; [exact E|]. rewrite Hh, lookup_insert_eq. cbn.
  by rewrite C.
Defined.

Lemma fresh_Espcn_compiles_witness :
  ∃ self w',
    @Espcn_compiled counting_runtime (ArgOne 3) 3 "espcn"
      default_weight_decay false [] new_world = (Ok self, w') ∧
    compiled <$> heap w' !! self = Some true.
Proof.
  destruct (@fresh_Espcn_compiles counting_runtime (ArgOne 3) 3 "espcn"
              default_weight_decay false [] new_world 3 3 [] eq_refl)
    as (self & w' & m' & E & _ & Hh & C & _).
  exists self, w'. split; [exact E|]. rewrite Hh, lookup_insert_eq. cbn.
  by rewrite C.
Defined.

Lemma Espcn_first_batch_requests_witness :
  ∃ self w' i l,
    @Espcn_compiled counting_runtime (ArgOne 3) 3 "espcn"
      default_weight_decay false [] new_world = (Ok self, w') ∧
    inputs <$> heap w' !! self = Some [i] ∧ i ≠ l ∧
    @test_batch counting_runtime self (ArgOne [1]) ArgNone w'
      = run (default [] (outputs <$> heap w' !! self))
          (<[i := FeedArray [1]]>
             (<[default 0%nat (training_phase <$> heap w' !! self)
                  := FeedBool false]> ∅)) w'.
Proof.
  destruct (@Espcn_first_batch_requests counting_runtime (ArgOne 3) 3
              "espcn" default_weight_decay false [] new_world [1] [2]
              default_weight_decay 3 3 [] eq_refl)
    as (self & w' & m' & i & l & E & Hm & Hi & _ & Hnd & _ & _ & _ & T).
  exists self, w', i, l. split; [exact E|]. rewrite Hm. cbn.
  split; [by rewrite Hi|]. split; [|exact T].
  intros ->. apply list.NoDup_cons in Hnd as [_ Hnd].
  apply list.NoDup_cons in Hnd as [_ Hnd].
  apply list.NoDup_cons in Hnd as [Hnd _].
  apply Hnd. left.
Defined.

Lemma Espcn_compile_twice_witness :
  ∃ w1 w2 m2,
    @compile counting_runtime 0%nat espcn_constructed_world = (Ok 0%nat, w1) ∧
    @compile counting_runtime 0%nat w1 = (Ok 0%nat, w2) ∧
    heap w2 !! 0%nat = Some m2 ∧ length (inputs m2) = 2%nat ∧
    @train_batch counting_runtime 0%nat (ArgOne [1]) (ArgOne [2])
      default_weight_decay w2
    = (Raise (IndexError "list index out of range"), w2).
Proof.
  destruct (@Espcn_compile_twice counting_runtime 0%nat
              espcn_constructed_world espcn_constructed "espcn" 3 3 3 []
              ltac:(vm_compute; reflexivity) eq_refl eq_refl eq_refl eq_refl)
    as (w1 & m1 & w2 & m2 & E1 & _ & E2 & Hh2 & _ & Li & _ & _ & _ & _ & T).
  exists w1, w2, m2. split; [exact E1|]. split; [exact E2|].
  split; [rewrite Hh2; apply lookup_insert_eq|]. split; [exact Li|].
  apply T. reflexivity.
Defined.

Lemma build_graph_gray_keeps_pixel_witness :
  ∃ w' p,
    @build_graph counting_runtime 0%nat base_world = (Ok (), w') ∧
    pixel_at (graph w') {[3%nat := [Q2Qc 7]]} p = Some [Q2Qc 7].
Proof.
  destruct (@build_graph_gray_keeps_pixel counting_runtime 0%nat base_world
              (object_at 0%nat base_world) {[3%nat := [Q2Qc 7]]} [Q2Qc 7]
              ltac:(vm_compute; reflexivity) ltac:(vm_compute; reflexivity)
              ltac:(vm_compute; reflexivity))
    as (w' & m' & p & E & _ & _ & _ & _ & V).
  exists w', p. split; [exact E | exact V].
Defined.

Lemma build_graph_rgba_discards_alpha_witness :
  ∃ w' y l,
    @build_graph counting_runtime 0%nat rgba_world = (Ok (), w') ∧
    pixel_at (graph w') {[3%nat := red_pixel]} y = Some [l] ∧
    pixel_at (graph w')
      {[3%nat := [Q2Qc 255; Q2Qc 0; Q2Qc 0; Q2Qc 0]]} y = Some [l].
Proof.
  destruct (@build_graph_rgba_discards_alpha counting_runtime 0%nat
              rgba_world (object_at 0%nat rgba_world) exact_arith
              {[3%nat := red_pixel]}
              {[3%nat := [Q2Qc 255; Q2Qc 0; Q2Qc 0; Q2Qc 0]]}
              (Q2Qc 255) (Q2Qc 0) (Q2Qc 0) (Q2Qc 255) (Q2Qc 0)
              ltac:(vm_compute; reflexivity) ltac:(vm_compute; reflexivity))
    as (w' & m' & uv & y & y0 & u & v & E & _ & _ & _ & _ & _ & _ & Y & Y').
  - intros [|x0 [|x1 [|x2 [|x3 px]]]]; try discriminate. reflexivity.
  - vm_compute. reflexivity.
  - vm_compute. reflexivity.
  - exists w', y, (pa_mul exact_arith y0 (decimal 255 1)).
    split; [exact E|]. split; [exact Y | exact Y'].
Defined.
